(** * httpsign: signer and verifier construction, configuration and the
      crypto dispatch of [crypto.go] and [config.go].

    The Go code is embedded shallowly.  Heap objects that the code shares by
    pointer ([*SignConfig], [*VerifyConfig], [*Signer], [*Verifier]) live in
    an explicit store; functions that allocate, read or write them, read the
    process-wide random source or may panic run in a small state-and-panic
    monad.  The Go standard library packages called by [crypto.go] are an
    interface ([GoCrypto]). *)

From Stdlib Require Import ZArith String Ascii List Lia.
From Stdlib Require Import Strings.Byte.
From stdpp Require Import base gmap strings list.

Local Open Scope Z_scope.
Local Open Scope string_scope.

(** ** Go base types *)

(** A Go slice is either [nil] or a (possibly empty) sequence of elements. *)
Definition slice (A : Type) : Type := option (list A).

Definition elems {A} (s : slice A) : list A :=
  match s with
  | None => nil
  | Some l => l
  end.

(** [len(s)]; the length of a nil slice is 0. *)
Definition len {A} (s : slice A) : Z := Z.of_nat (length (elems s)).

(** Heap addresses; a Go pointer is [nil] or an address. *)
Abbreviation loc := positive (only parsing).
Abbreviation ptr := (option positive) (only parsing).

(** A Go [error] value: [nil] or an error carrying its message. *)
Definition error : Type := option string.
Definition nil_error : error := None.

(** [fmt.Errorf] with a constant format. *)
Definition fmt_Errorf (msg : string) : error := Some msg.

(** The message of a non-nil error ([err.Error()]). *)
Definition Error_msg (e : string) : string := e.

Definition dquote : string := String (ascii_of_nat 34) EmptyString.

(** [time.Duration] counts nanoseconds in an int64. *)
Definition Duration : Type := Z.
Definition time_Nanosecond : Duration := 1.
Definition time_Second : Duration := 1000000000 * time_Nanosecond.

#[global] Instance byte_eq_dec : EqDecision byte := Byte.byte_eq_dec.

(** [bytes.Equal]: same length and same bytes; a nil slice equals an empty
    one. *)
Definition bytes_Equal (a b : slice byte) : bool :=
  bool_decide (elems a = elems b).

(** ** Big-endian encoding of numbers in a fixed number of bytes *)

Definition byte_of_Z (z : Z) : byte :=
  match Byte.of_N (Z.to_N (z mod 256)) with
  | Some b => b
  | None => Byte.x00
  end.

Definition Z_of_byte (b : byte) : Z := Z.of_N (Byte.to_N b).

(** The [n] low-order bytes of [z], most significant first
    (as [big.Int.FillBytes] writes them). *)
Fixpoint be_bytes (n : nat) (z : Z) : list byte :=
  match n with
  | O => nil
  | S n' => be_bytes n' (z / 256) ++ byte_of_Z z :: nil
  end.

(** The number a big-endian byte string stands for
    (as [big.Int.SetBytes] reads it). *)
Definition be_decode (l : list byte) : Z :=
  fold_left (fun acc b => acc * 256 + Z_of_byte b) l 0.

(** ** config.go *)

(** [type requestResponse struct{ name, signature string }] *)
Record requestResponse := {
  rr_name : string;
  rr_signature : string;
}.

Record SignConfig := {
  signAlg : bool;
  signCreated : bool;
  fakeCreated : Z;
  expires : Z;
  nonce : string;
  (* a pointer to a struct that is never written after its allocation *)
  sc_requestResponse : option requestResponse;
}.

Record VerifyConfig := {
  verifyCreated : bool;
  notNewerThan : Duration;
  notOlderThan : Duration;
  allowedAlgs : slice string;
  rejectExpired : bool;
  vc_requestResponse : option requestResponse;
  verifyKeyID : bool;
  dateWithin : Duration;
}.

(** The composite literal of [NewSignConfig]; [requestResponse] is not
    listed there and so is the nil pointer. *)
Definition default_SignConfig : SignConfig := {|
  signAlg := true;
  signCreated := true;
  fakeCreated := 0;
  expires := 0;
  nonce := EmptyString;
  sc_requestResponse := None;
|}.

(** The composite literal of [NewVerifyConfig]. *)
Definition default_VerifyConfig : VerifyConfig := {|
  verifyCreated := true;
  notNewerThan := 2 * time_Second;
  notOlderThan := 10 * time_Second;
  allowedAlgs := Some nil;
  rejectExpired := true;
  vc_requestResponse := None;
  verifyKeyID := true;
  dateWithin := 0;
|}.

(** ** The Go standard library as seen from crypto.go *)

Inductive crypto_Hash := crypto_SHA256 | crypto_SHA512.

Class GoCrypto := {
  (** [rsa.PrivateKey], [rsa.PublicKey], [ecdsa.PrivateKey],
      [ecdsa.PublicKey] *)
  rsa_PrivateKey : Type;
  rsa_PublicKey : Type;
  ecdsa_PrivateKey : Type;
  ecdsa_PublicKey : Type;
  (** the state of [rand.Reader] *)
  Entropy : Type;
  (** [mac := hmac.New(sha256.New, key); mac.Write(buff); mac.Sum(nil)] *)
  hmac_sha256 : list byte -> list byte -> list byte;
  sha256_Sum256 : list byte -> list byte;
  sha512_Sum512 : list byte -> list byte;
  (** [rsa.SignPKCS1v15(nil, key, hash, hashed)] *)
  rsa_SignPKCS1v15 :
    rsa_PrivateKey -> crypto_Hash -> list byte -> list byte + string;
  (** [rsa.SignPSS(rand.Reader, key, hash, hashed, nil)] *)
  rsa_SignPSS :
    Entropy -> rsa_PrivateKey -> crypto_Hash -> list byte ->
    (list byte + string) * Entropy;
  (** [rsa.VerifyPKCS1v15(key, hash, hashed, sig)]: [None] is a nil error *)
  rsa_VerifyPKCS1v15 :
    rsa_PublicKey -> crypto_Hash -> list byte -> list byte -> option string;
  (** [rsa.VerifyPSS(key, hash, hashed, sig, nil)] *)
  rsa_VerifyPSS :
    rsa_PublicKey -> crypto_Hash -> list byte -> list byte -> option string;
  (** [ecdsa.Sign(rand.Reader, key, hashed)]: the pair (r, s) *)
  ecdsa_Sign :
    Entropy -> ecdsa_PrivateKey -> list byte -> (Z * Z + string) * Entropy;
  (** [ecdsa.Verify(key, hashed, r, s)] *)
  ecdsa_Verify : ecdsa_PublicKey -> list byte -> Z -> Z -> bool;
}.

(** How a call ends: it returns, or it panics. *)
Inductive outcome (A : Type) :=
| Ok (a : A)
| Panic (msg : string).
Arguments Ok {A} a.
Arguments Panic {A} msg.

Section Store.

(** [Fields] is declared in another file of the package; the code here only
    stores values of it. *)
Context {Fields : Type}.
Context `{GoCrypto}.

(** ** crypto.go: the structures *)

(** The dynamic value of a [key interface{}] field.  The pointer types may
    hold a nil pointer. *)
Inductive Key :=
| KeyNil
| KeyBytes (k : slice byte)
| KeyRSAPrivate (k : option rsa_PrivateKey)
| KeyRSAPublic (k : option rsa_PublicKey)
| KeyECDSAPrivate (k : option ecdsa_PrivateKey)
| KeyECDSAPublic (k : option ecdsa_PublicKey)
| KeyOther.

Record Signer := {
  s_keyID : string;
  s_key : Key;
  s_alg : string;
  s_config : ptr;
  s_fields : Fields;
}.

Record Verifier := {
  v_keyID : string;
  v_key : Key;
  v_alg : string;
  v_c : ptr;
  v_f : Fields;
}.

(** ** The store *)

Record World := {
  signConfigs : gmap positive SignConfig;
  verifyConfigs : gmap positive VerifyConfig;
  signers : gmap positive Signer;
  verifiers : gmap positive Verifier;
  rand_Reader : Entropy;
}.

Definition with_signConfigs (m : gmap positive SignConfig) (w : World) :=
  {| signConfigs := m; verifyConfigs := verifyConfigs w;
     signers := signers w; verifiers := verifiers w;
     rand_Reader := rand_Reader w |}.

Definition with_verifyConfigs (m : gmap positive VerifyConfig) (w : World) :=
  {| signConfigs := signConfigs w; verifyConfigs := m;
     signers := signers w; verifiers := verifiers w;
     rand_Reader := rand_Reader w |}.

Definition with_signers (m : gmap positive Signer) (w : World) :=
  {| signConfigs := signConfigs w; verifyConfigs := verifyConfigs w;
     signers := m; verifiers := verifiers w;
     rand_Reader := rand_Reader w |}.

Definition with_verifiers (m : gmap positive Verifier) (w : World) :=
  {| signConfigs := signConfigs w; verifyConfigs := verifyConfigs w;
     signers := signers w; verifiers := m;
     rand_Reader := rand_Reader w |}.

Definition with_rand_Reader (e : Entropy) (w : World) :=
  {| signConfigs := signConfigs w; verifyConfigs := verifyConfigs w;
     signers := signers w; verifiers := verifiers w;
     rand_Reader := e |}.

(** ** The monad: state, and a panic that stops the computation *)

Definition M (A : Type) : Type := World -> outcome A * World.

Definition ret {A} (a : A) : M A := fun w => (Ok a, w).

Definition bind {A B} (m : M A) (k : A -> M B) : M B :=
  fun w =>
    match m w with
    | (Ok a, w') => k a w'
    | (Panic msg, w') => (Panic msg, w')
    end.

Definition panic {A} (msg : string) : M A := fun w => (Panic msg, w).

End Store.

Declare Scope go_scope.
Delimit Scope go_scope with go.
Notation "'let*' x ':=' m 'in' k" := (bind m (fun x => k))
  (at level 10, x pattern, m at level 100, k at level 200) : go_scope.
Local Open Scope go_scope.

Section Code.

Context {Fields : Type}.
Context `{GoCrypto}.

Abbreviation M := (@M Fields _).
Abbreviation World := (@World Fields _).
Abbreviation Signer := (@Signer Fields _).
Abbreviation Verifier := (@Verifier Fields _).

(** Allocation ([&T{...}]) picks an address that is not in use. *)
Definition new_SignConfig (c : SignConfig) : M ptr :=
  fun w =>
    let l := fresh (dom (signConfigs w)) in
    (Ok (Some l), with_signConfigs (<[l := c]> (signConfigs w)) w).

Definition new_VerifyConfig (c : VerifyConfig) : M ptr :=
  fun w =>
    let l := fresh (dom (verifyConfigs w)) in
    (Ok (Some l), with_verifyConfigs (<[l := c]> (verifyConfigs w)) w).

Definition new_Signer (s : Signer) : M ptr :=
  fun w =>
    let l := fresh (dom (signers w)) in
    (Ok (Some l), with_signers (<[l := s]> (signers w)) w).

Definition new_Verifier (v : Verifier) : M ptr :=
  fun w =>
    let l := fresh (dom (verifiers w)) in
    (Ok (Some l), with_verifiers (<[l := v]> (verifiers w)) w).

Definition nil_dereference : string :=
  "invalid memory address or nil pointer dereference".

(** Reading through a pointer; a nil pointer panics. *)
Definition load_SignConfig (p : ptr) : M SignConfig :=
  fun w =>
    match p with
    | None => (Panic nil_dereference, w)
    | Some l =>
        match signConfigs w !! l with
        | Some c => (Ok c, w)
        | None => (Panic nil_dereference, w)
        end
    end.

Definition load_VerifyConfig (p : ptr) : M VerifyConfig :=
  fun w =>
    match p with
    | None => (Panic nil_dereference, w)
    | Some l =>
        match verifyConfigs w !! l with
        | Some c => (Ok c, w)
        | None => (Panic nil_dereference, w)
        end
    end.

(** Writing a field through a pointer: read the struct, change it, write it
    back at the same address. *)
Definition update_SignConfig (p : ptr) (f : SignConfig -> SignConfig)
  : M unit :=
  let* c := load_SignConfig p in
  fun w =>
    match p with
    | Some l => (Ok tt, with_signConfigs (<[l := f c]> (signConfigs w)) w)
    | None => (Panic nil_dereference, w)
    end.

Definition update_VerifyConfig (p : ptr) (f : VerifyConfig -> VerifyConfig)
  : M unit :=
  let* c := load_VerifyConfig p in
  fun w =>
    match p with
    | Some l => (Ok tt, with_verifyConfigs (<[l := f c]> (verifyConfigs w)) w)
    | None => (Panic nil_dereference, w)
    end.

(** ** config.go: the functions *)

(** [func NewSignConfig() *SignConfig] *)
Definition NewSignConfig : M ptr := new_SignConfig default_SignConfig.

(** [func (c *SignConfig) SignAlg(b bool) *SignConfig] *)
Definition SignConfig_SignAlg (c : ptr) (b : bool) : M ptr :=
  let* _ := update_SignConfig c (fun x =>
    {| signAlg := b; signCreated := signCreated x;
       fakeCreated := fakeCreated x; expires := expires x; nonce := nonce x;
       sc_requestResponse := sc_requestResponse x |}) in
  ret c.

(** [func (c *SignConfig) SignCreated(b bool) *SignConfig] *)
Definition SignConfig_SignCreated (c : ptr) (b : bool) : M ptr :=
  let* _ := update_SignConfig c (fun x =>
    {| signAlg := signAlg x; signCreated := b;
       fakeCreated := fakeCreated x; expires := expires x; nonce := nonce x;
       sc_requestResponse := sc_requestResponse x |}) in
  ret c.

(** [func (c *SignConfig) setFakeCreated(ts int64) *SignConfig] *)
Definition SignConfig_setFakeCreated (c : ptr) (ts : Z) : M ptr :=
  let* _ := update_SignConfig c (fun x =>
    {| signAlg := signAlg x; signCreated := signCreated x;
       fakeCreated := ts; expires := expires x; nonce := nonce x;
       sc_requestResponse := sc_requestResponse x |}) in
  ret c.

(** [func (c *SignConfig) SetExpires(expires int64) *SignConfig] *)
Definition SignConfig_SetExpires (c : ptr) (e : Z) : M ptr :=
  let* _ := update_SignConfig c (fun x =>
    {| signAlg := signAlg x; signCreated := signCreated x;
       fakeCreated := fakeCreated x; expires := e; nonce := nonce x;
       sc_requestResponse := sc_requestResponse x |}) in
  ret c.

(** [func (c *SignConfig) SetNonce(nonce string) *SignConfig] *)
Definition SignConfig_SetNonce (c : ptr) (n : string) : M ptr :=
  let* _ := update_SignConfig c (fun x =>
    {| signAlg := signAlg x; signCreated := signCreated x;
       fakeCreated := fakeCreated x; expires := expires x; nonce := n;
       sc_requestResponse := sc_requestResponse x |}) in
  ret c.

(** [func (c *SignConfig) SetRequestResponse(name, signature string)] *)
Definition SignConfig_SetRequestResponse (c : ptr) (name signature : string)
  : M ptr :=
  let* _ := update_SignConfig c (fun x =>
    {| signAlg := signAlg x; signCreated := signCreated x;
       fakeCreated := fakeCreated x; expires := expires x; nonce := nonce x;
       sc_requestResponse :=
         Some {| rr_name := name; rr_signature := signature |} |}) in
  ret c.

(** [func NewVerifyConfig() *VerifyConfig] *)
Definition NewVerifyConfig : M ptr := new_VerifyConfig default_VerifyConfig.

(** [func (v *VerifyConfig) SetNotNewerThan(d time.Duration)] *)
Definition VerifyConfig_SetNotNewerThan (v : ptr) (d : Duration) : M ptr :=
  let* _ := update_VerifyConfig v (fun x =>
    {| verifyCreated := verifyCreated x; notNewerThan := d;
       notOlderThan := notOlderThan x; allowedAlgs := allowedAlgs x;
       rejectExpired := rejectExpired x;
       vc_requestResponse := vc_requestResponse x;
       verifyKeyID := verifyKeyID x; dateWithin := dateWithin x |}) in
  ret v.

(** [func (v *VerifyConfig) SetNotOlderThan(d time.Duration)] *)
Definition VerifyConfig_SetNotOlderThan (v : ptr) (d : Duration) : M ptr :=
  let* _ := update_VerifyConfig v (fun x =>
    {| verifyCreated := verifyCreated x; notNewerThan := notNewerThan x;
       notOlderThan := d; allowedAlgs := allowedAlgs x;
       rejectExpired := rejectExpired x;
       vc_requestResponse := vc_requestResponse x;
       verifyKeyID := verifyKeyID x; dateWithin := dateWithin x |}) in
  ret v.

(** [func (v *VerifyConfig) SetVerifyCreated(verifyCreated bool)] *)
Definition VerifyConfig_SetVerifyCreated (v : ptr) (b : bool) : M ptr :=
  let* _ := update_VerifyConfig v (fun x =>
    {| verifyCreated := b; notNewerThan := notNewerThan x;
       notOlderThan := notOlderThan x; allowedAlgs := allowedAlgs x;
       rejectExpired := rejectExpired x;
       vc_requestResponse := vc_requestResponse x;
       verifyKeyID := verifyKeyID x; dateWithin := dateWithin x |}) in
  ret v.

(** [func (v *VerifyConfig) SetRejectExpired(rejectExpired bool)] *)
Definition VerifyConfig_SetRejectExpired (v : ptr) (b : bool) : M ptr :=
  let* _ := update_VerifyConfig v (fun x =>
    {| verifyCreated := verifyCreated x; notNewerThan := notNewerThan x;
       notOlderThan := notOlderThan x; allowedAlgs := allowedAlgs x;
       rejectExpired := b;
       vc_requestResponse := vc_requestResponse x;
       verifyKeyID := verifyKeyID x; dateWithin := dateWithin x |}) in
  ret v.

(** [func (v *VerifyConfig) SetAllowedAlgs(allowedAlgs []string)] *)
Definition VerifyConfig_SetAllowedAlgs (v : ptr) (a : slice string) : M ptr :=
  let* _ := update_VerifyConfig v (fun x =>
    {| verifyCreated := verifyCreated x; notNewerThan := notNewerThan x;
       notOlderThan := notOlderThan x; allowedAlgs := a;
       rejectExpired := rejectExpired x;
       vc_requestResponse := vc_requestResponse x;
       verifyKeyID := verifyKeyID x; dateWithin := dateWithin x |}) in
  ret v.

(** [func (v *VerifyConfig) SetRequestResponse(name, signature string)] *)
Definition VerifyConfig_SetRequestResponse (v : ptr)
  (name signature : string) : M ptr :=
  let* _ := update_VerifyConfig v (fun x =>
    {| verifyCreated := verifyCreated x; notNewerThan := notNewerThan x;
       notOlderThan := notOlderThan x; allowedAlgs := allowedAlgs x;
       rejectExpired := rejectExpired x;
       vc_requestResponse :=
         Some {| rr_name := name; rr_signature := signature |};
       verifyKeyID := verifyKeyID x; dateWithin := dateWithin x |}) in
  ret v.

(** [func (v *VerifyConfig) SetVerifyKeyID(verify bool)] *)
Definition VerifyConfig_SetVerifyKeyID (v : ptr) (b : bool) : M ptr :=
  let* _ := update_VerifyConfig v (fun x =>
    {| verifyCreated := verifyCreated x; notNewerThan := notNewerThan x;
       notOlderThan := notOlderThan x; allowedAlgs := allowedAlgs x;
       rejectExpired := rejectExpired x;
       vc_requestResponse := vc_requestResponse x;
       verifyKeyID := b; dateWithin := dateWithin x |}) in
  ret v.

(** [func (v *VerifyConfig) SetVerifyDateWithin(d time.Duration)] *)
Definition VerifyConfig_SetVerifyDateWithin (v : ptr) (d : Duration)
  : M ptr :=
  let* _ := update_VerifyConfig v (fun x =>
    {| verifyCreated := verifyCreated x; notNewerThan := notNewerThan x;
       notOlderThan := notOlderThan x; allowedAlgs := allowedAlgs x;
       rejectExpired := rejectExpired x;
       vc_requestResponse := vc_requestResponse x;
       verifyKeyID := verifyKeyID x; dateWithin := d |}) in
  ret v.

(** ** crypto.go: the constructors *)

Definition is_nil {A} (p : option A) : bool :=
  match p with
  | None => true
  | Some _ => false
  end.

(** [if config == nil { config = NewSignConfig() }] *)
Definition SignConfig_or_default (config : ptr) : M ptr :=
  if is_nil config then NewSignConfig else ret config.

(** [if config == nil { config = NewVerifyConfig() }] *)
Definition VerifyConfig_or_default (config : ptr) : M ptr :=
  if is_nil config then NewVerifyConfig else ret config.

Definition NewHMACSHA256Signer (keyID : string) (key : slice byte)
  (config : ptr) (fields : Fields) : M (ptr * error) :=
  if is_nil key || (len key <? 64)%Z then
    ret (None, fmt_Errorf "key must be at least 64 bytes long")
  else if keyID =? EmptyString then
    ret (None, fmt_Errorf "keyID must not be empty")
  else
    let* config := SignConfig_or_default config in
    let* s := new_Signer {| s_keyID := keyID; s_key := KeyBytes key;
                            s_alg := "hmac-sha256"; s_config := config;
                            s_fields := fields |} in
    ret (s, nil_error).

Definition NewRSASigner (keyID : string) (key : option rsa_PrivateKey)
  (config : ptr) (fields : Fields) : M (ptr * error) :=
  if is_nil key then
    ret (None, fmt_Errorf "key must not be nil")
  else if keyID =? EmptyString then
    ret (None, fmt_Errorf "keyID must not be empty")
  else
    let* config := SignConfig_or_default config in
    let* s := new_Signer {| s_keyID := keyID; s_key := KeyRSAPrivate key;
                            s_alg := "rsa-v1_5-sha256"; s_config := config;
                            s_fields := fields |} in
    ret (s, nil_error).

Definition NewRSAPSSSigner (keyID : string) (key : option rsa_PrivateKey)
  (config : ptr) (fields : Fields) : M (ptr * error) :=
  if is_nil key then
    ret (None, fmt_Errorf "key must not be nil")
  else if keyID =? EmptyString then
    ret (None, fmt_Errorf "keyID must not be empty")
  else
    let* config := SignConfig_or_default config in
    let* s := new_Signer {| s_keyID := keyID; s_key := KeyRSAPrivate key;
                            s_alg := "rsa-pss-sha512"; s_config := config;
                            s_fields := fields |} in
    ret (s, nil_error).

Definition NewP256Signer (keyID : string) (key : option ecdsa_PrivateKey)
  (config : ptr) (fields : Fields) : M (ptr * error) :=
  if is_nil key then
    ret (None, fmt_Errorf "key must not be nil")
  else if keyID =? EmptyString then
    ret (None, fmt_Errorf "keyID must not be empty")
  else
    let* config := SignConfig_or_default config in
    let* s := new_Signer {| s_keyID := keyID; s_key := KeyECDSAPrivate key;
                            s_alg := "ecdsa-p256-sha256"; s_config := config;
                            s_fields := fields |} in
    ret (s, nil_error).

Definition NewHMACSHA256Verifier (keyID : string) (key : slice byte)
  (config : ptr) (fields : Fields) : M (ptr * error) :=
  if is_nil key then
    ret (None, fmt_Errorf "key must not be nil")
  else if (len key <? 64)%Z then
    ret (None, fmt_Errorf "key must be at least 64 bytes long")
  else
    let* config := VerifyConfig_or_default config in
    let* v := new_Verifier {| v_keyID := keyID; v_key := KeyBytes key;
                              v_alg := "hmac-sha256"; v_c := config;
                              v_f := fields |} in
    ret (v, nil_error).

Definition NewRSAVerifier (keyID : string) (key : option rsa_PublicKey)
  (config : ptr) (fields : Fields) : M (ptr * error) :=
  if is_nil key then
    ret (None, fmt_Errorf "key must not be nil")
  else
    let* config := VerifyConfig_or_default config in
    let* v := new_Verifier {| v_keyID := keyID; v_key := KeyRSAPublic key;
                              v_alg := "rsa-v1_5-sha256"; v_c := config;
                              v_f := fields |} in
    ret (v, nil_error).

Definition NewRSAPSSVerifier (keyID : string) (key : option rsa_PublicKey)
  (config : ptr) (fields : Fields) : M (ptr * error) :=
  if is_nil key then
    ret (None, fmt_Errorf "key must not be nil")
  else
    let* config := VerifyConfig_or_default config in
    let* v := new_Verifier {| v_keyID := keyID; v_key := KeyRSAPublic key;
                              v_alg := "rsa-pss-sha512"; v_c := config;
                              v_f := fields |} in
    ret (v, nil_error).

Definition NewP256Verifier (keyID : string) (key : option ecdsa_PublicKey)
  (config : ptr) (fields : Fields) : M (ptr * error) :=
  if is_nil key then
    ret (None, fmt_Errorf "key must not be nil")
  else
    let* config := VerifyConfig_or_default config in
    let* v := new_Verifier {| v_keyID := keyID; v_key := KeyECDSAPublic key;
                              v_alg := "ecdsa-p256-sha256"; v_c := config;
                              v_f := fields |} in
    ret (v, nil_error).

(** ** crypto.go: sign and verify *)

Definition interface_conversion : string := "interface conversion".

(** The type assertions on the [key] field (to a byte slice, to a pointer
    to an RSA or ECDSA key): a key of another dynamic type, or a nil
    interface, panics. *)
Definition assert_bytes (k : Key) : M (slice byte) :=
  match k with
  | KeyBytes b => ret b
  | _ => panic interface_conversion
  end.

Definition assert_rsa_PrivateKey (k : Key) : M (option rsa_PrivateKey) :=
  match k with
  | KeyRSAPrivate p => ret p
  | _ => panic interface_conversion
  end.

Definition assert_rsa_PublicKey (k : Key) : M (option rsa_PublicKey) :=
  match k with
  | KeyRSAPublic p => ret p
  | _ => panic interface_conversion
  end.

Definition assert_ecdsa_PrivateKey (k : Key) : M (option ecdsa_PrivateKey) :=
  match k with
  | KeyECDSAPrivate p => ret p
  | _ => panic interface_conversion
  end.

Definition assert_ecdsa_PublicKey (k : Key) : M (option ecdsa_PublicKey) :=
  match k with
  | KeyECDSAPublic p => ret p
  | _ => panic interface_conversion
  end.

(** The library functions read the key through its pointer. *)
Definition deref {A} (p : option A) : M A :=
  match p with
  | Some a => ret a
  | None => panic nil_dereference
  end.

(** A call that reads from [rand.Reader]. *)
Definition with_rand {A} (f : Entropy -> A * Entropy) : M A :=
  fun w =>
    let (a, e) := f (rand_Reader w) in
    (Ok a, with_rand_Reader e w).

(** Modelled from the spec: [ecdsaSignRaw] is a function of this package
    whose file is not among the sources.  The spec fixes the wire form of
    an ECDSA signature as the concatenation of r and s, 32 bytes each,
    big-endian and zero-padded; (r, s) come from the library's
    [ecdsa.Sign], whose error is passed on.  On P-256 both numbers are
    below 2^256 and so fit their 32 bytes. *)
Definition ecdsaSignRaw (key : option ecdsa_PrivateKey) (hashed : list byte)
  : M (slice byte * error) :=
  let* k := deref key in
  let* res := with_rand (fun e => ecdsa_Sign e k hashed) in
  match res with
  | inl (r, s) => ret (Some (be_bytes 32 r ++ be_bytes 32 s)%list, nil_error)
  | inr msg => ret (None, Some msg)
  end.

(** Modelled from the spec: [ecdsaVerifyRaw] is a function of this package
    whose file is not among the sources.  It reads the same raw form: the
    first 32 bytes are r and the last 32 bytes are s, both big-endian, and
    the answer is that of the library's [ecdsa.Verify].  The spec does not
    say what a signature of another length gives; it is refused here with
    an error. *)
Definition ecdsaVerifyRaw (key : option ecdsa_PublicKey) (hashed : list byte)
  (sig : slice byte) : M (bool * error) :=
  let* k := deref key in
  if (len sig =? 64)%Z then
    ret (ecdsa_Verify k hashed (be_decode (take 32 (elems sig)))
                               (be_decode (drop 32 (elems sig))),
         nil_error)
  else
    ret (false, fmt_Errorf "ecdsa: signature is not 64 bytes long").

(** [func (s Signer) sign(buff []byte) ([]byte, error)] *)
Definition sign (s : Signer) (buff : slice byte) : M (slice byte * error) :=
  if s_alg s =? "hmac-sha256" then
    let* k := assert_bytes (s_key s) in
    ret (Some (hmac_sha256 (elems k) (elems buff)), nil_error)
  else if s_alg s =? "rsa-v1_5-sha256" then
    let hashed := sha256_Sum256 (elems buff) in
    let* p := assert_rsa_PrivateKey (s_key s) in
    let* k := deref p in
    match rsa_SignPKCS1v15 k crypto_SHA256 hashed with
    | inr _ => ret (None, fmt_Errorf "RSA signature failed")
    | inl sig => ret (Some sig, nil_error)
    end
  else if s_alg s =? "rsa-pss-sha512" then
    let hashed := sha512_Sum512 (elems buff) in
    let* p := assert_rsa_PrivateKey (s_key s) in
    let* k := deref p in
    let* res := with_rand (fun e => rsa_SignPSS e k crypto_SHA512 hashed) in
    match res with
    | inr _ => ret (None, fmt_Errorf "RSA-PSS signature failed")
    | inl sig => ret (Some sig, nil_error)
    end
  else if s_alg s =? "ecdsa-p256-sha256" then
    let hashed := sha256_Sum256 (elems buff) in
    let* p := assert_ecdsa_PrivateKey (s_key s) in
    ecdsaSignRaw p hashed
  else
    ret (None, fmt_Errorf ("sign: unknown algorithm " ++ dquote ++ s_alg s
                             ++ dquote)).

(** [func (v Verifier) verify(buff []byte, sig []byte) (bool, error)] *)
Definition verify (v : Verifier) (buff sig : slice byte) : M (bool * error) :=
  if v_alg v =? "hmac-sha256" then
    let* k := assert_bytes (v_key v) in
    ret (bytes_Equal (Some (hmac_sha256 (elems k) (elems buff))) sig,
         nil_error)
  else if v_alg v =? "rsa-v1_5-sha256" then
    let hashed := sha256_Sum256 (elems buff) in
    let* p := assert_rsa_PublicKey (v_key v) in
    let* k := deref p in
    match rsa_VerifyPKCS1v15 k crypto_SHA256 hashed (elems sig) with
    | Some err =>
        ret (false, fmt_Errorf ("RSA verification failed: " ++ Error_msg err))
    | None => ret (true, nil_error)
    end
  else if v_alg v =? "rsa-pss-sha512" then
    let hashed := sha512_Sum512 (elems buff) in
    let* p := assert_rsa_PublicKey (v_key v) in
    let* k := deref p in
    match rsa_VerifyPSS k crypto_SHA512 hashed (elems sig) with
    | Some err =>
        ret (false,
             fmt_Errorf ("RSA-PSS verification failed: " ++ Error_msg err))
    | None => ret (true, nil_error)
    end
  else if v_alg v =? "ecdsa-p256-sha256" then
    let hashed := sha256_Sum256 (elems buff) in
    let* p := assert_ecdsa_PublicKey (v_key v) in
    ecdsaVerifyRaw p hashed sig
  else
    ret (false, fmt_Errorf ("verify: unknown algorithm " ++ dquote ++ v_alg v
                              ++ dquote)).

(** ** The operations of the core *)

(** Every function and method of [config.go] and [crypto.go] that works on
    configurations, Signers and Verifiers, with its arguments. *)
Inductive CoreOp :=
| OpNewSignConfig
| OpSignConfig_SignAlg (c : ptr) (b : bool)
| OpSignConfig_SignCreated (c : ptr) (b : bool)
| OpSignConfig_setFakeCreated (c : ptr) (ts : Z)
| OpSignConfig_SetExpires (c : ptr) (e : Z)
| OpSignConfig_SetNonce (c : ptr) (n : string)
| OpSignConfig_SetRequestResponse (c : ptr) (name signature : string)
| OpNewVerifyConfig
| OpVerifyConfig_SetNotNewerThan (v : ptr) (d : Duration)
| OpVerifyConfig_SetNotOlderThan (v : ptr) (d : Duration)
| OpVerifyConfig_SetVerifyCreated (v : ptr) (b : bool)
| OpVerifyConfig_SetRejectExpired (v : ptr) (b : bool)
| OpVerifyConfig_SetAllowedAlgs (v : ptr) (a : slice string)
| OpVerifyConfig_SetRequestResponse (v : ptr) (name signature : string)
| OpVerifyConfig_SetVerifyKeyID (v : ptr) (b : bool)
| OpVerifyConfig_SetVerifyDateWithin (v : ptr) (d : Duration)
| OpNewHMACSHA256Signer (keyID : string) (key : slice byte) (config : ptr)
    (fields : Fields)
| OpNewRSASigner (keyID : string) (key : option rsa_PrivateKey)
    (config : ptr) (fields : Fields)
| OpNewRSAPSSSigner (keyID : string) (key : option rsa_PrivateKey)
    (config : ptr) (fields : Fields)
| OpNewP256Signer (keyID : string) (key : option ecdsa_PrivateKey)
    (config : ptr) (fields : Fields)
| OpNewHMACSHA256Verifier (keyID : string) (key : slice byte) (config : ptr)
    (fields : Fields)
| OpNewRSAVerifier (keyID : string) (key : option rsa_PublicKey)
    (config : ptr) (fields : Fields)
| OpNewRSAPSSVerifier (keyID : string) (key : option rsa_PublicKey)
    (config : ptr) (fields : Fields)
| OpNewP256Verifier (keyID : string) (key : option ecdsa_PublicKey)
    (config : ptr) (fields : Fields)
| Op_sign (s : Signer) (buff : slice byte)
| Op_verify (v : Verifier) (buff sig : slice byte).

(** Run a call for its effect on the store. *)
Definition void {A} (m : M A) : M unit := let* _ := m in ret tt.

Definition exec (op : CoreOp) : M unit :=
  match op with
  | OpNewSignConfig => void NewSignConfig
  | OpSignConfig_SignAlg c b => void (SignConfig_SignAlg c b)
  | OpSignConfig_SignCreated c b => void (SignConfig_SignCreated c b)
  | OpSignConfig_setFakeCreated c ts => void (SignConfig_setFakeCreated c ts)
  | OpSignConfig_SetExpires c e => void (SignConfig_SetExpires c e)
  | OpSignConfig_SetNonce c n => void (SignConfig_SetNonce c n)
  | OpSignConfig_SetRequestResponse c n sg =>
      void (SignConfig_SetRequestResponse c n sg)
  | OpNewVerifyConfig => void NewVerifyConfig
  | OpVerifyConfig_SetNotNewerThan v d =>
      void (VerifyConfig_SetNotNewerThan v d)
  | OpVerifyConfig_SetNotOlderThan v d =>
      void (VerifyConfig_SetNotOlderThan v d)
  | OpVerifyConfig_SetVerifyCreated v b =>
      void (VerifyConfig_SetVerifyCreated v b)
  | OpVerifyConfig_SetRejectExpired v b =>
      void (VerifyConfig_SetRejectExpired v b)
  | OpVerifyConfig_SetAllowedAlgs v a =>
      void (VerifyConfig_SetAllowedAlgs v a)
  | OpVerifyConfig_SetRequestResponse v n sg =>
      void (VerifyConfig_SetRequestResponse v n sg)
  | OpVerifyConfig_SetVerifyKeyID v b =>
      void (VerifyConfig_SetVerifyKeyID v b)
  | OpVerifyConfig_SetVerifyDateWithin v d =>
      void (VerifyConfig_SetVerifyDateWithin v d)
  | OpNewHMACSHA256Signer i k c f => void (NewHMACSHA256Signer i k c f)
  | OpNewRSASigner i k c f => void (NewRSASigner i k c f)
  | OpNewRSAPSSSigner i k c f => void (NewRSAPSSSigner i k c f)
  | OpNewP256Signer i k c f => void (NewP256Signer i k c f)
  | OpNewHMACSHA256Verifier i k c f => void (NewHMACSHA256Verifier i k c f)
  | OpNewRSAVerifier i k c f => void (NewRSAVerifier i k c f)
  | OpNewRSAPSSVerifier i k c f => void (NewRSAPSSVerifier i k c f)
  | OpNewP256Verifier i k c f => void (NewP256Verifier i k c f)
  | Op_sign s buff => void (sign s buff)
  | Op_verify v buff sig => void (verify v buff sig)
  end.

(** The setter methods of the two configuration types. *)
Definition is_config_setter (op : CoreOp) : bool :=
  match op with
  | OpSignConfig_SignAlg _ _ | OpSignConfig_SignCreated _ _
  | OpSignConfig_setFakeCreated _ _ | OpSignConfig_SetExpires _ _
  | OpSignConfig_SetNonce _ _ | OpSignConfig_SetRequestResponse _ _ _
  | OpVerifyConfig_SetNotNewerThan _ _ | OpVerifyConfig_SetNotOlderThan _ _
  | OpVerifyConfig_SetVerifyCreated _ _ | OpVerifyConfig_SetRejectExpired _ _
  | OpVerifyConfig_SetAllowedAlgs _ _
  | OpVerifyConfig_SetRequestResponse _ _ _
  | OpVerifyConfig_SetVerifyKeyID _ _
  | OpVerifyConfig_SetVerifyDateWithin _ _ => true
  | _ => false
  end.

Definition is_sign_or_verify (op : CoreOp) : bool :=
  match op with
  | Op_sign _ _ | Op_verify _ _ _ => true
  | _ => false
  end.

(** A Signer as its user sees it: the struct at an address together with
    the configuration its [config] pointer leads to. *)
Definition Signer_view (w : World) (l : loc)
  : option (Signer * option SignConfig) :=
  match signers w !! l with
  | None => None
  | Some s =>
      match s_config s with
      | None => Some (s, None)
      | Some c =>
          match signConfigs w !! c with
          | Some cfg => Some (s, Some cfg)
          | None => None
          end
      end
  end.

Definition Verifier_view (w : World) (l : loc)
  : option (Verifier * option VerifyConfig) :=
  match verifiers w !! l with
  | None => None
  | Some v =>
      match v_c v with
      | None => Some (v, None)
      | Some c =>
          match verifyConfigs w !! c with
          | Some cfg => Some (v, Some cfg)
          | None => None
          end
      end
  end.

(** The configuration a Signer signs with. *)
Definition config_of_Signer (w : World) (l : loc) : option SignConfig :=
  match Signer_view w l with
  | Some (_, c) => c
  | None => None
  end.

(** Immutability after construction, read on what a Signer or Verifier
    holds, its configuration included: no operation changes the view of an
    existing Signer or Verifier. *)
Definition immutable_after_construction : Prop :=
  forall (op : CoreOp) (w : World) (l : loc),
    (forall x, Signer_view w l = Some x ->
               Signer_view (snd (exec op w)) l = Some x) /\
    (forall x, Verifier_view w l = Some x ->
               Verifier_view (snd (exec op w)) l = Some x).

(** Relations between the store before and after a call. *)

(** Every object that exists is still there, unchanged. *)
Definition objects_kept (w w' : World) : Prop :=
  (forall l x, signConfigs w !! l = Some x -> signConfigs w' !! l = Some x) /\
  (forall l x,
     verifyConfigs w !! l = Some x -> verifyConfigs w' !! l = Some x) /\
  (forall l x, signers w !! l = Some x -> signers w' !! l = Some x) /\
  (forall l x, verifiers w !! l = Some x -> verifiers w' !! l = Some x).

(** No Signer or Verifier struct was written or allocated. *)
Definition structs_same (w w' : World) : Prop :=
  signers w' = signers w /\ verifiers w' = verifiers w.

(** Nothing in the heap changed; only [rand.Reader] may have moved on. *)
Definition heap_same (w w' : World) : Prop :=
  signConfigs w' = signConfigs w /\ verifyConfigs w' = verifyConfigs w /\
  signers w' = signers w /\ verifiers w' = verifiers w.

(** A call relates every store to the store it leaves. *)
Definition preserves {A} (R : World -> World -> Prop) (m : M A) : Prop :=
  forall w, R w (snd (m w)).

(** ** Predicates used in the statements *)

(** The configuration a constructor stores: the caller's pointer itself, or
    a newly allocated default configuration when the caller passed nil. *)
Definition SignConfig_stored (config : ptr) (w w' : World) (p : ptr) : Prop :=
  match config with
  | Some c => p = Some c /\ signConfigs w' = signConfigs w
  | None =>
      exists c, p = Some c /\ signConfigs w !! c = None /\
                signConfigs w' = <[c := default_SignConfig]> (signConfigs w)
  end.

Definition VerifyConfig_stored (config : ptr) (w w' : World) (p : ptr)
  : Prop :=
  match config with
  | Some c => p = Some c /\ verifyConfigs w' = verifyConfigs w
  | None =>
      exists c, p = Some c /\ verifyConfigs w !! c = None /\
                verifyConfigs w' = <[c := default_VerifyConfig]> (verifyConfigs w)
  end.

(** A Verifier constructor returned the Verifier [v] at a new address and
    no error. *)
Definition returns_Verifier (r : outcome (ptr * error) * World) (w : World)
  (v : Verifier) : Prop :=
  exists l w',
    r = (Ok (Some l, nil_error), w') /\
    verifiers w !! l = None /\ verifiers w' !! l = Some v.

Definition returns_Signer (r : outcome (ptr * error) * World) (w : World)
  (s : Signer) : Prop :=
  exists l w',
    r = (Ok (Some l, nil_error), w') /\
    signers w !! l = None /\ signers w' !! l = Some s.

(** A constructor returned no object and an error with this message, and
    left the store alone. *)
Definition returns_error (r : outcome (ptr * error) * World) (w : World)
  (msg : string) : Prop :=
  r = (Ok (None, Some msg), w).

(** The algorithm identifiers the [switch] of [sign] and of [verify] knows. *)
Definition algorithm_identifiers : list string :=
  "hmac-sha256" :: "rsa-v1_5-sha256" :: "rsa-pss-sha512"
    :: "ecdsa-p256-sha256" :: nil.

End Code.

(** * Further definitions for the statements about the whole code *)

Section Invariants.

Context {Fields : Type}.
Context `{GoCrypto}.

Abbreviation M := (@M Fields _).
Abbreviation World := (@World Fields _).
Abbreviation Signer := (@Signer Fields _).
Abbreviation Verifier := (@Verifier Fields _).
Abbreviation CoreOp := (@CoreOp Fields _).

(** The configuration a Verifier verifies with. *)
Definition config_of_Verifier (w : World) (l : loc) : option VerifyConfig :=
  match Verifier_view w l with
  | Some (_, c) => c
  | None => None
  end.

(** A constructor returned a new object, built by [mk] from the
    configuration pointer it stores, and changed nothing else but the
    default configuration it may have allocated. *)
Definition Signer_constructed (r : outcome (ptr * error) * World)
  (w : World) (config : ptr) (mk : ptr -> Signer) : Prop :=
  exists l p w',
    r = (Ok (Some l, nil_error), w') /\
    signers w !! l = None /\
    signers w' = <[l := mk p]> (signers w) /\
    SignConfig_stored config w w' p /\
    verifyConfigs w' = verifyConfigs w /\
    verifiers w' = verifiers w /\ rand_Reader w' = rand_Reader w.

Definition Verifier_constructed (r : outcome (ptr * error) * World)
  (w : World) (config : ptr) (mk : ptr -> Verifier) : Prop :=
  exists l p w',
    r = (Ok (Some l, nil_error), w') /\
    verifiers w !! l = None /\
    verifiers w' = <[l := mk p]> (verifiers w) /\
    VerifyConfig_stored config w w' p /\
    signConfigs w' = signConfigs w /\
    signers w' = signers w /\ rand_Reader w' = rand_Reader w.

(** What the constructors establish: the key has the dynamic type that the
    branch of the algorithm asserts, behind a non-nil pointer; an HMAC key
    has at least 64 bytes; a Signer has a keyID. *)
Definition Signer_wf (s : Signer) : Prop :=
  s_keyID s <> EmptyString /\
  match s_key s with
  | KeyBytes (Some b) => s_alg s = "hmac-sha256" /\ 64 <= len (Some b)
  | KeyRSAPrivate (Some _) =>
      s_alg s = "rsa-v1_5-sha256" \/ s_alg s = "rsa-pss-sha512"
  | KeyECDSAPrivate (Some _) => s_alg s = "ecdsa-p256-sha256"
  | _ => False
  end.

Definition Verifier_wf (v : Verifier) : Prop :=
  match v_key v with
  | KeyBytes (Some b) => v_alg v = "hmac-sha256" /\ 64 <= len (Some b)
  | KeyRSAPublic (Some _) =>
      v_alg v = "rsa-v1_5-sha256" \/ v_alg v = "rsa-pss-sha512"
  | KeyECDSAPublic (Some _) => v_alg v = "ecdsa-p256-sha256"
  | _ => False
  end.

(** Every Signer and Verifier of the store is as the constructors make
    them, and points to a configuration that exists. *)
Definition World_wf (w : World) : Prop :=
  (forall l s, signers w !! l = Some s ->
     Signer_wf s /\
     exists c, s_config s = Some c /\ is_Some (signConfigs w !! c)) /\
  (forall l v, verifiers w !! l = Some v ->
     Verifier_wf v /\
     exists c, v_c v = Some c /\ is_Some (verifyConfigs w !! c)).

(** A pointer a Go program can hold: nil, or the address of an object. *)
Definition valid_SignConfig_ptr (w : World) (p : ptr) : Prop :=
  match p with
  | None => True
  | Some c => is_Some (signConfigs w !! c)
  end.

Definition valid_VerifyConfig_ptr (w : World) (p : ptr) : Prop :=
  match p with
  | None => True
  | Some c => is_Some (verifyConfigs w !! c)
  end.

(** The configuration argument of a constructor call is such a pointer. *)
Definition op_valid (w : World) (op : CoreOp) : Prop :=
  match op with
  | OpNewHMACSHA256Signer _ _ c _ | OpNewRSASigner _ _ c _
  | OpNewRSAPSSSigner _ _ c _ | OpNewP256Signer _ _ c _ =>
      valid_SignConfig_ptr w c
  | OpNewHMACSHA256Verifier _ _ c _ | OpNewRSAVerifier _ _ c _
  | OpNewRSAPSSVerifier _ _ c _ | OpNewP256Verifier _ _ c _ =>
      valid_VerifyConfig_ptr w c
  | _ => True
  end.

Definition heap_empty (w : World) : Prop :=
  signConfigs w = ∅ /\ verifyConfigs w = ∅ /\
  signers w = ∅ /\ verifiers w = ∅.

(** The stores a program reaches from an empty heap by calls of the
    functions of [config.go] and [crypto.go]. *)
Inductive reachable : World -> Prop :=
| reachable_init w : heap_empty w -> reachable w
| reachable_step w op :
    reachable w -> op_valid w op -> reachable (snd (exec op w)).

(** The field a setter writes (numbered per configuration type: 0 to 5
    for SignConfig, 10 to 17 for VerifyConfig) and the pointer it writes
    through. *)
Definition setter_field (op : CoreOp) : option nat :=
  match op with
  | OpSignConfig_SignAlg _ _ => Some 0%nat
  | OpSignConfig_SignCreated _ _ => Some 1%nat
  | OpSignConfig_setFakeCreated _ _ => Some 2%nat
  | OpSignConfig_SetExpires _ _ => Some 3%nat
  | OpSignConfig_SetNonce _ _ => Some 4%nat
  | OpSignConfig_SetRequestResponse _ _ _ => Some 5%nat
  | OpVerifyConfig_SetNotNewerThan _ _ => Some 10%nat
  | OpVerifyConfig_SetNotOlderThan _ _ => Some 11%nat
  | OpVerifyConfig_SetVerifyCreated _ _ => Some 12%nat
  | OpVerifyConfig_SetRejectExpired _ _ => Some 13%nat
  | OpVerifyConfig_SetAllowedAlgs _ _ => Some 14%nat
  | OpVerifyConfig_SetRequestResponse _ _ _ => Some 15%nat
  | OpVerifyConfig_SetVerifyKeyID _ _ => Some 16%nat
  | OpVerifyConfig_SetVerifyDateWithin _ _ => Some 17%nat
  | _ => None
  end.

Definition setter_ptr (op : CoreOp) : ptr :=
  match op with
  | OpSignConfig_SignAlg c _ | OpSignConfig_SignCreated c _
  | OpSignConfig_setFakeCreated c _ | OpSignConfig_SetExpires c _
  | OpSignConfig_SetNonce c _ | OpSignConfig_SetRequestResponse c _ _
  | OpVerifyConfig_SetNotNewerThan c _ | OpVerifyConfig_SetNotOlderThan c _
  | OpVerifyConfig_SetVerifyCreated c _
  | OpVerifyConfig_SetRejectExpired c _ | OpVerifyConfig_SetAllowedAlgs c _
  | OpVerifyConfig_SetRequestResponse c _ _
  | OpVerifyConfig_SetVerifyKeyID c _
  | OpVerifyConfig_SetVerifyDateWithin c _ => c
  | _ => None
  end.

Definition is_SignConfig_setter (op : CoreOp) : bool :=
  match setter_field op with
  | Some f => Nat.ltb f 10
  | None => false
  end.

(** The receiver of a setter call points to a configuration of its type. *)
Definition receiver_allocated (w : World) (op : CoreOp) : Prop :=
  match setter_field op, setter_ptr op with
  | Some f, Some c =>
      if Nat.ltb f 10 then is_Some (signConfigs w !! c)
      else is_Some (verifyConfigs w !! c)
  | _, _ => False
  end.

(** A chain of all the setters of a new configuration, as the builder
    style of the package writes it. *)
Definition SignConfig_chain (a b : bool) (ts e : Z) (n name sg : string)
  : M ptr :=
  let* c := NewSignConfig in
  let* c := SignConfig_SignAlg c a in
  let* c := SignConfig_SignCreated c b in
  let* c := SignConfig_setFakeCreated c ts in
  let* c := SignConfig_SetExpires c e in
  let* c := SignConfig_SetNonce c n in
  SignConfig_SetRequestResponse c name sg.

Definition VerifyConfig_chain (vc : bool) (newer older : Duration)
  (re : bool) (algs : slice string) (name sg : string) (kid : bool)
  (dw : Duration) : M ptr :=
  let* v := NewVerifyConfig in
  let* v := VerifyConfig_SetVerifyCreated v vc in
  let* v := VerifyConfig_SetNotNewerThan v newer in
  let* v := VerifyConfig_SetNotOlderThan v older in
  let* v := VerifyConfig_SetRejectExpired v re in
  let* v := VerifyConfig_SetAllowedAlgs v algs in
  let* v := VerifyConfig_SetRequestResponse v name sg in
  let* v := VerifyConfig_SetVerifyKeyID v kid in
  VerifyConfig_SetVerifyDateWithin v dw.

(** The contract shared by the Signer constructors that take a key by
    pointer: the key is checked first, then the keyID; only then is
    anything allocated. *)
Definition pointer_key_Signer_spec {K : Type}
  (ctor : string -> option K -> ptr -> Fields -> M (ptr * error))
  (box : option K -> Key) (alg : string) : Prop :=
  forall keyID key config fields (w : World),
    match key with
    | None =>
        returns_error (ctor keyID key config fields w) w
          "key must not be nil"
    | Some _ =>
        if keyID =? EmptyString then
          returns_error (ctor keyID key config fields w) w
            "keyID must not be empty"
        else
          Signer_constructed (ctor keyID key config fields w) w config
            (fun p => {| s_keyID := keyID; s_key := box key; s_alg := alg;
                         s_config := p; s_fields := fields |})
    end.

(** The contract of the Verifier constructors that take a key by pointer:
    only the key is checked. *)
Definition pointer_key_Verifier_spec {K : Type}
  (ctor : string -> option K -> ptr -> Fields -> M (ptr * error))
  (box : option K -> Key) (alg : string) : Prop :=
  forall keyID key config fields (w : World),
    match key with
    | None =>
        returns_error (ctor keyID key config fields w) w
          "key must not be nil"
    | Some _ =>
        Verifier_constructed (ctor keyID key config fields w) w config
          (fun p => {| v_keyID := keyID; v_key := box key; v_alg := alg;
                       v_c := p; v_f := fields |})
    end.

(** No Signer or Verifier struct was written or allocated, and every
    configuration that existed still exists. *)
Definition configs_kept_allocated (w w' : World) : Prop :=
  signers w' = signers w /\ verifiers w' = verifiers w /\
  (forall c, is_Some (signConfigs w !! c) -> is_Some (signConfigs w' !! c)) /\
  (forall c,
     is_Some (verifyConfigs w !! c) -> is_Some (verifyConfigs w' !! c)).

Definition is_constructor (op : CoreOp) : bool :=
  match op with
  | OpNewHMACSHA256Signer _ _ _ _ | OpNewRSASigner _ _ _ _
  | OpNewRSAPSSSigner _ _ _ _ | OpNewP256Signer _ _ _ _
  | OpNewHMACSHA256Verifier _ _ _ _ | OpNewRSAVerifier _ _ _ _
  | OpNewRSAPSSVerifier _ _ _ _ | OpNewP256Verifier _ _ _ _ => true
  | _ => false
  end.

(** The assignment a setter makes, as a function on the struct it writes;
    [exec_setter] below shows that this is what the setter does. *)
Inductive config_write :=
| WriteSign (f : SignConfig -> SignConfig)
| WriteVerify (f : VerifyConfig -> VerifyConfig).

Definition run_write (p : ptr) (wr : config_write) : M unit :=
  match wr with
  | WriteSign f => update_SignConfig p f
  | WriteVerify f => update_VerifyConfig p f
  end.

Definition setter_write (op : CoreOp) : option config_write :=
  match op with
  | OpSignConfig_SignAlg _ b => Some (WriteSign (fun x =>
      {| signAlg := b; signCreated := signCreated x;
         fakeCreated := fakeCreated x; expires := expires x;
         nonce := nonce x; sc_requestResponse := sc_requestResponse x |}))
  | OpSignConfig_SignCreated _ b => Some (WriteSign (fun x =>
      {| signAlg := signAlg x; signCreated := b;
         fakeCreated := fakeCreated x; expires := expires x;
         nonce := nonce x; sc_requestResponse := sc_requestResponse x |}))
  | OpSignConfig_setFakeCreated _ ts => Some (WriteSign (fun x =>
      {| signAlg := signAlg x; signCreated := signCreated x;
         fakeCreated := ts; expires := expires x;
         nonce := nonce x; sc_requestResponse := sc_requestResponse x |}))
  | OpSignConfig_SetExpires _ e => Some (WriteSign (fun x =>
      {| signAlg := signAlg x; signCreated := signCreated x;
         fakeCreated := fakeCreated x; expires := e;
         nonce := nonce x; sc_requestResponse := sc_requestResponse x |}))
  | OpSignConfig_SetNonce _ n => Some (WriteSign (fun x =>
      {| signAlg := signAlg x; signCreated := signCreated x;
         fakeCreated := fakeCreated x; expires := expires x;
         nonce := n; sc_requestResponse := sc_requestResponse x |}))
  | OpSignConfig_SetRequestResponse _ name sg => Some (WriteSign (fun x =>
      {| signAlg := signAlg x; signCreated := signCreated x;
         fakeCreated := fakeCreated x; expires := expires x;
         nonce := nonce x;
         sc_requestResponse :=
           Some {| rr_name := name; rr_signature := sg |} |}))
  | OpVerifyConfig_SetNotNewerThan _ d => Some (WriteVerify (fun x =>
      {| verifyCreated := verifyCreated x; notNewerThan := d;
         notOlderThan := notOlderThan x; allowedAlgs := allowedAlgs x;
         rejectExpired := rejectExpired x;
         vc_requestResponse := vc_requestResponse x;
         verifyKeyID := verifyKeyID x; dateWithin := dateWithin x |}))
  | OpVerifyConfig_SetNotOlderThan _ d => Some (WriteVerify (fun x =>
      {| verifyCreated := verifyCreated x; notNewerThan := notNewerThan x;
         notOlderThan := d; allowedAlgs := allowedAlgs x;
         rejectExpired := rejectExpired x;
         vc_requestResponse := vc_requestResponse x;
         verifyKeyID := verifyKeyID x; dateWithin := dateWithin x |}))
  | OpVerifyConfig_SetVerifyCreated _ b => Some (WriteVerify (fun x =>
      {| verifyCreated := b; notNewerThan := notNewerThan x;
         notOlderThan := notOlderThan x; allowedAlgs := allowedAlgs x;
         rejectExpired := rejectExpired x;
         vc_requestResponse := vc_requestResponse x;
         verifyKeyID := verifyKeyID x; dateWithin := dateWithin x |}))
  | OpVerifyConfig_SetRejectExpired _ b => Some (WriteVerify (fun x =>
      {| verifyCreated := verifyCreated x; notNewerThan := notNewerThan x;
         notOlderThan := notOlderThan x; allowedAlgs := allowedAlgs x;
         rejectExpired := b;
         vc_requestResponse := vc_requestResponse x;
         verifyKeyID := verifyKeyID x; dateWithin := dateWithin x |}))
  | OpVerifyConfig_SetAllowedAlgs _ a => Some (WriteVerify (fun x =>
      {| verifyCreated := verifyCreated x; notNewerThan := notNewerThan x;
         notOlderThan := notOlderThan x; allowedAlgs := a;
         rejectExpired := rejectExpired x;
         vc_requestResponse := vc_requestResponse x;
         verifyKeyID := verifyKeyID x; dateWithin := dateWithin x |}))
  | OpVerifyConfig_SetRequestResponse _ name sg => Some (WriteVerify (fun x =>
      {| verifyCreated := verifyCreated x; notNewerThan := notNewerThan x;
         notOlderThan := notOlderThan x; allowedAlgs := allowedAlgs x;
         rejectExpired := rejectExpired x;
         vc_requestResponse :=
           Some {| rr_name := name; rr_signature := sg |};
         verifyKeyID := verifyKeyID x; dateWithin := dateWithin x |}))
  | OpVerifyConfig_SetVerifyKeyID _ b => Some (WriteVerify (fun x =>
      {| verifyCreated := verifyCreated x; notNewerThan := notNewerThan x;
         notOlderThan := notOlderThan x; allowedAlgs := allowedAlgs x;
         rejectExpired := rejectExpired x;
         vc_requestResponse := vc_requestResponse x;
         verifyKeyID := b; dateWithin := dateWithin x |}))
  | OpVerifyConfig_SetVerifyDateWithin _ d => Some (WriteVerify (fun x =>
      {| verifyCreated := verifyCreated x; notNewerThan := notNewerThan x;
         notOlderThan := notOlderThan x; allowedAlgs := allowedAlgs x;
         rejectExpired := rejectExpired x;
         vc_requestResponse := vc_requestResponse x;
         verifyKeyID := verifyKeyID x; dateWithin := d |}))
  | _ => None
  end.

(** A Signer constructor returned a Signer whose configuration is a new
    default one that no other Signer of the store points to. *)
Definition Signer_with_private_default
  (r : outcome (ptr * error) * World) : Prop :=
  exists l s c w',
    r = (Ok (Some l, nil_error), w') /\
    signers w' !! l = Some s /\ s_config s = Some c /\
    signConfigs w' !! c = Some default_SignConfig /\
    forall l' s', l' <> l -> signers w' !! l' = Some s' ->
                  s_config s' <> Some c.

End Invariants.

(** * config.go: the handler configuration, and the older Config type *)

(** [type Config struct], the configuration type with value receivers that
    [SignConfig] replaced; its [requestResponse] is a struct, not a
    pointer. *)
Record Config := {
  c_signAlg : bool;
  c_signCreated : bool;
  c_fakeCreated : Z;
  c_requestResponse : requestResponse;
}.

(** [func NewConfig() Config]: the fields not listed have their zero
    value. *)
Definition NewConfig : Config := {|
  c_signAlg := true;
  c_signCreated := true;
  c_fakeCreated := 0;
  c_requestResponse :=
    {| rr_name := EmptyString; rr_signature := EmptyString |};
|}.

(** The methods have value receivers: they change their copy of the struct
    and return it. *)
Definition Config_SignAlg (c : Config) (b : bool) : Config :=
  {| c_signAlg := b; c_signCreated := c_signCreated c;
     c_fakeCreated := c_fakeCreated c;
     c_requestResponse := c_requestResponse c |}.

Definition Config_SignCreated (c : Config) (b : bool) : Config :=
  {| c_signAlg := c_signAlg c; c_signCreated := b;
     c_fakeCreated := c_fakeCreated c;
     c_requestResponse := c_requestResponse c |}.

Definition Config_setFakeCreated (c : Config) (ts : Z) : Config :=
  {| c_signAlg := c_signAlg c; c_signCreated := c_signCreated c;
     c_fakeCreated := ts;
     c_requestResponse := c_requestResponse c |}.

Definition Config_SetRequestResponse (c : Config) (name signature : string)
  : Config :=
  {| c_signAlg := c_signAlg c; c_signCreated := c_signCreated c;
     c_fakeCreated := c_fakeCreated c;
     c_requestResponse :=
       {| rr_name := name; rr_signature := signature |} |}.

(** A call of a [Config] method, for sequences of calls. *)
Inductive ConfigCall :=
| CallSignAlg (b : bool)
| CallSignCreated (b : bool)
| CallsetFakeCreated (ts : Z)
| CallSetRequestResponse (name signature : string).

Definition Config_call (c : Config) (m : ConfigCall) : Config :=
  match m with
  | CallSignAlg b => Config_SignAlg c b
  | CallSignCreated b => Config_SignCreated c b
  | CallsetFakeCreated ts => Config_setFakeCreated c ts
  | CallSetRequestResponse n sg => Config_SetRequestResponse c n sg
  end.

Definition sets_requestResponse (m : ConfigCall) : bool :=
  match m with
  | CallSetRequestResponse _ _ => true
  | _ => false
  end.

(** The value a call gives to a field, if it writes that field. *)
Definition writes_signAlg (m : ConfigCall) : option bool :=
  match m with CallSignAlg b => Some b | _ => None end.

Definition writes_signCreated (m : ConfigCall) : option bool :=
  match m with CallSignCreated b => Some b | _ => None end.

Definition writes_fakeCreated (m : ConfigCall) : option Z :=
  match m with CallsetFakeCreated ts => Some ts | _ => None end.

Definition writes_requestResponse (m : ConfigCall) : option requestResponse :=
  match m with
  | CallSetRequestResponse n sg =>
      Some {| rr_name := n; rr_signature := sg |}
  | _ => None
  end.

(** The last value a sequence of calls writes to a field, or the value
    [d] it had when no call writes it. *)
Definition last_written {A} (pick : ConfigCall -> option A)
  (ms : list ConfigCall) (d : A) : A :=
  fold_left (fun acc m => match pick m with Some x => x | None => acc end)
    ms d.

Section Handler.

(** [http.Request] and [http.Response]. *)
Context {Request Response : Type}.

(** What a handler does to the outside: the calls on its
    [http.ResponseWriter], in order, and the lines it gives to the
    standard logger. *)
Inductive http_event :=
| EvWriteHeader (code : Z)
| EvWrite (data : string)
| EvLog (line : string).

Definition http_StatusUnauthorized : Z := 401.

(** [fmt.Fprintln] ends its text with a line feed. *)
Definition Fprintln_text (x : string) : string :=
  x ++ String (ascii_of_nat 10) EmptyString.

(** [func defaultReqNotVerified(w http.ResponseWriter, _ *http.Request,
    err error)] *)
Definition defaultReqNotVerified (r : Request) (err : error)
  : list http_event :=
  EvWriteHeader http_StatusUnauthorized ::
  match err with
  | None => EvWrite "Unknown error" :: nil
  | Some e =>
      EvLog ("Could not verify request signature: " ++ Error_msg e)
        :: EvWrite (Fprintln_text "Could not verify request signature")
        :: nil
  end.

(** The part of the events that reaches the client, and the part that
    goes to the log. *)
Definition is_log (ev : http_event) : bool :=
  match ev with
  | EvLog _ => true
  | _ => false
  end.

Definition to_client (evs : list http_event) : list http_event :=
  List.filter (fun ev => negb (is_log ev)) evs.

Definition to_log (evs : list http_event) : list http_event :=
  List.filter is_log evs.

(** [type HandlerConfig struct]: three function values, each possibly
    nil. *)
Record HandlerConfig := {
  reqNotVerified : option (Request -> error -> list http_event);
  fetchVerifier : option (Request -> string * ptr);
  fetchSigner : option (Response -> Request -> string * ptr);
}.

(** Handler configurations are heap objects too; they refer to nothing
    else of the store. *)
Definition HM (A : Type) : Type :=
  gmap positive HandlerConfig -> outcome A * gmap positive HandlerConfig.

(** [func NewHandlerConfig() *HandlerConfig] *)
Definition NewHandlerConfig : HM ptr :=
  fun h =>
    let l := fresh (dom h) in
    (Ok (Some l),
     <[l := {| reqNotVerified := Some defaultReqNotVerified;
               fetchVerifier := None; fetchSigner := None |}]> h).

Definition update_HandlerConfig (p : ptr)
  (f : HandlerConfig -> HandlerConfig) : HM ptr :=
  fun h =>
    match p with
    | None => (Panic nil_dereference, h)
    | Some l =>
        match h !! l with
        | Some c => (Ok p, <[l := f c]> h)
        | None => (Panic nil_dereference, h)
        end
    end.

(** [func (h *HandlerConfig) SetReqNotVerified(f ...) *HandlerConfig] *)
Definition SetReqNotVerified (p : ptr)
  (f : option (Request -> error -> list http_event)) : HM ptr :=
  update_HandlerConfig p (fun c =>
    {| reqNotVerified := f; fetchVerifier := fetchVerifier c;
       fetchSigner := fetchSigner c |}).

(** [func (h *HandlerConfig) SetFetchVerifier(f ...) *HandlerConfig] *)
Definition SetFetchVerifier (p : ptr)
  (f : option (Request -> string * ptr)) : HM ptr :=
  update_HandlerConfig p (fun c =>
    {| reqNotVerified := reqNotVerified c; fetchVerifier := f;
       fetchSigner := fetchSigner c |}).

(** [func (h *HandlerConfig) SetFetchSigner(f ...) *HandlerConfig] *)
Definition SetFetchSigner (p : ptr)
  (f : option (Response -> Request -> string * ptr)) : HM ptr :=
  update_HandlerConfig p (fun c =>
    {| reqNotVerified := reqNotVerified c; fetchVerifier := fetchVerifier c;
       fetchSigner := f |}).

(** A call of one of the two fetch setters, for sequences of calls. *)
Inductive FetchCall :=
| CallSetFetchVerifier (f : option (Request -> string * ptr))
| CallSetFetchSigner (f : option (Response -> Request -> string * ptr)).

Definition fetch_call (p : ptr) (m : FetchCall) : HM ptr :=
  match m with
  | CallSetFetchVerifier f => SetFetchVerifier p f
  | CallSetFetchSigner f => SetFetchSigner p f
  end.

(** The calls one after the other on the same receiver, from the store
    [h]; the store they leave. *)
Fixpoint fetch_calls (p : ptr) (ms : list FetchCall)
  (h : gmap positive HandlerConfig) : gmap positive HandlerConfig :=
  match ms with
  | nil => h
  | m :: ms' => fetch_calls p ms' (snd (fetch_call p m h))
  end.

End Handler.

(** * An instance to run the code on

    SHA-256, SHA-512 and HMAC-SHA256 are the functions of FIPS 180-4 and
    RFC 2104, so that examples compute the values the Go program computes.
    RSA and ECDSA are stood in for by the schoolbook schemes over small
    numbers: they have the interface and the accept/reject behaviour of the
    library calls, not their key sizes or encodings. *)

Module SHA2.

(** The parameters that tell SHA-256 from SHA-512. *)
Record params := {
  wbits : Z;                      (* word size in bits *)
  len_bytes : nat;                (* bytes of the length field of the padding *)
  K : list Z;                     (* round constants *)
  H0 : list Z;                    (* initial hash value *)
  Sigma0 : Z * Z * Z;             (* rotations of the big sigma functions *)
  Sigma1 : Z * Z * Z;
  sigma0 : Z * Z * Z;             (* two rotations and one shift *)
  sigma1 : Z * Z * Z;
}.

Definition sha256_params : params := {|
  wbits := 32;
  len_bytes := 8;
  K :=
      0x428a2f98 :: 0x71374491 :: 0xb5c0fbcf :: 0xe9b5dba5 ::
      0x3956c25b :: 0x59f111f1 :: 0x923f82a4 :: 0xab1c5ed5 ::
      0xd807aa98 :: 0x12835b01 :: 0x243185be :: 0x550c7dc3 ::
      0x72be5d74 :: 0x80deb1fe :: 0x9bdc06a7 :: 0xc19bf174 ::
      0xe49b69c1 :: 0xefbe4786 :: 0x0fc19dc6 :: 0x240ca1cc ::
      0x2de92c6f :: 0x4a7484aa :: 0x5cb0a9dc :: 0x76f988da ::
      0x983e5152 :: 0xa831c66d :: 0xb00327c8 :: 0xbf597fc7 ::
      0xc6e00bf3 :: 0xd5a79147 :: 0x06ca6351 :: 0x14292967 ::
      0x27b70a85 :: 0x2e1b2138 :: 0x4d2c6dfc :: 0x53380d13 ::
      0x650a7354 :: 0x766a0abb :: 0x81c2c92e :: 0x92722c85 ::
      0xa2bfe8a1 :: 0xa81a664b :: 0xc24b8b70 :: 0xc76c51a3 ::
      0xd192e819 :: 0xd6990624 :: 0xf40e3585 :: 0x106aa070 ::
      0x19a4c116 :: 0x1e376c08 :: 0x2748774c :: 0x34b0bcb5 ::
      0x391c0cb3 :: 0x4ed8aa4a :: 0x5b9cca4f :: 0x682e6ff3 ::
      0x748f82ee :: 0x78a5636f :: 0x84c87814 :: 0x8cc70208 ::
      0x90befffa :: 0xa4506ceb :: 0xbef9a3f7 :: 0xc67178f2 ::
      nil;
  H0 :=
      0x6a09e667 :: 0xbb67ae85 :: 0x3c6ef372 :: 0xa54ff53a ::
      0x510e527f :: 0x9b05688c :: 0x1f83d9ab :: 0x5be0cd19 ::
      nil;
  Sigma0 := (2, 13, 22);
  Sigma1 := (6, 11, 25);
  sigma0 := (7, 18, 3);
  sigma1 := (17, 19, 10);
|}.

Definition sha512_params : params := {|
  wbits := 64;
  len_bytes := 16;
  K :=
      0x428a2f98d728ae22 :: 0x7137449123ef65cd :: 0xb5c0fbcfec4d3b2f ::
      0xe9b5dba58189dbbc :: 0x3956c25bf348b538 :: 0x59f111f1b605d019 ::
      0x923f82a4af194f9b :: 0xab1c5ed5da6d8118 :: 0xd807aa98a3030242 ::
      0x12835b0145706fbe :: 0x243185be4ee4b28c :: 0x550c7dc3d5ffb4e2 ::
      0x72be5d74f27b896f :: 0x80deb1fe3b1696b1 :: 0x9bdc06a725c71235 ::
      0xc19bf174cf692694 :: 0xe49b69c19ef14ad2 :: 0xefbe4786384f25e3 ::
      0x0fc19dc68b8cd5b5 :: 0x240ca1cc77ac9c65 :: 0x2de92c6f592b0275 ::
      0x4a7484aa6ea6e483 :: 0x5cb0a9dcbd41fbd4 :: 0x76f988da831153b5 ::
      0x983e5152ee66dfab :: 0xa831c66d2db43210 :: 0xb00327c898fb213f ::
      0xbf597fc7beef0ee4 :: 0xc6e00bf33da88fc2 :: 0xd5a79147930aa725 ::
      0x06ca6351e003826f :: 0x142929670a0e6e70 :: 0x27b70a8546d22ffc ::
      0x2e1b21385c26c926 :: 0x4d2c6dfc5ac42aed :: 0x53380d139d95b3df ::
      0x650a73548baf63de :: 0x766a0abb3c77b2a8 :: 0x81c2c92e47edaee6 ::
      0x92722c851482353b :: 0xa2bfe8a14cf10364 :: 0xa81a664bbc423001 ::
      0xc24b8b70d0f89791 :: 0xc76c51a30654be30 :: 0xd192e819d6ef5218 ::
      0xd69906245565a910 :: 0xf40e35855771202a :: 0x106aa07032bbd1b8 ::
      0x19a4c116b8d2d0c8 :: 0x1e376c085141ab53 :: 0x2748774cdf8eeb99 ::
      0x34b0bcb5e19b48a8 :: 0x391c0cb3c5c95a63 :: 0x4ed8aa4ae3418acb ::
      0x5b9cca4f7763e373 :: 0x682e6ff3d6b2b8a3 :: 0x748f82ee5defb2fc ::
      0x78a5636f43172f60 :: 0x84c87814a1f0ab72 :: 0x8cc702081a6439ec ::
      0x90befffa23631e28 :: 0xa4506cebde82bde9 :: 0xbef9a3f7b2c67915 ::
      0xc67178f2e372532b :: 0xca273eceea26619c :: 0xd186b8c721c0c207 ::
      0xeada7dd6cde0eb1e :: 0xf57d4f7fee6ed178 :: 0x06f067aa72176fba ::
      0x0a637dc5a2c898a6 :: 0x113f9804bef90dae :: 0x1b710b35131c471b ::
      0x28db77f523047d84 :: 0x32caab7b40c72493 :: 0x3c9ebe0a15c9bebc ::
      0x431d67c49c100d4c :: 0x4cc5d4becb3e42b6 :: 0x597f299cfc657e2a ::
      0x5fcb6fab3ad6faec :: 0x6c44198c4a475817 ::
      nil;
  H0 :=
      0x6a09e667f3bcc908 :: 0xbb67ae8584caa73b :: 0x3c6ef372fe94f82b ::
      0xa54ff53a5f1d36f1 :: 0x510e527fade682d1 :: 0x9b05688c2b3e6c1f ::
      0x1f83d9abfb41bd6b :: 0x5be0cd19137e2179 ::
      nil;
  Sigma0 := (28, 34, 39);
  Sigma1 := (14, 18, 41);
  sigma0 := (1, 8, 7);
  sigma1 := (19, 61, 6);
|}.

Section Hash.

Variable P : params.

Definition wrap (x : Z) : Z := x mod 2 ^ wbits P.

Definition rotr (n x : Z) : Z :=
  wrap (Z.lor (Z.shiftr x n) (Z.shiftl x (wbits P - n))).

Definition Ch (x y z : Z) : Z :=
  Z.lxor (Z.land x y) (Z.land (wrap (Z.lnot x)) z).

Definition Maj (x y z : Z) : Z :=
  Z.lxor (Z.lxor (Z.land x y) (Z.land x z)) (Z.land y z).

Definition big_sigma (r : Z * Z * Z) (x : Z) : Z :=
  let '(a, b, c) := r in Z.lxor (Z.lxor (rotr a x) (rotr b x)) (rotr c x).

Definition small_sigma (r : Z * Z * Z) (x : Z) : Z :=
  let '(a, b, c) := r in
  Z.lxor (Z.lxor (rotr a x) (rotr b x)) (Z.shiftr x c).

(** Words per block: 16; bytes per word and per block. *)
Definition word_bytes : nat := Z.to_nat (wbits P / 8).
Definition block_bytes : nat := (16 * word_bytes)%nat.

(** Padding: the byte 0x80, zero bytes, and the bit length of the message,
    up to a whole number of blocks. *)
Definition pad (msg : list Z) : list Z :=
  let n := length msg in
  let used := ((n + 1 + len_bytes P) mod block_bytes)%nat in
  let zeros := ((block_bytes - used) mod block_bytes)%nat in
  (msg ++ 128 :: repeat 0 zeros
     ++ map Z_of_byte (be_bytes (len_bytes P) (8 * Z.of_nat n)))%list.

(** Big-endian words from bytes. *)
Fixpoint word_of (n : nat) (acc : Z) (l : list Z) : Z * list Z :=
  match n with
  | O => (acc, l)
  | S n' =>
      match l with
      | nil => (acc, nil)
      | b :: l' => word_of n' (acc * 256 + b) l'
      end
  end.

Fixpoint words_of (count : nat) (l : list Z) : list Z * list Z :=
  match count with
  | O => (nil, l)
  | S c =>
      let (w, l') := word_of word_bytes 0 l in
      let (ws, rest) := words_of c l' in
      (w :: ws, rest)
  end.

(** The message schedule, newest word first while it is extended. *)
Fixpoint extend (n : nat) (ws : list Z) : list Z :=
  match n with
  | O => ws
  | S n' =>
      let w := wrap (small_sigma (sigma1 P) (nth 1 ws 0) + nth 6 ws 0
                     + small_sigma (sigma0 P) (nth 14 ws 0) + nth 15 ws 0) in
      extend n' (w :: ws)
  end.

Definition schedule (block : list Z) : list Z :=
  rev (extend (length (K P) - 16) (rev block)).

Definition round (st : list Z) (kw : Z * Z) : list Z :=
  match st with
  | a :: b :: c :: d :: e :: f :: g :: h :: nil =>
      let t1 := h + big_sigma (Sigma1 P) e + Ch e f g + fst kw + snd kw in
      let t2 := big_sigma (Sigma0 P) a + Maj a b c in
      wrap (t1 + t2) :: a :: b :: c :: wrap (d + t1) :: e :: f :: g :: nil
  | _ => st
  end.

Definition compress (h : list Z) (block : list Z) : list Z :=
  let st := fold_left round (combine (K P) (schedule block)) h in
  map (fun p => wrap (fst p + snd p)) (combine h st).

Fixpoint blocks (count : nat) (h : list Z) (l : list Z) : list Z :=
  match count with
  | O => h
  | S c =>
      let (block, rest) := words_of 16 l in
      blocks c (compress h block) rest
  end.

Definition digest (msg : list byte) : list byte :=
  let padded := pad (map Z_of_byte msg) in
  let h := blocks (length padded / block_bytes) (H0 P) padded in
  flat_map (be_bytes word_bytes) h.

End Hash.

Definition sha256 : list byte -> list byte := digest sha256_params.
Definition sha512 : list byte -> list byte := digest sha512_params.

(** HMAC (RFC 2104) with SHA-256: block size 64 bytes. *)
Definition xor_pad (c : Z) (key : list byte) : list byte :=
  map (fun b => byte_of_Z (Z.lxor (Z_of_byte b) c)) key.

Definition hmac_key (key : list byte) : list byte :=
  let k := if (64 <? Z.of_nat (length key))%Z then sha256 key else key in
  (k ++ repeat Byte.x00 (64 - length k))%list.

Definition hmac_sha256 (key msg : list byte) : list byte :=
  let k := hmac_key key in
  sha256 (xor_pad 0x5c k ++ sha256 (xor_pad 0x36 k ++ msg))%list.

End SHA2.

Module Small.

(** Modular exponentiation by squaring. *)
Fixpoint pow_mod_pos (b : Z) (e : positive) (m : Z) : Z :=
  match e with
  | xH => b mod m
  | xO e' => let r := pow_mod_pos b e' m in (r * r) mod m
  | xI e' => let r := pow_mod_pos b e' m in (r * r * b) mod m
  end.

Definition pow_mod (b e m : Z) : Z :=
  match e with
  | Z0 => 1 mod m
  | Zpos p => pow_mod_pos b p m
  | Zneg _ => 0
  end.

(** The random source: a linear congruential generator. *)
Definition next (e : Z) : Z := (e * 1103515245 + 12345) mod 2 ^ 31.

(** Schoolbook RSA on the digest taken modulo n; signatures are 2 bytes. *)
Record rsa_public := { rsa_n : Z; rsa_e : Z }.
Record rsa_private := { rsa_pub : rsa_public; rsa_d : Z }.

Definition rsa_sign (k : rsa_private) (hashed : list byte) : list byte :=
  let n := rsa_n (rsa_pub k) in
  be_bytes 2 (pow_mod (be_decode hashed mod n) (rsa_d k) n).

Definition rsa_verify (k : rsa_public) (hashed sig : list byte)
  : option string :=
  if (Nat.eqb (length sig) 2
      && (pow_mod (be_decode sig) (rsa_e k) (rsa_n k)
          =? be_decode hashed mod rsa_n k)%Z)%bool
  then None
  else Some "crypto/rsa: verification error".

(** DSA in the subgroup of order 101 of the integers modulo 607, in the
    place of ECDSA on P-256. *)
Definition dsa_p : Z := 607.
Definition dsa_q : Z := 101.
Definition dsa_g : Z := 64.

Definition inv_q (x : Z) : Z := pow_mod x (dsa_q - 2) dsa_q.

Fixpoint dsa_sign (fuel : nat) (e : Z) (x : Z) (hashed : list byte)
  : (Z * Z + string) * Z :=
  match fuel with
  | O => (inr "no signature found", e)
  | S fuel' =>
      let k := 1 + e mod (dsa_q - 1) in
      let r := pow_mod dsa_g k dsa_p mod dsa_q in
      let s := (inv_q k * (be_decode hashed + x * r)) mod dsa_q in
      if ((r =? 0) || (s =? 0))%Z then dsa_sign fuel' (next e) x hashed
      else (inl (r, s), next e)
  end.

Definition dsa_verify (y : Z) (hashed : list byte) (r s : Z) : bool :=
  if ((0 <? r) && (r <? dsa_q) && (0 <? s) && (s <? dsa_q))%Z then
    let w := inv_q s in
    let u1 := (be_decode hashed * w) mod dsa_q in
    let u2 := (r * w) mod dsa_q in
    ((pow_mod dsa_g u1 dsa_p * pow_mod y u2 dsa_p) mod dsa_p mod dsa_q
     =? r)%Z
  else false.

End Small.

Definition small_crypto : GoCrypto := {|
  rsa_PrivateKey := Small.rsa_private;
  rsa_PublicKey := Small.rsa_public;
  ecdsa_PrivateKey := Z;
  ecdsa_PublicKey := Z;
  Entropy := Z;
  hmac_sha256 := SHA2.hmac_sha256;
  sha256_Sum256 := SHA2.sha256;
  sha512_Sum512 := SHA2.sha512;
  rsa_SignPKCS1v15 := fun k _ hashed => inl (Small.rsa_sign k hashed);
  rsa_SignPSS := fun e k _ hashed =>
    (inl (Small.rsa_sign k hashed), Small.next e);
  rsa_VerifyPKCS1v15 := fun k _ hashed sig => Small.rsa_verify k hashed sig;
  rsa_VerifyPSS := fun k _ hashed sig => Small.rsa_verify k hashed sig;
  ecdsa_Sign := fun e x hashed => Small.dsa_sign 200 e x hashed;
  ecdsa_Verify := Small.dsa_verify;
|}.

(** The store before anything is allocated. *)
Definition empty_World : @World (list string) small_crypto := {|
  signConfigs := ∅;
  verifyConfigs := ∅;
  signers := ∅;
  verifiers := ∅;
  rand_Reader := 2024 : @Entropy small_crypto;
|}.

(** Keys and messages of the examples. *)
Definition key_A : list byte := repeat Byte.x01 64.
Definition key_B : list byte := repeat Byte.x02 64.
Definition message : list byte := list_byte_of_string "hello".
Definition rsa_key : @rsa_PrivateKey small_crypto :=
  {| Small.rsa_pub := {| Small.rsa_n := 3233; Small.rsa_e := 17 |};
     Small.rsa_d := 2753 |}.
Definition rsa_public_key : @rsa_PublicKey small_crypto :=
  Small.rsa_pub rsa_key.
Definition dsa_key : @ecdsa_PrivateKey small_crypto := 57.
Definition dsa_public : @ecdsa_PublicKey small_crypto :=
  Small.pow_mod Small.dsa_g dsa_key Small.dsa_p.

(** The signature base of scenario S1 of the specification: the line of
    the method and the line of the signature parameters. *)
Definition newline : string := String (ascii_of_nat 10) EmptyString.

Definition quoted (x : string) : string := dquote ++ x ++ dquote.

Definition S1_base : list byte :=
  list_byte_of_string
    (quoted "@method" ++ ": GET" ++ newline
     ++ quoted "@signature-params" ++ ": (" ++ quoted "@method"
     ++ ");created=1618884475;keyid=" ++ quoted "key1"
     ++ ";alg=" ++ quoted "hmac-sha256").

Definition fields_method : list string := "@method" :: nil.

Definition signer_A : @Signer (list string) small_crypto :=
  {| s_keyID := "key1"; s_key := KeyBytes (Some key_A);
     s_alg := "hmac-sha256"; s_config := None; s_fields := fields_method |}.

Definition verifier_A : @Verifier (list string) small_crypto :=
  {| v_keyID := "key1"; v_key := KeyBytes (Some key_A);
     v_alg := "hmac-sha256"; v_c := None; v_f := fields_method |}.

Definition verifier_B : @Verifier (list string) small_crypto :=
  {| v_keyID := "key1"; v_key := KeyBytes (Some key_B);
     v_alg := "hmac-sha256"; v_c := None; v_f := fields_method |}.

(** An algorithm of RFC 9421 that this package does not implement. *)
Definition signer_ed25519 : @Signer (list string) small_crypto :=
  {| s_keyID := "key1"; s_key := KeyBytes (Some key_A);
     s_alg := "ed25519"; s_config := None; s_fields := fields_method |}.

Definition verifier_ed25519 : @Verifier (list string) small_crypto :=
  {| v_keyID := "key1"; v_key := KeyBytes (Some key_A);
     v_alg := "ed25519"; v_c := None; v_f := fields_method |}.

Definition verifier_rsa : @Verifier (list string) small_crypto :=
  {| v_keyID := "key1"; v_key := KeyRSAPublic (Some rsa_public_key);
     v_alg := "rsa-v1_5-sha256"; v_c := None; v_f := fields_method |}.

Definition signer_p256 : @Signer (list string) small_crypto :=
  {| s_keyID := "key1"; s_key := KeyECDSAPrivate (Some dsa_key);
     s_alg := "ecdsa-p256-sha256"; s_config := None;
     s_fields := fields_method |}.

Definition verifier_p256 : @Verifier (list string) small_crypto :=
  {| v_keyID := "key1"; v_key := KeyECDSAPublic (Some dsa_public);
     v_alg := "ecdsa-p256-sha256"; v_c := None; v_f := fields_method |}.

(** The caller makes a configuration, builds a Signer with it and keeps
    the pointer: the store after
    [c := NewSignConfig(); NewHMACSHA256Signer("key1", key, c, fields)]. *)
Definition world_with_signer : @World (list string) small_crypto :=
  snd ((let* c := NewSignConfig in
        NewHMACSHA256Signer "key1" (Some key_A) c fields_method)
         empty_World).

(** Further values for the examples: the store after
    [c := NewSignConfig(); NewHMACSHA256Signer("key1", key, c, fields)] as
    two calls, the Signer it holds, the store after a Verifier constructor
    called with a nil configuration, and objects whose key does not fit
    their algorithm. *)
Definition reached_world : @World (list string) small_crypto :=
  snd (exec (OpNewHMACSHA256Signer "key1" (Some key_A) (Some 1%positive)
               fields_method)
         (snd (exec OpNewSignConfig empty_World))).

Definition signer_built : @Signer (list string) small_crypto :=
  {| s_keyID := "key1"; s_key := KeyBytes (Some key_A);
     s_alg := "hmac-sha256"; s_config := Some 1%positive;
     s_fields := fields_method |}.

Definition reached_world_v : @World (list string) small_crypto :=
  snd (exec (OpNewHMACSHA256Verifier "key1" (Some key_A) None fields_method)
         empty_World).

Definition verifier_built : @Verifier (list string) small_crypto :=
  {| v_keyID := "key1"; v_key := KeyBytes (Some key_A);
     v_alg := "hmac-sha256"; v_c := Some 1%positive; v_f := fields_method |}.

Definition signer_rsa : @Signer (list string) small_crypto :=
  {| s_keyID := "key1"; s_key := KeyRSAPrivate (Some rsa_key);
     s_alg := "rsa-v1_5-sha256"; s_config := None;
     s_fields := fields_method |}.

Definition signer_mismatched : @Signer (list string) small_crypto :=
  {| s_keyID := "key1"; s_key := KeyRSAPrivate (Some rsa_key);
     s_alg := "hmac-sha256"; s_config := None; s_fields := fields_method |}.

Definition verifier_mismatched : @Verifier (list string) small_crypto :=
  {| v_keyID := "key1"; v_key := KeyBytes (Some key_A);
     v_alg := "rsa-pss-sha512"; v_c := None; v_f := fields_method |}.

(** A store of handler configurations with one new configuration, for
    requests and responses that carry nothing. *)
Definition handler_store : gmap positive (@HandlerConfig unit unit) :=
  snd (NewHandlerConfig ∅).

(** * Properties *)

Section Properties.

Context {Fields : Type}.
Context `{GoCrypto}.

Abbreviation M := (@M Fields _).
Abbreviation World := (@World Fields _).
Abbreviation Signer := (@Signer Fields _).
Abbreviation Verifier := (@Verifier Fields _).
Abbreviation objects_kept := (@objects_kept Fields _).
Abbreviation structs_same := (@structs_same Fields _).
Abbreviation heap_same := (@heap_same Fields _).

(** ** Allocation *)

Lemma fresh_lookup_None {V} (m : gmap positive V) :
  m !! fresh (dom m) = None.
Proof. apply not_elem_of_dom, is_fresh. Qed.

Lemma is_nil_false {A} (p : option A) : is_nil p = false <-> p <> None.
Proof. destruct p; simpl; split; congruence. Qed.

Lemma is_nil_true {A} (p : option A) : is_nil p = true <-> p = None.
Proof. destruct p; simpl; split; congruence. Qed.

(** ** The defaults of config.go *)

(** C7: [NewSignConfig] returns a pointer to a new configuration whose
    values are signAlg = true, signCreated = true, fakeCreated = 0,
    expires = 0, nonce = the empty string, and no requestResponse. *)
Theorem NewSignConfig_defaults (w : World) :
  exists l w' c,
    NewSignConfig w = (Ok (Some l), w') /\
    signConfigs w !! l = None /\
    signConfigs w' !! l = Some c /\
    signAlg c = true /\ signCreated c = true /\
    fakeCreated c = 0 /\ expires c = 0 /\
    nonce c = EmptyString /\ sc_requestResponse c = None.
Proof.
  exists (fresh (dom (signConfigs w))).
  eexists. exists default_SignConfig.
  split; [reflexivity|].
  split; [apply fresh_lookup_None|].
  split; [simpl; apply lookup_insert_eq|].
  repeat split; reflexivity.
Qed.

(** C3: [NewVerifyConfig] returns a pointer to a new configuration whose
    values are verifyCreated = true, notNewerThan = 2 seconds,
    notOlderThan = 10 seconds, rejectExpired = true, allowedAlgs empty,
    verifyKeyID = true and dateWithin = 0. *)
Theorem NewVerifyConfig_defaults (w : World) :
  exists l w' c,
    NewVerifyConfig w = (Ok (Some l), w') /\
    verifyConfigs w !! l = None /\
    verifyConfigs w' !! l = Some c /\
    verifyCreated c = true /\
    notNewerThan c = 2 * time_Second /\ notNewerThan c = 2000000000 /\
    notOlderThan c = 10 * time_Second /\ notOlderThan c = 10000000000 /\
    rejectExpired c = true /\
    allowedAlgs c = Some nil /\ len (allowedAlgs c) = 0 /\
    verifyKeyID c = true /\ dateWithin c = 0 /\
    vc_requestResponse c = None.
Proof.
  exists (fresh (dom (verifyConfigs w))).
  eexists. exists default_VerifyConfig.
  split; [reflexivity|].
  split; [apply fresh_lookup_None|].
  split; [simpl; apply lookup_insert_eq|].
  repeat split; reflexivity.
Qed.

(** ** The constructors *)

Lemma SignConfig_or_default_spec (config : ptr) (w : World) :
  exists p w',
    SignConfig_or_default config w = (Ok p, w') /\
    SignConfig_stored config w w' p /\
    verifyConfigs w' = verifyConfigs w /\ signers w' = signers w /\
    verifiers w' = verifiers w /\ rand_Reader w' = rand_Reader w.
Proof.
  destruct config as [c|]; simpl.
  - exists (Some c), w. repeat split; reflexivity.
  - eexists _, _. split; [reflexivity|]. simpl.
    split; [|repeat split; reflexivity].
    eexists. split; [reflexivity|]. split; [apply fresh_lookup_None|done].
Qed.

Lemma VerifyConfig_or_default_spec (config : ptr) (w : World) :
  exists p w',
    VerifyConfig_or_default config w = (Ok p, w') /\
    VerifyConfig_stored config w w' p /\
    signConfigs w' = signConfigs w /\ signers w' = signers w /\
    verifiers w' = verifiers w /\ rand_Reader w' = rand_Reader w.
Proof.
  destruct config as [c|]; simpl.
  - exists (Some c), w. repeat split; reflexivity.
  - eexists _, _. split; [reflexivity|]. simpl.
    split; [|repeat split; reflexivity].
    eexists. split; [reflexivity|]. split; [apply fresh_lookup_None|done].
Qed.

(** What a Signer constructor does once its checks have passed. *)
Lemma new_Signer_after_config (config : ptr) (mk : ptr -> Signer)
  (w : World) :
  exists l p w',
    (let* c := SignConfig_or_default config in
     let* s := new_Signer (mk c) in
     ret (s, nil_error)) w = (Ok (Some l, None), w') /\
    signers w !! l = None /\
    signers w' = <[l := mk p]> (signers w) /\
    SignConfig_stored config w w' p /\
    verifyConfigs w' = verifyConfigs w /\
    verifiers w' = verifiers w /\ rand_Reader w' = rand_Reader w.
Proof.
  destruct (SignConfig_or_default_spec config w)
    as (p & w1 & E & Hst & Hvc & Hs & Hv & Hr).
  exists (fresh (dom (signers w1))), p.
  eexists. unfold bind at 1. rewrite E. cbn.
  split; [reflexivity|]. cbn. rewrite Hs.
  split; [apply fresh_lookup_None|].
  split; [reflexivity|].
  split; [|auto].
  destruct config; simpl in *; exact Hst.
Qed.

Lemma new_Verifier_after_config (config : ptr) (mk : ptr -> Verifier)
  (w : World) :
  exists l p w',
    (let* c := VerifyConfig_or_default config in
     let* v := new_Verifier (mk c) in
     ret (v, nil_error)) w = (Ok (Some l, None), w') /\
    verifiers w !! l = None /\
    verifiers w' = <[l := mk p]> (verifiers w) /\
    VerifyConfig_stored config w w' p /\
    signConfigs w' = signConfigs w /\
    signers w' = signers w /\ rand_Reader w' = rand_Reader w.
Proof.
  destruct (VerifyConfig_or_default_spec config w)
    as (p & w1 & E & Hst & Hsc & Hs & Hv & Hr).
  exists (fresh (dom (verifiers w1))), p.
  eexists. unfold bind at 1. rewrite E. cbn.
  split; [reflexivity|]. cbn. rewrite Hv.
  split; [apply fresh_lookup_None|].
  split; [reflexivity|].
  split; [|auto].
  destruct config; simpl in *; exact Hst.
Qed.

(** C2: [NewHMACSHA256Signer] returns an error exactly when the key is nil
    or shorter than 64 bytes or the keyID is empty, and then no Signer;
    otherwise it returns a new Signer with algorithm hmac-sha256, the given
    key, keyID and fields, and the given configuration, or a new default
    configuration when nil was passed. *)
Theorem NewHMACSHA256Signer_spec (keyID : string) (key : slice byte)
  (config : ptr) (fields : Fields) (w : World) :
  exists sp err w',
    NewHMACSHA256Signer keyID key config fields w = (Ok (sp, err), w') /\
    (err <> None <->
       key = None \/ len key < 64 \/ keyID = EmptyString) /\
    (err <> None -> sp = None /\ w' = w) /\
    (err = None ->
       exists l s,
         sp = Some l /\ signers w !! l = None /\
         signers w' !! l = Some s /\
         s_alg s = "hmac-sha256" /\ s_key s = KeyBytes key /\
         s_keyID s = keyID /\ s_fields s = fields /\
         SignConfig_stored config w w' (s_config s)).
Proof.
  unfold NewHMACSHA256Signer.
  destruct (is_nil key || (len key <? 64)%Z) eqn:Ek.
  { eexists _, _, _. split; [reflexivity|].
    split; [|split; [intros _; split; reflexivity|discriminate]].
    split; [intros _|discriminate].
    apply orb_true_iff in Ek as [Ek|Ek].
    - left. now apply is_nil_true.
    - right; left. now apply Z.ltb_lt. }
  apply orb_false_iff in Ek as [Ek1 Ek2].
  apply is_nil_false in Ek1. apply Z.ltb_ge in Ek2.
  destruct (keyID =? EmptyString) eqn:Eid.
  { apply String.eqb_eq in Eid.
    eexists _, _, _. split; [reflexivity|].
    split; [|split; [intros _; split; reflexivity|discriminate]].
    split; [intros _; auto|discriminate]. }
  apply String.eqb_neq in Eid.
  destruct (new_Signer_after_config config
              (fun c => {| s_keyID := keyID; s_key := KeyBytes key;
                           s_alg := "hmac-sha256"; s_config := c;
                           s_fields := fields |}) w)
    as (l & p & w' & E & Hfresh & Hs & Hst & _).
  exists (Some l), None, w'. split; [exact E|].
  split.
  { split; [congruence|]. intros [Hk|[Hk|Hk]]; [congruence|lia|congruence]. }
  split; [congruence|]. intros _.
  eexists l, _. split; [reflexivity|]. split; [exact Hfresh|].
  split; [rewrite Hs; apply lookup_insert_eq|].
  repeat split; try reflexivity. exact Hst.
Qed.

(** Once the checks of a constructor have passed, what is left is the
    allocation covered by [new_Signer_after_config] or
    [new_Verifier_after_config]. *)
Ltac constructed :=
  let l := fresh "l" in let p := fresh "p" in let w' := fresh "w'" in
  let E := fresh "E" in let Hfresh := fresh "Hfresh" in
  let Hs := fresh "Hs" in
  lazymatch goal with
  | |- ex (fun c => returns_Signer
                      (bind (SignConfig_or_default ?config) _ ?w) _ (@?mk c)) =>
      destruct (new_Signer_after_config config mk w)
        as (l & p & w' & E & Hfresh & Hs & _)
  | |- ex (fun c => returns_Verifier
                      (bind (VerifyConfig_or_default ?config) _ ?w) _
                      (@?mk c)) =>
      destruct (new_Verifier_after_config config mk w)
        as (l & p & w' & E & Hfresh & Hs & _)
  end;
  exists p, l, w'; split; [exact E|]; split; [exact Hfresh|];
  rewrite Hs; apply lookup_insert_eq.

Lemma NewHMACSHA256Signer_ok keyID (k : list byte) config fields (w : World) :
  64 <= len (Some k) -> keyID <> EmptyString ->
  exists c,
    returns_Signer (NewHMACSHA256Signer keyID (Some k) config fields w) w
      {| s_keyID := keyID; s_key := KeyBytes (Some k);
         s_alg := "hmac-sha256"; s_config := c; s_fields := fields |}.
Proof.
  intros Hlen Hid. unfold NewHMACSHA256Signer.
  apply Z.ltb_ge in Hlen. apply String.eqb_neq in Hid.
  unfold is_nil. rewrite Hlen, Hid. cbn [orb]. constructed.
Qed.

Lemma NewRSASigner_ok keyID (k : rsa_PrivateKey) config fields (w : World) :
  keyID <> EmptyString ->
  exists c,
    returns_Signer (NewRSASigner keyID (Some k) config fields w) w
      {| s_keyID := keyID; s_key := KeyRSAPrivate (Some k);
         s_alg := "rsa-v1_5-sha256"; s_config := c; s_fields := fields |}.
Proof.
  intros Hid%String.eqb_neq. unfold NewRSASigner.
  unfold is_nil. rewrite Hid. constructed.
Qed.

Lemma NewRSAPSSSigner_ok keyID (k : rsa_PrivateKey) config fields
  (w : World) :
  keyID <> EmptyString ->
  exists c,
    returns_Signer (NewRSAPSSSigner keyID (Some k) config fields w) w
      {| s_keyID := keyID; s_key := KeyRSAPrivate (Some k);
         s_alg := "rsa-pss-sha512"; s_config := c; s_fields := fields |}.
Proof.
  intros Hid%String.eqb_neq. unfold NewRSAPSSSigner.
  unfold is_nil. rewrite Hid. constructed.
Qed.

Lemma NewP256Signer_ok keyID (k : ecdsa_PrivateKey) config fields
  (w : World) :
  keyID <> EmptyString ->
  exists c,
    returns_Signer (NewP256Signer keyID (Some k) config fields w) w
      {| s_keyID := keyID; s_key := KeyECDSAPrivate (Some k);
         s_alg := "ecdsa-p256-sha256"; s_config := c; s_fields := fields |}.
Proof.
  intros Hid%String.eqb_neq. unfold NewP256Signer.
  unfold is_nil. rewrite Hid. constructed.
Qed.

Lemma NewHMACSHA256Verifier_ok keyID (k : list byte) config fields
  (w : World) :
  64 <= len (Some k) ->
  exists c,
    returns_Verifier (NewHMACSHA256Verifier keyID (Some k) config fields w) w
      {| v_keyID := keyID; v_key := KeyBytes (Some k);
         v_alg := "hmac-sha256"; v_c := c; v_f := fields |}.
Proof.
  intros Hlen%Z.ltb_ge. unfold NewHMACSHA256Verifier.
  unfold is_nil. rewrite Hlen. constructed.
Qed.

Lemma NewRSAVerifier_ok keyID (k : rsa_PublicKey) config fields (w : World) :
  exists c,
    returns_Verifier (NewRSAVerifier keyID (Some k) config fields w) w
      {| v_keyID := keyID; v_key := KeyRSAPublic (Some k);
         v_alg := "rsa-v1_5-sha256"; v_c := c; v_f := fields |}.
Proof. unfold NewRSAVerifier. unfold is_nil. constructed. Qed.

Lemma NewRSAPSSVerifier_ok keyID (k : rsa_PublicKey) config fields
  (w : World) :
  exists c,
    returns_Verifier (NewRSAPSSVerifier keyID (Some k) config fields w) w
      {| v_keyID := keyID; v_key := KeyRSAPublic (Some k);
         v_alg := "rsa-pss-sha512"; v_c := c; v_f := fields |}.
Proof. unfold NewRSAPSSVerifier. unfold is_nil. constructed. Qed.

Lemma NewP256Verifier_ok keyID (k : ecdsa_PublicKey) config fields
  (w : World) :
  exists c,
    returns_Verifier (NewP256Verifier keyID (Some k) config fields w) w
      {| v_keyID := keyID; v_key := KeyECDSAPublic (Some k);
         v_alg := "ecdsa-p256-sha256"; v_c := c; v_f := fields |}.
Proof. unfold NewP256Verifier. unfold is_nil. constructed. Qed.

(** C9: no Verifier constructor rejects an empty keyID.  With a non-nil key
    (of at least 64 bytes for HMAC) each of the four returns a Verifier
    whose keyID is the empty string, and a nil error; the four Signer
    constructors return an error on the same input. *)
Theorem Verifier_constructors_accept_empty_keyID
  (kb : list byte) (kr : rsa_PublicKey) (ke : ecdsa_PublicKey)
  (kr' : rsa_PrivateKey) (ke' : ecdsa_PrivateKey)
  (config sconfig : ptr) (fields : Fields) (w : World) :
  64 <= len (Some kb) ->
  (exists v,
     returns_Verifier
       (NewHMACSHA256Verifier EmptyString (Some kb) config fields w) w v /\
     v_keyID v = EmptyString) /\
  (exists v,
     returns_Verifier
       (NewRSAVerifier EmptyString (Some kr) config fields w) w v /\
     v_keyID v = EmptyString) /\
  (exists v,
     returns_Verifier
       (NewRSAPSSVerifier EmptyString (Some kr) config fields w) w v /\
     v_keyID v = EmptyString) /\
  (exists v,
     returns_Verifier
       (NewP256Verifier EmptyString (Some ke) config fields w) w v /\
     v_keyID v = EmptyString) /\
  returns_error (NewHMACSHA256Signer EmptyString (Some kb) sconfig fields w)
    w "keyID must not be empty" /\
  returns_error (NewRSASigner EmptyString (Some kr') sconfig fields w)
    w "keyID must not be empty" /\
  returns_error (NewRSAPSSSigner EmptyString (Some kr') sconfig fields w)
    w "keyID must not be empty" /\
  returns_error (NewP256Signer EmptyString (Some ke') sconfig fields w)
    w "keyID must not be empty".
Proof.
  intros Hlen.
  split; [destruct (NewHMACSHA256Verifier_ok EmptyString kb config fields w
                      Hlen) as [c Hc]; eauto|].
  split; [destruct (NewRSAVerifier_ok EmptyString kr config fields w)
            as [c Hc]; eauto|].
  split; [destruct (NewRSAPSSVerifier_ok EmptyString kr config fields w)
            as [c Hc]; eauto|].
  split; [destruct (NewP256Verifier_ok EmptyString ke config fields w)
            as [c Hc]; eauto|].
  unfold returns_error, NewHMACSHA256Signer, NewRSASigner, NewRSAPSSSigner,
    NewP256Signer.
  apply Z.ltb_ge in Hlen. simpl is_nil. rewrite Hlen. simpl.
  repeat split; reflexivity.
Qed.

(** ** The dispatch on the algorithm *)

Lemma sign_unknown_algorithm (s : Signer) (buff : slice byte) (w : World) :
  ~ In (s_alg s) algorithm_identifiers ->
  sign s buff w =
    (Ok (None, Some ("sign: unknown algorithm " ++ dquote ++ s_alg s
                       ++ dquote)), w).
Proof.
  intros Hin. unfold sign.
  repeat match goal with
  | |- context [String.eqb ?a ?b] =>
      destruct (String.eqb_spec a b) as [E|E];
        [exfalso; apply Hin; rewrite E; simpl; tauto|clear E]
  end.
  reflexivity.
Qed.

Lemma verify_unknown_algorithm (v : Verifier) (buff sig : slice byte)
  (w : World) :
  ~ In (v_alg v) algorithm_identifiers ->
  verify v buff sig w =
    (Ok (false, Some ("verify: unknown algorithm " ++ dquote ++ v_alg v
                        ++ dquote)), w).
Proof.
  intros Hin. unfold verify.
  repeat match goal with
  | |- context [String.eqb ?a ?b] =>
      destruct (String.eqb_spec a b) as [E|E];
        [exfalso; apply Hin; rewrite E; simpl; tauto|clear E]
  end.
  reflexivity.
Qed.

(** C5: the four Signer constructors set the algorithm to hmac-sha256,
    rsa-v1_5-sha256, rsa-pss-sha512 and ecdsa-p256-sha256; with any other
    algorithm string [sign] returns no signature and the error
    "sign: unknown algorithm", and [verify] returns false and the error
    "verify: unknown algorithm", each followed by the quoted string. *)
Theorem algorithm_identifiers_spec
  (keyID : string) (kb : list byte) (kr : rsa_PrivateKey)
  (ke : ecdsa_PrivateKey) (config : ptr) (fields : Fields)
  (s : Signer) (v : Verifier) (buff sig : slice byte) (w : World) :
  (64 <= len (Some kb) -> keyID <> EmptyString ->
   (exists x,
      returns_Signer
        (NewHMACSHA256Signer keyID (Some kb) config fields w) w x /\
      s_alg x = "hmac-sha256") /\
   (exists x,
      returns_Signer (NewRSASigner keyID (Some kr) config fields w) w x /\
      s_alg x = "rsa-v1_5-sha256") /\
   (exists x,
      returns_Signer (NewRSAPSSSigner keyID (Some kr) config fields w) w x /\
      s_alg x = "rsa-pss-sha512") /\
   (exists x,
      returns_Signer (NewP256Signer keyID (Some ke) config fields w) w x /\
      s_alg x = "ecdsa-p256-sha256")) /\
  (~ In (s_alg s) algorithm_identifiers ->
   sign s buff w =
     (Ok (None, Some ("sign: unknown algorithm " ++ dquote ++ s_alg s
                        ++ dquote)), w)) /\
  (~ In (v_alg v) algorithm_identifiers ->
   verify v buff sig w =
     (Ok (false, Some ("verify: unknown algorithm " ++ dquote ++ v_alg v
                         ++ dquote)), w)).
Proof.
  split; [|split].
  - intros Hlen Hid.
    split; [destruct (NewHMACSHA256Signer_ok keyID kb config fields w
                        Hlen Hid) as [c Hc]; eauto|].
    split; [destruct (NewRSASigner_ok keyID kr config fields w Hid)
              as [c Hc]; eauto|].
    split; [destruct (NewRSAPSSSigner_ok keyID kr config fields w Hid)
              as [c Hc]; eauto|].
    destruct (NewP256Signer_ok keyID ke config fields w Hid) as [c Hc]; eauto.
  - apply sign_unknown_algorithm.
  - apply verify_unknown_algorithm.
Qed.

(** ** HMAC-SHA256 *)

Lemma bytes_Equal_true (a b : slice byte) :
  bytes_Equal a b = true <-> elems a = elems b.
Proof. unfold bytes_Equal. apply bool_decide_eq_true. Qed.

Lemma bytes_Equal_false (a b : slice byte) :
  bytes_Equal a b = false <-> elems a <> elems b.
Proof. unfold bytes_Equal. apply bool_decide_eq_false. Qed.

Lemma sign_hmac (s : Signer) (k buff : slice byte) (w : World) :
  s_alg s = "hmac-sha256" -> s_key s = KeyBytes k ->
  sign s buff w = (Ok (Some (hmac_sha256 (elems k) (elems buff)), None), w).
Proof. intros Ha Hk. unfold sign. rewrite Ha, Hk. reflexivity. Qed.

Lemma verify_hmac (v : Verifier) (k buff sig : slice byte) (w : World) :
  v_alg v = "hmac-sha256" -> v_key v = KeyBytes k ->
  verify v buff sig w =
    (Ok (bytes_Equal (Some (hmac_sha256 (elems k) (elems buff))) sig, None),
     w).
Proof. intros Ha Hk. unfold verify. rewrite Ha, Hk. reflexivity. Qed.

(** C1: when a Signer and a Verifier hold the same key, of at least 64
    bytes, and the algorithm hmac-sha256, [sign] returns a signature and no
    error, and [verify] of the same bytes and that signature returns
    (true, nil). *)
Theorem hmac_sign_verify_round_trip (s : Signer) (v : Verifier)
  (k b : slice byte) (w : World) :
  64 <= len k ->
  s_alg s = "hmac-sha256" -> s_key s = KeyBytes k ->
  v_alg v = "hmac-sha256" -> v_key v = KeyBytes k ->
  exists sig,
    sign s b w = (Ok (sig, nil_error), w) /\
    verify v b sig w = (Ok (true, nil_error), w).
Proof.
  intros _ Hsa Hsk Hva Hvk.
  exists (Some (hmac_sha256 (elems k) (elems b))).
  split; [now apply sign_hmac|].
  rewrite (verify_hmac v k b _ w Hva Hvk).
  replace (bytes_Equal _ _) with true; [reflexivity|].
  symmetry. now apply bytes_Equal_true.
Qed.

(** The same through the constructors: a Signer and a Verifier built from
    one key of at least 64 bytes accept each other's signatures. *)
Lemma hmac_round_trip_constructed (keyID keyID' : string) (k : list byte)
  (config config' : ptr) (fields fields' : Fields) (b : slice byte)
  (w : World) :
  64 <= len (Some k) -> keyID <> EmptyString ->
  exists s w1 v w2 sig,
    returns_Signer
      (NewHMACSHA256Signer keyID (Some k) config fields w) w s /\
    snd (NewHMACSHA256Signer keyID (Some k) config fields w) = w1 /\
    returns_Verifier
      (NewHMACSHA256Verifier keyID' (Some k) config' fields' w1) w1 v /\
    snd (NewHMACSHA256Verifier keyID' (Some k) config' fields' w1) = w2 /\
    sign s b w2 = (Ok (sig, nil_error), w2) /\
    verify v b sig w2 = (Ok (true, nil_error), w2).
Proof.
  intros Hlen Hid.
  destruct (NewHMACSHA256Signer_ok keyID k config fields w Hlen Hid)
    as [c Hs].
  set (w1 := snd (NewHMACSHA256Signer keyID (Some k) config fields w)).
  destruct (NewHMACSHA256Verifier_ok keyID' k config' fields' w1 Hlen)
    as [c' Hv].
  set (w2 := snd (NewHMACSHA256Verifier keyID' (Some k) config' fields' w1)).
  eexists _, w1, _, w2.
  exists (Some (hmac_sha256 k (elems b))).
  split; [exact Hs|]. split; [reflexivity|].
  split; [exact Hv|]. split; [reflexivity|].
  split; [apply (sign_hmac _ (Some k)); reflexivity|].
  erewrite verify_hmac with (k := Some k); [|reflexivity..].
  replace (bytes_Equal _ _) with true; [reflexivity|].
  symmetry. now apply bytes_Equal_true.
Qed.

(** C4: with algorithm hmac-sha256, when the Verifier's key gives another
    MAC for the bytes than the Signer's key, [verify] of the Signer's
    signature returns (false, nil): a false result and no error. *)
Theorem hmac_wrong_key_is_mismatch (s : Signer) (v : Verifier)
  (ka kb b : slice byte) (w : World) :
  s_alg s = "hmac-sha256" -> s_key s = KeyBytes ka ->
  v_alg v = "hmac-sha256" -> v_key v = KeyBytes kb ->
  hmac_sha256 (elems kb) (elems b) <> hmac_sha256 (elems ka) (elems b) ->
  exists sig,
    sign s b w = (Ok (sig, nil_error), w) /\
    verify v b sig w = (Ok (false, nil_error), w).
Proof.
  intros Hsa Hsk Hva Hvk Hne.
  exists (Some (hmac_sha256 (elems ka) (elems b))).
  split; [now apply sign_hmac|].
  rewrite (verify_hmac v kb b _ w Hva Hvk).
  replace (bytes_Equal _ _) with false; [reflexivity|].
  symmetry. now apply bytes_Equal_false.
Qed.

(** Any received signature that is not the MAC is a mismatch without an
    error. *)
Lemma hmac_mismatch_no_error (v : Verifier) (k b sig : slice byte)
  (w : World) :
  v_alg v = "hmac-sha256" -> v_key v = KeyBytes k ->
  elems sig <> hmac_sha256 (elems k) (elems b) ->
  verify v b sig w = (Ok (false, nil_error), w).
Proof.
  intros Hva Hvk Hne. rewrite (verify_hmac v k b sig w Hva Hvk).
  replace (bytes_Equal _ _) with false; [reflexivity|].
  symmetry. apply bytes_Equal_false. simpl. congruence.
Qed.

(** ** RSA *)

Lemma verify_rsa (v : Verifier) (k : rsa_PublicKey) (buff sig : slice byte)
  (w : World) :
  v_alg v = "rsa-v1_5-sha256" -> v_key v = KeyRSAPublic (Some k) ->
  verify v buff sig w =
    (Ok match rsa_VerifyPKCS1v15 k crypto_SHA256
                (sha256_Sum256 (elems buff)) (elems sig) with
        | Some err => (false, Some ("RSA verification failed: " ++ err))
        | None => (true, nil_error)
        end, w).
Proof.
  intros Ha Hk. unfold verify. rewrite Ha, Hk. cbn.
  now destruct (rsa_VerifyPKCS1v15 _ _ _ _).
Qed.

Lemma verify_rsa_pss (v : Verifier) (k : rsa_PublicKey)
  (buff sig : slice byte) (w : World) :
  v_alg v = "rsa-pss-sha512" -> v_key v = KeyRSAPublic (Some k) ->
  verify v buff sig w =
    (Ok match rsa_VerifyPSS k crypto_SHA512
                (sha512_Sum512 (elems buff)) (elems sig) with
        | Some err => (false, Some ("RSA-PSS verification failed: " ++ err))
        | None => (true, nil_error)
        end, w).
Proof.
  intros Ha Hk. unfold verify. rewrite Ha, Hk. cbn.
  now destruct (rsa_VerifyPSS _ _ _ _).
Qed.

(** C10: with algorithm rsa-v1_5-sha256 or rsa-pss-sha512, [verify] never
    returns (false, nil).  With an RSA public key it returns (true, nil)
    when the library accepts the signature, and false with a non-nil error,
    which wraps the library's, whenever the library reports a failure, a
    plain mismatch included. *)
Theorem rsa_verify_false_has_error (v : Verifier) (buff sig : slice byte)
  (w : World) :
  v_alg v = "rsa-v1_5-sha256" \/ v_alg v = "rsa-pss-sha512" ->
  fst (verify v buff sig w) <> Ok (false, nil_error) /\
  (forall k, v_key v = KeyRSAPublic (Some k) ->
     verify v buff sig w = (Ok (true, nil_error), w) \/
     exists msg, verify v buff sig w = (Ok (false, Some msg), w)) /\
  (forall k err,
     v_alg v = "rsa-v1_5-sha256" -> v_key v = KeyRSAPublic (Some k) ->
     rsa_VerifyPKCS1v15 k crypto_SHA256 (sha256_Sum256 (elems buff))
       (elems sig) = Some err ->
     verify v buff sig w =
       (Ok (false, Some ("RSA verification failed: " ++ err)), w)) /\
  (forall k err,
     v_alg v = "rsa-pss-sha512" -> v_key v = KeyRSAPublic (Some k) ->
     rsa_VerifyPSS k crypto_SHA512 (sha512_Sum512 (elems buff))
       (elems sig) = Some err ->
     verify v buff sig w =
       (Ok (false, Some ("RSA-PSS verification failed: " ++ err)), w)).
Proof.
  intros Halg. split; [|split; [|split]].
  - unfold verify.
    destruct Halg as [Ha|Ha]; rewrite Ha; cbn;
      destruct (v_key v) as [|?|?|[k|]|?|?|]; cbn; try discriminate.
    + destruct (rsa_VerifyPKCS1v15 _ _ _ _); discriminate.
    + destruct (rsa_VerifyPSS _ _ _ _); discriminate.
  - intros k Hk. destruct Halg as [Ha|Ha].
    + rewrite (verify_rsa v k buff sig w Ha Hk).
      destruct (rsa_VerifyPKCS1v15 _ _ _ _); eauto.
    + rewrite (verify_rsa_pss v k buff sig w Ha Hk).
      destruct (rsa_VerifyPSS _ _ _ _); eauto.
  - intros k err Ha Hk Herr.
    rewrite (verify_rsa v k buff sig w Ha Hk), Herr. reflexivity.
  - intros k err Ha Hk Herr.
    rewrite (verify_rsa_pss v k buff sig w Ha Hk), Herr. reflexivity.
Qed.

(** ** ECDSA: the raw encoding *)

Lemma Z_of_byte_of_Z (z : Z) : Z_of_byte (byte_of_Z z) = z mod 256.
Proof.
  unfold Z_of_byte, byte_of_Z.
  assert (Hr : 0 <= z mod 256 < 256) by (apply Z.mod_pos_bound; lia).
  destruct (Byte.of_N (Z.to_N (z mod 256))) as [b|] eqn:E.
  - apply Byte.to_of_N in E. rewrite E. lia.
  - apply Byte.of_N_None_iff in E. lia.
Qed.

Lemma length_be_bytes (n : nat) (z : Z) : length (be_bytes n z) = n.
Proof.
  revert z. induction n as [|n IH]; intros z; simpl; [reflexivity|].
  rewrite length_app, IH. simpl. lia.
Qed.

Lemma be_decode_snoc (l : list byte) (b : byte) :
  be_decode (l ++ b :: nil) = be_decode l * 256 + Z_of_byte b.
Proof. unfold be_decode. now rewrite fold_left_app. Qed.

Lemma be_decode_be_bytes (n : nat) (z : Z) :
  be_decode (be_bytes n z) = z mod 256 ^ Z.of_nat n.
Proof.
  revert z. induction n as [|n IH]; intros z.
  - simpl. now rewrite Z.mod_1_r.
  - cbn [be_bytes]. rewrite be_decode_snoc, IH, Z_of_byte_of_Z.
    rewrite Nat2Z.inj_succ, Z.pow_succ_r by lia.
    rewrite (Z.rem_mul_r z 256 (256 ^ Z.of_nat n)) by lia. lia.
Qed.

Lemma be_decode_be_bytes_32 (z : Z) :
  0 <= z < 2 ^ 256 -> be_decode (be_bytes 32 z) = z.
Proof.
  intros Hz. rewrite be_decode_be_bytes.
  change (256 ^ Z.of_nat 32) with (2 ^ 256). now apply Z.mod_small.
Qed.

Lemma sign_ecdsa (sg : Signer) (k : ecdsa_PrivateKey) (buff : slice byte)
  (w : World) :
  s_alg sg = "ecdsa-p256-sha256" -> s_key sg = KeyECDSAPrivate (Some k) ->
  sign sg buff w =
    match ecdsa_Sign (rand_Reader w) k (sha256_Sum256 (elems buff)) with
    | (inl (r, s), e') =>
        (Ok (Some (be_bytes 32 r ++ be_bytes 32 s)%list, nil_error),
         with_rand_Reader e' w)
    | (inr msg, e') => (Ok (None, Some msg), with_rand_Reader e' w)
    end.
Proof.
  intros Ha Hk. unfold sign. rewrite Ha, Hk.
  cbn -[be_bytes]. unfold bind, with_rand.
  destruct (ecdsa_Sign _ _ _) as [[[r s]|msg] e']; reflexivity.
Qed.

Lemma verify_ecdsa (v : Verifier) (k : ecdsa_PublicKey)
  (buff sig : slice byte) (w : World) :
  v_alg v = "ecdsa-p256-sha256" -> v_key v = KeyECDSAPublic (Some k) ->
  len sig = 64 ->
  verify v buff sig w =
    (Ok (ecdsa_Verify k (sha256_Sum256 (elems buff))
           (be_decode (take 32 (elems sig)))
           (be_decode (drop 32 (elems sig))), nil_error), w).
Proof.
  intros Ha Hk Hlen. unfold verify. rewrite Ha, Hk.
  cbn -[be_decode take drop]. unfold bind, ecdsaVerifyRaw, deref, bind, ret.
  rewrite Hlen. reflexivity.
Qed.

(** C8: for ecdsa-p256-sha256, when the library signs with the pair
    (r, s), both below 2^256, [sign] returns the 64 bytes made of r in 32
    big-endian bytes followed by s in 32 big-endian bytes, and [verify]
    reads r and s back from these two halves and returns the library's
    answer for them. *)
Theorem ecdsa_signature_is_raw_r_s (sg : Signer) (v : Verifier)
  (kpriv : ecdsa_PrivateKey) (kpub : ecdsa_PublicKey) (buff : slice byte)
  (r s : Z) (e' : Entropy) (w w2 : World) :
  s_alg sg = "ecdsa-p256-sha256" -> s_key sg = KeyECDSAPrivate (Some kpriv) ->
  v_alg v = "ecdsa-p256-sha256" -> v_key v = KeyECDSAPublic (Some kpub) ->
  ecdsa_Sign (rand_Reader w) kpriv (sha256_Sum256 (elems buff))
    = (inl (r, s), e') ->
  0 <= r < 2 ^ 256 -> 0 <= s < 2 ^ 256 ->
  let sig := (be_bytes 32 r ++ be_bytes 32 s)%list in
  sign sg buff w = (Ok (Some sig, nil_error), with_rand_Reader e' w) /\
  length sig = 64%nat /\
  be_decode (take 32 sig) = r /\ be_decode (drop 32 sig) = s /\
  verify v buff (Some sig) w2 =
    (Ok (ecdsa_Verify kpub (sha256_Sum256 (elems buff)) r s, nil_error), w2).
Proof.
  intros Hsa Hsk Hva Hvk Hsign Hr Hs sig.
  assert (Ht : take 32 sig = be_bytes 32 r)
    by (apply take_app_length'; now rewrite length_be_bytes).
  assert (Hd : drop 32 sig = be_bytes 32 s)
    by (apply drop_app_length'; now rewrite length_be_bytes).
  assert (Hl : length sig = 64%nat)
    by (unfold sig; now rewrite length_app, !length_be_bytes).
  assert (Hsg : sign sg buff w
                = (Ok (Some sig, nil_error), with_rand_Reader e' w))
    by (rewrite (sign_ecdsa sg kpriv buff w Hsa Hsk), Hsign; reflexivity).
  clearbody sig.
  split; [exact Hsg|]. split; [exact Hl|].
  split; [rewrite Ht; now apply be_decode_be_bytes_32|].
  split; [rewrite Hd; now apply be_decode_be_bytes_32|].
  rewrite (verify_ecdsa v kpub buff (Some sig) w2 Hva Hvk).
  - cbn [elems]. rewrite Ht, Hd, !be_decode_be_bytes_32 by assumption.
    reflexivity.
  - unfold len. cbn [elems]. rewrite Hl. reflexivity.
Qed.

(** ** What a call leaves unchanged *)

#[local] Instance objects_kept_preorder : PreOrder objects_kept.
Proof.
  split.
  - intros w. repeat split; auto.
  - intros w1 w2 w3 (A1 & B1 & C1 & D1) (A2 & B2 & C2 & D2).
    repeat split; auto.
Qed.

#[local] Instance structs_same_preorder : PreOrder structs_same.
Proof.
  split.
  - intros w. split; reflexivity.
  - intros w1 w2 w3 [A1 B1] [A2 B2]. split; congruence.
Qed.

#[local] Instance heap_same_preorder : PreOrder heap_same.
Proof.
  split.
  - intros w. repeat split; reflexivity.
  - intros w1 w2 w3 (A1 & B1 & C1 & D1) (A2 & B2 & C2 & D2).
    repeat split; congruence.
Qed.

Lemma heap_same_objects_kept (w w' : World) :
  heap_same w w' -> objects_kept w w'.
Proof.
  intros (A & B & C & D). unfold objects_kept. rewrite A, B, C, D. auto.
Qed.

Lemma preserves_weaken {A} (R R' : World -> World -> Prop) (m : M A) :
  (forall w w', R w w' -> R' w w') -> preserves R m -> preserves R' m.
Proof. intros HR Hm w. apply HR, Hm. Qed.

Lemma preserves_ret {A} (R : World -> World -> Prop) `{!Reflexive R} (a : A) : preserves R (ret a).
Proof. intros w. simpl. reflexivity. Qed.

Lemma preserves_panic {A} (R : World -> World -> Prop) `{!Reflexive R} msg :
  preserves R (@panic _ _ A msg).
Proof. intros w. simpl. reflexivity. Qed.

Lemma preserves_bind {A B} (R : World -> World -> Prop) `{!Transitive R} (m : M A) (k : A -> M B) :
  preserves R m -> (forall a, preserves R (k a)) -> preserves R (bind m k).
Proof.
  intros Hm Hk w. unfold bind. specialize (Hm w).
  destruct (m w) as [[a|msg] w1]; simpl in *.
  - etransitivity; [exact Hm|apply Hk].
  - exact Hm.
Qed.

Lemma preserves_void {A} (R : World -> World -> Prop) `{!PreOrder R} (m : M A) :
  preserves R m -> preserves R (void m).
Proof.
  intros Hm. unfold void. apply preserves_bind; [apply _|exact Hm|].
  intros _. apply preserves_ret, _.
Qed.

Lemma insert_fresh_kept {V} (m : gmap positive V) (y : V) l x :
  m !! l = Some x -> <[fresh (dom m) := y]> m !! l = Some x.
Proof.
  intros Hl. rewrite lookup_insert_ne; [exact Hl|].
  intros E. rewrite <- E, fresh_lookup_None in Hl. discriminate.
Qed.

(** Reads, type assertions and the random source leave the heap alone. *)
Lemma load_SignConfig_heap p : preserves heap_same (load_SignConfig p).
Proof.
  intros w. unfold load_SignConfig.
  destruct p as [l|]; [destruct (signConfigs w !! l)|]; reflexivity.
Qed.

Lemma load_VerifyConfig_heap p : preserves heap_same (load_VerifyConfig p).
Proof.
  intros w. unfold load_VerifyConfig.
  destruct p as [l|]; [destruct (verifyConfigs w !! l)|]; reflexivity.
Qed.

Lemma deref_heap {A} (p : option A) : preserves heap_same (deref p).
Proof. intros w. destruct p; reflexivity. Qed.

Lemma with_rand_heap {A} (f : Entropy -> A * Entropy) :
  preserves heap_same (with_rand f).
Proof.
  intros w. unfold with_rand. destruct (f (rand_Reader w)).
  repeat split; reflexivity.
Qed.

(** Allocation keeps every existing object. *)
Lemma new_SignConfig_kept c : preserves objects_kept (new_SignConfig c).
Proof.
  intros w. repeat split; simpl; auto using insert_fresh_kept.
Qed.

Lemma new_VerifyConfig_kept c : preserves objects_kept (new_VerifyConfig c).
Proof.
  intros w. repeat split; simpl; auto using insert_fresh_kept.
Qed.

Lemma new_Signer_kept s : preserves objects_kept (new_Signer s).
Proof.
  intros w. repeat split; simpl; auto using insert_fresh_kept.
Qed.

Lemma new_Verifier_kept v : preserves objects_kept (new_Verifier v).
Proof.
  intros w. repeat split; simpl; auto using insert_fresh_kept.
Qed.

Lemma new_SignConfig_structs c : preserves structs_same (new_SignConfig c).
Proof. intros w. split; reflexivity. Qed.

Lemma new_VerifyConfig_structs c :
  preserves structs_same (new_VerifyConfig c).
Proof. intros w. split; reflexivity. Qed.

(** A write through a configuration pointer touches no Signer and no
    Verifier struct. *)
Lemma update_SignConfig_structs p f :
  preserves structs_same (update_SignConfig p f).
Proof.
  intros w. unfold update_SignConfig, bind, load_SignConfig.
  destruct p as [l|]; [destruct (signConfigs w !! l)|]; split; reflexivity.
Qed.

Lemma update_VerifyConfig_structs p f :
  preserves structs_same (update_VerifyConfig p f).
Proof.
  intros w. unfold update_VerifyConfig, bind, load_VerifyConfig.
  destruct p as [l|]; [destruct (verifyConfigs w !! l)|]; split; reflexivity.
Qed.

Lemma assert_bytes_heap k : preserves heap_same (assert_bytes k).
Proof. intros w. destruct k; reflexivity. Qed.

Lemma assert_rsa_PrivateKey_heap k :
  preserves heap_same (assert_rsa_PrivateKey k).
Proof. intros w. destruct k; reflexivity. Qed.

Lemma assert_rsa_PublicKey_heap k :
  preserves heap_same (assert_rsa_PublicKey k).
Proof. intros w. destruct k; reflexivity. Qed.

Lemma assert_ecdsa_PrivateKey_heap k :
  preserves heap_same (assert_ecdsa_PrivateKey k).
Proof. intros w. destruct k; reflexivity. Qed.

Lemma assert_ecdsa_PublicKey_heap k :
  preserves heap_same (assert_ecdsa_PublicKey k).
Proof. intros w. destruct k; reflexivity. Qed.

Create HintDb frame discriminated.
#[local] Hint Resolve load_SignConfig_heap load_VerifyConfig_heap deref_heap
  with_rand_heap assert_bytes_heap assert_rsa_PrivateKey_heap
  assert_rsa_PublicKey_heap assert_ecdsa_PrivateKey_heap
  assert_ecdsa_PublicKey_heap new_SignConfig_kept new_VerifyConfig_kept
  new_Signer_kept new_Verifier_kept new_SignConfig_structs
  new_VerifyConfig_structs update_SignConfig_structs
  update_VerifyConfig_structs : frame.

(** Walk through a monadic body: binds, returns, panics, branches. *)
Ltac frame_step :=
  match goal with
  | |- preserves _ (ret _) => apply preserves_ret; apply _
  | |- preserves _ (panic _) => apply preserves_panic; apply _
  | |- preserves _ (bind _ _) => apply preserves_bind; [apply _| |intros ?]
  | |- preserves _ (void _) => apply preserves_void; [apply _|]
  | |- preserves _ (if ?b then _ else _) => destruct b
  | |- preserves _ (match ?x with _ => _ end) => destruct x
  | |- preserves _ _ => solve [auto with frame]
  end.

Ltac frame := repeat frame_step.

Lemma sign_heap (s : Signer) (buff : slice byte) :
  preserves heap_same (sign s buff).
Proof. unfold sign, ecdsaSignRaw. frame. Qed.

Lemma verify_heap (v : Verifier) (buff sig : slice byte) :
  preserves heap_same (verify v buff sig).
Proof. unfold verify, ecdsaVerifyRaw. frame. Qed.

(** [verify] does not read [rand.Reader] either: the store is the same. *)
Lemma verify_store (v : Verifier) (buff sig : slice byte) (w : World) :
  snd (verify v buff sig w) = w.
Proof.
  unfold verify, ecdsaVerifyRaw.
  repeat match goal with
  | |- context [String.eqb ?a ?b] => destruct (String.eqb a b)
  end; try reflexivity;
    destruct (v_key v) as [|?|?|[?|]|?|[?|]|]; try reflexivity; cbn.
  - now destruct (rsa_VerifyPKCS1v15 _ _ _ _).
  - now destruct (rsa_VerifyPSS _ _ _ _).
  - unfold bind; cbn. now destruct (len sig =? 64)%Z.
Qed.

Lemma config_setter_structs (op : CoreOp) :
  is_config_setter op = true -> preserves structs_same (exec op).
Proof.
  destruct op; simpl; try discriminate; intros _;
    unfold SignConfig_SignAlg, SignConfig_SignCreated,
      SignConfig_setFakeCreated, SignConfig_SetExpires, SignConfig_SetNonce,
      SignConfig_SetRequestResponse, VerifyConfig_SetNotNewerThan,
      VerifyConfig_SetNotOlderThan, VerifyConfig_SetVerifyCreated,
      VerifyConfig_SetRejectExpired, VerifyConfig_SetAllowedAlgs,
      VerifyConfig_SetRequestResponse, VerifyConfig_SetVerifyKeyID,
      VerifyConfig_SetVerifyDateWithin; frame.
Qed.

Lemma other_ops_objects_kept (op : CoreOp) :
  is_config_setter op = false -> preserves objects_kept (exec op).
Proof.
  destruct op; simpl; try discriminate; intros _;
    try (apply preserves_void; [apply _|];
         apply (preserves_weaken heap_same);
           [apply heap_same_objects_kept|];
         first [apply sign_heap|apply verify_heap]);
    unfold NewSignConfig, NewVerifyConfig, NewHMACSHA256Signer, NewRSASigner,
      NewRSAPSSSigner, NewP256Signer, NewHMACSHA256Verifier, NewRSAVerifier,
      NewRSAPSSVerifier, NewP256Verifier, SignConfig_or_default,
      VerifyConfig_or_default, NewSignConfig, NewVerifyConfig; frame.
Qed.

Lemma sign_or_verify_heap (op : CoreOp) :
  is_sign_or_verify op = true -> preserves heap_same (exec op).
Proof.
  destruct op; simpl; try discriminate; intros _;
    apply preserves_void; try apply _;
    first [apply sign_heap|apply verify_heap].
Qed.

Lemma Signer_view_kept (w w' : World) l x :
  objects_kept w w' -> Signer_view w l = Some x -> Signer_view w' l = Some x.
Proof.
  intros (Hsc & _ & Hs & _). unfold Signer_view.
  destruct (signers w !! l) as [s|] eqn:Es; [|discriminate].
  rewrite (Hs _ _ Es).
  destruct (s_config s) as [c|]; [|auto].
  destruct (signConfigs w !! c) as [cfg|] eqn:Ec; [|discriminate].
  now rewrite (Hsc _ _ Ec).
Qed.

Lemma config_of_Signer_Some (w : World) l c :
  config_of_Signer w l = Some c ->
  exists s, Signer_view w l = Some (s, Some c).
Proof.
  unfold config_of_Signer.
  destruct (Signer_view w l) as [[s o]|]; [|discriminate].
  intros ->. now exists s.
Qed.

Lemma Verifier_view_kept (w w' : World) l x :
  objects_kept w w' ->
  Verifier_view w l = Some x -> Verifier_view w' l = Some x.
Proof.
  intros (_ & Hvc & _ & Hv). unfold Verifier_view.
  destruct (verifiers w !! l) as [v|] eqn:Ev; [|discriminate].
  rewrite (Hv _ _ Ev).
  destruct (v_c v) as [c|]; [|auto].
  destruct (verifyConfigs w !! c) as [cfg|] eqn:Ec; [|discriminate].
  now rewrite (Hvc _ _ Ec).
Qed.

(** C6 (amended): no operation of the core changes a field of an existing
    Signer or Verifier struct; [sign] and [verify] change nothing in the
    heap at all, so the Signer, the Verifier and the configurations they
    point to are as before; and every operation other than the setters of
    SignConfig and VerifyConfig leaves each existing Signer and Verifier
    unchanged together with the configuration it points to. *)
Theorem operations_frame (op : CoreOp) (w : World) (l : loc) :
  let w' := snd (exec op w) in
  (forall s, signers w !! l = Some s -> signers w' !! l = Some s) /\
  (forall v, verifiers w !! l = Some v -> verifiers w' !! l = Some v) /\
  (is_sign_or_verify op = true -> heap_same w w') /\
  (is_config_setter op = false ->
   (forall x, Signer_view w l = Some x -> Signer_view w' l = Some x) /\
   (forall x, Verifier_view w l = Some x -> Verifier_view w' l = Some x)).
Proof.
  intros w'.
  assert (Hstructs :
    (forall l s, signers w !! l = Some s -> signers w' !! l = Some s) /\
    (forall l v, verifiers w !! l = Some v -> verifiers w' !! l = Some v)).
  { destruct (is_config_setter op) eqn:E.
    - destruct (config_setter_structs op E w) as [Hs Hv].
      fold w' in Hs, Hv. rewrite Hs, Hv. auto.
    - destruct (other_ops_objects_kept op E w) as (_ & _ & Hs & Hv). auto. }
  destruct Hstructs as [Hs Hv].
  split; [apply Hs|]. split; [apply Hv|].
  split; [intros E; apply (sign_or_verify_heap op E w)|].
  intros E. pose proof (other_ops_objects_kept op E w) as Hk. fold w' in Hk.
  split; intros x; [apply Signer_view_kept|apply Verifier_view_kept]; exact Hk.
Qed.

(** ** The constructors, in full *)

(** [NewHMACSHA256Signer]: a nil or short key gives the length message,
    whatever the keyID is; with a good key an empty keyID gives the keyID
    message; otherwise the Signer is allocated, and nothing else changes
    but a default configuration when nil was passed. *)
Lemma NewHMACSHA256Signer_outcome (keyID : string) (key : slice byte)
  (config : ptr) (fields : Fields) (w : World) :
  if is_nil key || (len key <? 64)%Z then
    returns_error (NewHMACSHA256Signer keyID key config fields w) w
      "key must be at least 64 bytes long"
  else if keyID =? EmptyString then
    returns_error (NewHMACSHA256Signer keyID key config fields w) w
      "keyID must not be empty"
  else
    Signer_constructed (NewHMACSHA256Signer keyID key config fields w) w
      config
      (fun p => {| s_keyID := keyID; s_key := KeyBytes key;
                   s_alg := "hmac-sha256"; s_config := p;
                   s_fields := fields |}).
Proof.
  unfold NewHMACSHA256Signer.
  destruct (is_nil key || (len key <? 64)%Z); [reflexivity|].
  destruct (keyID =? EmptyString); [reflexivity|].
  apply new_Signer_after_config.
Qed.

(** [NewRSASigner], [NewRSAPSSSigner] and [NewP256Signer]: a nil key gives
    "key must not be nil", then an empty keyID gives "keyID must not be
    empty", and in both cases the store is untouched; otherwise the Signer
    is allocated with the algorithm of the constructor. *)
Lemma pointer_key_Signer_outcome :
  pointer_key_Signer_spec (Fields := Fields) NewRSASigner KeyRSAPrivate "rsa-v1_5-sha256" /\
  pointer_key_Signer_spec (Fields := Fields) NewRSAPSSSigner KeyRSAPrivate "rsa-pss-sha512" /\
  pointer_key_Signer_spec (Fields := Fields) NewP256Signer KeyECDSAPrivate "ecdsa-p256-sha256".
Proof.
  repeat split; intros keyID [k|] config fields w; try reflexivity;
    unfold NewRSASigner, NewRSAPSSSigner, NewP256Signer, is_nil;
    (destruct (keyID =? EmptyString); [reflexivity|]);
    apply new_Signer_after_config.
Qed.

(** [NewHMACSHA256Verifier]: a nil key gives "key must not be nil", a
    non-nil key of fewer than 64 bytes gives the length message, and any
    keyID is accepted. *)
Lemma NewHMACSHA256Verifier_outcome (keyID : string) (key : slice byte)
  (config : ptr) (fields : Fields) (w : World) :
  match key with
  | None =>
      returns_error (NewHMACSHA256Verifier keyID key config fields w) w
        "key must not be nil"
  | Some b =>
      if (len key <? 64)%Z then
        returns_error (NewHMACSHA256Verifier keyID key config fields w) w
          "key must be at least 64 bytes long"
      else
        Verifier_constructed
          (NewHMACSHA256Verifier keyID key config fields w) w config
          (fun p => {| v_keyID := keyID; v_key := KeyBytes key;
                       v_alg := "hmac-sha256"; v_c := p; v_f := fields |})
  end.
Proof.
  unfold NewHMACSHA256Verifier. destruct key as [b|]; [|reflexivity].
  unfold is_nil. destruct (len (Some b) <? 64)%Z; [reflexivity|].
  apply new_Verifier_after_config.
Qed.

(** [NewRSAVerifier], [NewRSAPSSVerifier] and [NewP256Verifier]: the only
    error is "key must not be nil"; with a key the Verifier is allocated
    with the algorithm of the constructor and the keyID as given. *)
Lemma pointer_key_Verifier_outcome :
  pointer_key_Verifier_spec (Fields := Fields) NewRSAVerifier KeyRSAPublic "rsa-v1_5-sha256" /\
  pointer_key_Verifier_spec (Fields := Fields) NewRSAPSSVerifier KeyRSAPublic "rsa-pss-sha512" /\
  pointer_key_Verifier_spec (Fields := Fields) NewP256Verifier
    KeyECDSAPublic
    "ecdsa-p256-sha256".
Proof.
  repeat split; intros keyID [k|] config fields w; try reflexivity;
    unfold NewRSAVerifier, NewRSAPSSVerifier, NewP256Verifier, is_nil;
    apply new_Verifier_after_config.
Qed.

(** ** The invariant of the store *)

#[local] Instance configs_kept_allocated_preorder :
  PreOrder (@configs_kept_allocated Fields _).
Proof.
  split.
  - intros w. repeat split; auto.
  - intros w1 w2 w3 (A1 & B1 & C1 & D1) (A2 & B2 & C2 & D2).
    repeat split; [congruence|congruence|auto|auto].
Qed.

Lemma heap_same_configs_kept_allocated (w w' : World) :
  heap_same w w' -> configs_kept_allocated w w'.
Proof.
  intros (A & B & C & D). unfold configs_kept_allocated.
  rewrite A, B. auto.
Qed.

Lemma insert_is_Some_kept {V} (m : gmap positive V) l (x : V) c :
  is_Some (m !! c) -> is_Some (<[l := x]> m !! c).
Proof.
  intros Hc. apply lookup_insert_is_Some.
  destruct (decide (l = c)); auto.
Qed.

Lemma update_SignConfig_alloc p f :
  preserves (@configs_kept_allocated Fields _) (update_SignConfig p f).
Proof.
  intros w. unfold update_SignConfig, bind, load_SignConfig.
  destruct p as [l|]; [destruct (signConfigs w !! l)|];
    repeat split; simpl; auto using insert_is_Some_kept.
Qed.

Lemma update_VerifyConfig_alloc p f :
  preserves (@configs_kept_allocated Fields _) (update_VerifyConfig p f).
Proof.
  intros w. unfold update_VerifyConfig, bind, load_VerifyConfig.
  destruct p as [l|]; [destruct (verifyConfigs w !! l)|];
    repeat split; simpl; auto using insert_is_Some_kept.
Qed.

Lemma new_SignConfig_alloc c :
  preserves (@configs_kept_allocated Fields _) (new_SignConfig c).
Proof.
  intros w. repeat split; simpl; auto using insert_is_Some_kept.
Qed.

Lemma new_VerifyConfig_alloc c :
  preserves (@configs_kept_allocated Fields _) (new_VerifyConfig c).
Proof.
  intros w. repeat split; simpl; auto using insert_is_Some_kept.
Qed.

#[local] Hint Resolve update_SignConfig_alloc update_VerifyConfig_alloc
  new_SignConfig_alloc new_VerifyConfig_alloc : frame.

Lemma non_constructor_alloc (op : CoreOp) :
  is_constructor op = false ->
  preserves (@configs_kept_allocated Fields _) (exec op).
Proof.
  destruct op; simpl; try discriminate; intros _;
    try (apply preserves_void; [apply _|];
         apply (preserves_weaken heap_same);
           [apply heap_same_configs_kept_allocated|];
         first [apply sign_heap|apply verify_heap]);
    unfold NewSignConfig, NewVerifyConfig,
      SignConfig_SignAlg, SignConfig_SignCreated,
      SignConfig_setFakeCreated, SignConfig_SetExpires, SignConfig_SetNonce,
      SignConfig_SetRequestResponse, VerifyConfig_SetNotNewerThan,
      VerifyConfig_SetNotOlderThan, VerifyConfig_SetVerifyCreated,
      VerifyConfig_SetRejectExpired, VerifyConfig_SetAllowedAlgs,
      VerifyConfig_SetRequestResponse, VerifyConfig_SetVerifyKeyID,
      VerifyConfig_SetVerifyDateWithin; frame.
Qed.

Lemma World_wf_configs_kept_allocated (w w' : World) :
  configs_kept_allocated w w' -> World_wf w -> World_wf w'.
Proof.
  intros (Hs & Hv & Hsc & Hvc) [Hws Hwv]. split.
  - intros l s Hl. rewrite Hs in Hl.
    destruct (Hws l s Hl) as (Hwf & c & Hc & Ha). eauto.
  - intros l v Hl. rewrite Hv in Hl.
    destruct (Hwv l v Hl) as (Hwf & c & Hc & Ha). eauto.
Qed.

Lemma SignConfig_stored_allocated (config : ptr) (w w' : World) (p : ptr) :
  SignConfig_stored config w w' p -> valid_SignConfig_ptr w config ->
  (exists c, p = Some c /\ is_Some (signConfigs w' !! c)) /\
  (forall c, is_Some (signConfigs w !! c) -> is_Some (signConfigs w' !! c)).
Proof.
  destruct config as [c|]; simpl.
  - intros [-> ->] Hc. eauto.
  - intros (c & -> & _ & ->) _. split.
    + exists c. split; [reflexivity|]. rewrite lookup_insert_eq. eauto.
    + intros c'. apply insert_is_Some_kept.
Qed.

Lemma VerifyConfig_stored_allocated (config : ptr) (w w' : World)
  (p : ptr) :
  VerifyConfig_stored config w w' p -> valid_VerifyConfig_ptr w config ->
  (exists c, p = Some c /\ is_Some (verifyConfigs w' !! c)) /\
  (forall c,
     is_Some (verifyConfigs w !! c) -> is_Some (verifyConfigs w' !! c)).
Proof.
  destruct config as [c|]; simpl.
  - intros [-> ->] Hc. eauto.
  - intros (c & -> & _ & ->) _. split.
    + exists c. split; [reflexivity|]. rewrite lookup_insert_eq. eauto.
    + intros c'. apply insert_is_Some_kept.
Qed.

Lemma Signer_constructed_wf r (w : World) config (mk : ptr -> Signer) :
  Signer_constructed r w config mk ->
  World_wf w -> valid_SignConfig_ptr w config ->
  (forall p, Signer_wf (mk p)) -> (forall p, s_config (mk p) = p) ->
  World_wf (snd r).
Proof.
  intros (l & p & w' & -> & Hfresh & Hs & Hst & Hvc & Hv & _) [Hws Hwv]
    Hvalid Hwf Hcfg. simpl.
  destruct (SignConfig_stored_allocated _ _ _ _ Hst Hvalid)
    as [(c & -> & Hc) Hkept].
  split.
  - intros l' s Hl. rewrite Hs in Hl.
    destruct (decide (l = l')) as [->|Hne].
    + rewrite lookup_insert_eq in Hl. injection Hl as <-.
      split; [apply Hwf|]. exists c. rewrite Hcfg. auto.
    + rewrite lookup_insert_ne in Hl by exact Hne.
      destruct (Hws l' s Hl) as (Hwf' & c' & Hc' & Ha). eauto.
  - intros l' v Hl. rewrite Hv in Hl. rewrite Hvc. eauto.
Qed.

Lemma Verifier_constructed_wf r (w : World) config (mk : ptr -> Verifier) :
  Verifier_constructed r w config mk ->
  World_wf w -> valid_VerifyConfig_ptr w config ->
  (forall p, Verifier_wf (mk p)) -> (forall p, v_c (mk p) = p) ->
  World_wf (snd r).
Proof.
  intros (l & p & w' & -> & Hfresh & Hv & Hst & Hsc & Hs & _) [Hws Hwv]
    Hvalid Hwf Hcfg. simpl.
  destruct (VerifyConfig_stored_allocated _ _ _ _ Hst Hvalid)
    as [(c & -> & Hc) Hkept].
  split.
  - intros l' s Hl. rewrite Hs in Hl. rewrite Hsc. eauto.
  - intros l' v Hl. rewrite Hv in Hl.
    destruct (decide (l = l')) as [->|Hne].
    + rewrite lookup_insert_eq in Hl. injection Hl as <-.
      split; [apply Hwf|]. exists c. rewrite Hcfg. auto.
    + rewrite lookup_insert_ne in Hl by exact Hne.
      destruct (Hwv l' v Hl) as (Hwf' & c' & Hc' & Ha). eauto.
Qed.

Lemma snd_void {A} (m : M A) (w : World) : snd (void m w) = snd (m w).
Proof. unfold void, bind. now destruct (m w) as [[a|msg] w']. Qed.

Lemma returns_error_snd r (w : World) msg : returns_error r w msg -> snd r = w.
Proof. now intros ->. Qed.

Lemma eqb_EmptyString_false (x : string) :
  (x =? EmptyString) = false -> x <> EmptyString.
Proof. apply String.eqb_neq. Qed.

(** Each operation keeps the invariant. *)
Lemma exec_preserves_World_wf (op : CoreOp) (w : World) :
  World_wf w -> op_valid w op -> World_wf (snd (exec op w)).
Proof.
  intros Hwf Hvalid.
  destruct (is_constructor op) eqn:Ec.
  2: { apply (World_wf_configs_kept_allocated w); [|exact Hwf].
       apply (non_constructor_alloc op Ec w). }
  destruct op; simpl in Ec; try discriminate; clear Ec;
    simpl in Hvalid; simpl exec; rewrite snd_void.
  - pose proof (NewHMACSHA256Signer_outcome keyID key config fields w) as Hc.
    destruct (is_nil key || (len key <? 64)%Z) eqn:Ek;
      [now rewrite (returns_error_snd _ _ _ Hc)|].
    destruct (keyID =? EmptyString) eqn:Ei;
      [now rewrite (returns_error_snd _ _ _ Hc)|].
    apply (Signer_constructed_wf _ w config _ Hc Hwf Hvalid); [|reflexivity].
    intros p. split; [now apply eqb_EmptyString_false|]. simpl.
    apply orb_false_iff in Ek as [Ek1 Ek2].
    destruct key as [b|]; [|discriminate]. split; [reflexivity|].
    now apply Z.ltb_ge.
  - destruct pointer_key_Signer_outcome as (Hc & _ & _).
    specialize (Hc keyID key config fields w).
    destruct key as [k|]; [|now rewrite (returns_error_snd _ _ _ Hc)].
    destruct (keyID =? EmptyString) eqn:Ei;
      [now rewrite (returns_error_snd _ _ _ Hc)|].
    apply (Signer_constructed_wf _ w config _ Hc Hwf Hvalid); [|reflexivity].
    intros p. split; [now apply eqb_EmptyString_false|]. simpl. auto.
  - destruct pointer_key_Signer_outcome as (_ & Hc & _).
    specialize (Hc keyID key config fields w).
    destruct key as [k|]; [|now rewrite (returns_error_snd _ _ _ Hc)].
    destruct (keyID =? EmptyString) eqn:Ei;
      [now rewrite (returns_error_snd _ _ _ Hc)|].
    apply (Signer_constructed_wf _ w config _ Hc Hwf Hvalid); [|reflexivity].
    intros p. split; [now apply eqb_EmptyString_false|]. simpl. auto.
  - destruct pointer_key_Signer_outcome as (_ & _ & Hc).
    specialize (Hc keyID key config fields w).
    destruct key as [k|]; [|now rewrite (returns_error_snd _ _ _ Hc)].
    destruct (keyID =? EmptyString) eqn:Ei;
      [now rewrite (returns_error_snd _ _ _ Hc)|].
    apply (Signer_constructed_wf _ w config _ Hc Hwf Hvalid); [|reflexivity].
    intros p. split; [now apply eqb_EmptyString_false|]. simpl. auto.
  - pose proof (NewHMACSHA256Verifier_outcome keyID key config fields w) as Hc.
    destruct key as [b|]; [|now rewrite (returns_error_snd _ _ _ Hc)].
    destruct (len (Some b) <? 64)%Z eqn:Ek;
      [now rewrite (returns_error_snd _ _ _ Hc)|].
    apply (Verifier_constructed_wf _ w config _ Hc Hwf Hvalid);
      [|reflexivity].
    intros p. red. simpl. split; [reflexivity|]. now apply Z.ltb_ge.
  - destruct pointer_key_Verifier_outcome as (Hc & _ & _).
    specialize (Hc keyID key config fields w).
    destruct key as [k|]; [|now rewrite (returns_error_snd _ _ _ Hc)].
    apply (Verifier_constructed_wf _ w config _ Hc Hwf Hvalid);
      [|reflexivity].
    intros p. red. simpl. auto.
  - destruct pointer_key_Verifier_outcome as (_ & Hc & _).
    specialize (Hc keyID key config fields w).
    destruct key as [k|]; [|now rewrite (returns_error_snd _ _ _ Hc)].
    apply (Verifier_constructed_wf _ w config _ Hc Hwf Hvalid);
      [|reflexivity].
    intros p. red. simpl. auto.
  - destruct pointer_key_Verifier_outcome as (_ & _ & Hc).
    specialize (Hc keyID key config fields w).
    destruct key as [k|]; [|now rewrite (returns_error_snd _ _ _ Hc)].
    apply (Verifier_constructed_wf _ w config _ Hc Hwf Hvalid);
      [|reflexivity].
    intros p. red. simpl. auto.
Qed.

(** In every store a program reaches from an empty heap through the
    functions of the package, each Signer and each Verifier has the key
    type of its algorithm behind a non-nil pointer (at least 64 bytes for
    HMAC), each Signer has a non-empty keyID, and each points to a
    configuration that exists. *)
Lemma reachable_wf (w : World) : reachable w -> World_wf w.
Proof.
  induction 1 as [w (Hsc & Hvc & Hs & Hv)|w op _ IH Hvalid].
  - split; intros l x Hl; [rewrite Hs in Hl|rewrite Hv in Hl];
      rewrite lookup_empty in Hl; discriminate.
  - now apply exec_preserves_World_wf.
Qed.

(** ** sign and verify on every branch *)

Lemma sign_rsa (s : Signer) (k : rsa_PrivateKey) (buff : slice byte)
  (w : World) :
  s_alg s = "rsa-v1_5-sha256" -> s_key s = KeyRSAPrivate (Some k) ->
  sign s buff w =
    (Ok match rsa_SignPKCS1v15 k crypto_SHA256
                (sha256_Sum256 (elems buff)) with
        | inl sig => (Some sig, nil_error)
        | inr _ => (None, Some "RSA signature failed")
        end, w).
Proof.
  intros Ha Hk. unfold sign. rewrite Ha, Hk. cbn.
  now destruct (rsa_SignPKCS1v15 _ _ _).
Qed.

Lemma sign_rsa_pss (s : Signer) (k : rsa_PrivateKey) (buff : slice byte)
  (w : World) :
  s_alg s = "rsa-pss-sha512" -> s_key s = KeyRSAPrivate (Some k) ->
  sign s buff w =
    (Ok match fst (rsa_SignPSS (rand_Reader w) k crypto_SHA512
                     (sha512_Sum512 (elems buff))) with
        | inl sig => (Some sig, nil_error)
        | inr _ => (None, Some "RSA-PSS signature failed")
        end,
     with_rand_Reader
       (snd (rsa_SignPSS (rand_Reader w) k crypto_SHA512
               (sha512_Sum512 (elems buff)))) w).
Proof.
  intros Ha Hk. unfold sign. rewrite Ha, Hk. cbn.
  unfold bind, with_rand.
  now destruct (rsa_SignPSS _ _ _ _) as [[sig|msg] e'].
Qed.

Lemma sign_returns (s : Signer) (buff : slice byte) (w : World) :
  Signer_wf s -> s_alg s <> "ecdsa-p256-sha256" ->
  exists r w', sign s buff w = (Ok r, w').
Proof.
  intros [_ Hk] Hne.
  destruct (s_key s) as [|[b|]|[k|]|?|[k|]|?|] eqn:Ek; try contradiction.
  - destruct Hk as [Ha _]. rewrite (sign_hmac s (Some b) buff w Ha Ek). eauto.
  - destruct Hk as [Ha|Ha].
    + rewrite (sign_rsa s k buff w Ha Ek). eauto.
    + rewrite (sign_rsa_pss s k buff w Ha Ek). eauto.
Qed.

Lemma verify_returns (v : Verifier) (buff sig : slice byte) (w : World) :
  Verifier_wf v -> v_alg v <> "ecdsa-p256-sha256" ->
  exists r, verify v buff sig w = (Ok r, w).
Proof.
  unfold Verifier_wf. intros Hk Hne.
  destruct (v_key v) as [|[b|]|?|[k|]|?|[k|]|] eqn:Ek; try contradiction.
  - destruct Hk as [Ha _].
    rewrite (verify_hmac v (Some b) buff sig w Ha Ek). eauto.
  - destruct Hk as [Ha|Ha].
    + rewrite (verify_rsa v k buff sig w Ha Ek). eauto.
    + rewrite (verify_rsa_pss v k buff sig w Ha Ek). eauto.
Qed.

Lemma sign_wrong_key (s : Signer) (buff : slice byte) (w : World) :
  (s_alg s = "hmac-sha256" -> (forall b, s_key s <> KeyBytes b) ->
   sign s buff w = (Panic interface_conversion, w)) /\
  (s_alg s = "rsa-v1_5-sha256" \/ s_alg s = "rsa-pss-sha512" ->
   (forall k, s_key s <> KeyRSAPrivate k) ->
   sign s buff w = (Panic interface_conversion, w)) /\
  (s_alg s = "ecdsa-p256-sha256" ->
   (forall k, s_key s <> KeyECDSAPrivate k) ->
   sign s buff w = (Panic interface_conversion, w)).
Proof.
  unfold sign. repeat split.
  - intros -> Hk. cbn. destruct (s_key s); try reflexivity. now destruct (Hk k).
  - intros [-> | ->] Hk; cbn;
      (destruct (s_key s); try reflexivity; now destruct (Hk k)).
  - intros -> Hk. cbn. destruct (s_key s); try reflexivity. now destruct (Hk k).
Qed.

Lemma verify_wrong_key (v : Verifier) (buff sig : slice byte) (w : World) :
  (v_alg v = "hmac-sha256" -> (forall b, v_key v <> KeyBytes b) ->
   verify v buff sig w = (Panic interface_conversion, w)) /\
  (v_alg v = "rsa-v1_5-sha256" \/ v_alg v = "rsa-pss-sha512" ->
   (forall k, v_key v <> KeyRSAPublic k) ->
   verify v buff sig w = (Panic interface_conversion, w)) /\
  (v_alg v = "ecdsa-p256-sha256" ->
   (forall k, v_key v <> KeyECDSAPublic k) ->
   verify v buff sig w = (Panic interface_conversion, w)).
Proof.
  unfold verify. repeat split.
  - intros -> Hk. cbn. destruct (v_key v); try reflexivity. now destruct (Hk k).
  - intros [-> | ->] Hk; cbn;
      (destruct (v_key v); try reflexivity; now destruct (Hk k)).
  - intros -> Hk. cbn. destruct (v_key v); try reflexivity. now destruct (Hk k).
Qed.

(** The branches of [sign] other than ECDSA, one by one. *)
Ltac sign_branches s :=
  unfold sign;
  repeat match goal with
  | |- context [String.eqb (s_alg s) ?b] =>
      destruct (String.eqb_spec (s_alg s) b)
  end.

Lemma sign_result_shape (s : Signer) (buff : slice byte) (w w' : World)
  (sig : slice byte) (err : error) :
  s_alg s <> "ecdsa-p256-sha256" ->
  sign s buff w = (Ok (sig, err), w') ->
  (err = None <-> sig <> None).
Proof.
  intros Hne. unfold nil_error, fmt_Errorf.
  sign_branches s; unfold nil_error, fmt_Errorf; try contradiction.
  - destruct (s_key s); cbn; intros [= <- <- _] || discriminate.
    split; congruence.
  - destruct (s_key s) as [|?|[k|]|?|?|?|]; cbn; try discriminate.
    destruct (rsa_SignPKCS1v15 _ _ _); intros [= <- <- _]; split; congruence.
  - destruct (s_key s) as [|?|[k|]|?|?|?|]; cbn; try discriminate.
    unfold bind, with_rand.
    destruct (rsa_SignPSS _ _ _ _) as [[?|?] ?]; intros [= <- <- _];
      split; congruence.
  - intros [= <- <- _]. split; congruence.
Qed.

Lemma verify_result_shape (v : Verifier) (buff sig : slice byte)
  (w w' : World) (ok : bool) (err : error) :
  v_alg v <> "ecdsa-p256-sha256" ->
  verify v buff sig w = (Ok (ok, err), w') ->
  (ok = true -> err = None) /\ (err <> None -> ok = false).
Proof.
  intros Hne. unfold verify, nil_error, fmt_Errorf.
  repeat match goal with
  | |- context [String.eqb (v_alg v) ?b] =>
      destruct (String.eqb_spec (v_alg v) b)
  end; try contradiction.
  - destruct (v_key v); cbn; intros [= <- <- _] || discriminate.
    split; congruence.
  - destruct (v_key v) as [|?|?|[k|]|?|?|]; cbn; try discriminate.
    destruct (rsa_VerifyPKCS1v15 _ _ _ _); intros [= <- <- _];
      split; congruence.
  - destruct (v_key v) as [|?|?|[k|]|?|?|]; cbn; try discriminate.
    destruct (rsa_VerifyPSS _ _ _ _); intros [= <- <- _]; split; congruence.
  - intros [= <- <- _]. split; congruence.
Qed.

Lemma verify_hmac_accepts_iff (v : Verifier) (k buff sig : slice byte)
  (w : World) :
  v_alg v = "hmac-sha256" -> v_key v = KeyBytes k ->
  (verify v buff sig w = (Ok (true, nil_error), w) <->
   elems sig = hmac_sha256 (elems k) (elems buff)).
Proof.
  intros Ha Hk. rewrite (verify_hmac v k buff sig w Ha Hk). split.
  - intros [= E]. apply bytes_Equal_true in E. simpl in E. congruence.
  - intros E. replace (bytes_Equal _ _) with true; [reflexivity|].
    symmetry. apply bytes_Equal_true. simpl. congruence.
Qed.

Lemma sign_store_unchanged (s : Signer) (buff : slice byte) (w : World) :
  s_alg s = "hmac-sha256" \/ s_alg s = "rsa-v1_5-sha256" ->
  snd (sign s buff w) = w.
Proof.
  unfold sign. intros [-> | ->]; cbn.
  - now destruct (s_key s).
  - destruct (s_key s) as [|?|[k|]|?|?|?|]; cbn; try reflexivity.
    now destruct (rsa_SignPKCS1v15 _ _ _).
Qed.

(** ** The setters *)

Lemma exec_setter (op : CoreOp) (wr : config_write) (w : World) :
  setter_write op = Some wr ->
  exec op w = run_write (setter_ptr op) wr w.
Proof.
  destruct op; simpl; try discriminate; intros [= <-];
    unfold SignConfig_SignAlg, SignConfig_SignCreated,
      SignConfig_setFakeCreated, SignConfig_SetExpires, SignConfig_SetNonce,
      SignConfig_SetRequestResponse, VerifyConfig_SetNotNewerThan,
      VerifyConfig_SetNotOlderThan, VerifyConfig_SetVerifyCreated,
      VerifyConfig_SetRejectExpired, VerifyConfig_SetAllowedAlgs,
      VerifyConfig_SetRequestResponse, VerifyConfig_SetVerifyKeyID,
      VerifyConfig_SetVerifyDateWithin, void, run_write;
    unfold bind at 1 2;
    match goal with
    | |- context [update_SignConfig ?p ?f w] =>
        destruct (update_SignConfig p f w) as [[[]|msg] w']
    | |- context [update_VerifyConfig ?p ?f w] =>
        destruct (update_VerifyConfig p f w) as [[[]|msg] w']
    end; reflexivity.
Qed.

Lemma setter_write_field (op : @CoreOp Fields _) :
  match setter_field op, setter_write op with
  | Some f, Some (WriteSign _) => Nat.ltb f 10 = true
  | Some f, Some (WriteVerify _) => Nat.ltb f 10 = false
  | None, None => True
  | _, _ => False
  end.
Proof. destruct op; simpl; auto. Qed.

Lemma update_SignConfig_allocated l c f (w : World) :
  signConfigs w !! l = Some c ->
  update_SignConfig (Some l) f w
  = (Ok tt, with_signConfigs (<[l := f c]> (signConfigs w)) w).
Proof.
  intros E. unfold update_SignConfig, bind, load_SignConfig.
  rewrite E. reflexivity.
Qed.

Lemma update_VerifyConfig_allocated l c f (w : World) :
  verifyConfigs w !! l = Some c ->
  update_VerifyConfig (Some l) f w
  = (Ok tt, with_verifyConfigs (<[l := f c]> (verifyConfigs w)) w).
Proof.
  intros E. unfold update_VerifyConfig, bind, load_VerifyConfig.
  rewrite E. reflexivity.
Qed.

Lemma update_SignConfig_nil f (w : World) :
  update_SignConfig None f w = (Panic nil_dereference, w).
Proof. reflexivity. Qed.

Lemma update_VerifyConfig_nil f (w : World) :
  update_VerifyConfig None f w = (Panic nil_dereference, w).
Proof. reflexivity. Qed.

Lemma writes_commute (op1 op2 : @CoreOp Fields _) :
  setter_field op1 <> setter_field op2 ->
  match setter_write op1, setter_write op2 with
  | Some (WriteSign f), Some (WriteSign g) => forall x, f (g x) = g (f x)
  | Some (WriteVerify f), Some (WriteVerify g) => forall x, f (g x) = g (f x)
  | _, _ => True
  end.
Proof.
  destruct op1, op2; simpl; intros Hne; try exact I; try congruence;
    intros x; reflexivity.
Qed.

Lemma writes_overwrite (op1 op2 : @CoreOp Fields _) :
  setter_field op1 = setter_field op2 ->
  match setter_write op1, setter_write op2 with
  | Some (WriteSign f), Some (WriteSign g) => forall x, g (f x) = g x
  | Some (WriteVerify f), Some (WriteVerify g) => forall x, g (f x) = g x
  | _, _ => True
  end.
Proof.
  destruct op1, op2; simpl; intros He; try exact I; try discriminate;
    intros x; reflexivity.
Qed.

(** What [receiver_allocated] says, case by case. *)
Lemma receiver_allocated_inv (w : World) (op : CoreOp) :
  receiver_allocated w op ->
  exists l,
    setter_ptr op = Some l /\
    ((exists f c, setter_write op = Some (WriteSign f) /\
                  is_SignConfig_setter op = true /\
                  signConfigs w !! l = Some c) \/
     (exists f c, setter_write op = Some (WriteVerify f) /\
                  is_SignConfig_setter op = false /\
                  verifyConfigs w !! l = Some c)).
Proof.
  unfold receiver_allocated, is_SignConfig_setter.
  pose proof (setter_write_field op) as Hf.
  destruct (setter_field op) as [n|]; [|contradiction].
  destruct (setter_ptr op) as [l|]; [|contradiction].
  destruct (setter_write op) as [[f|f]|]; [| |contradiction];
    rewrite Hf; intros [c Hc]; exists l; split; eauto 8.
Qed.

Lemma with_signConfigs_twice m m' (w : World) :
  with_signConfigs m' (with_signConfigs m w) = with_signConfigs m' w.
Proof. reflexivity. Qed.

Lemma with_verifyConfigs_twice m m' (w : World) :
  with_verifyConfigs m' (with_verifyConfigs m w) = with_verifyConfigs m' w.
Proof. reflexivity. Qed.

(** Two writes one after the other, both receivers allocated. *)
Lemma two_updates_SignConfig l1 c1 f l2 g (w : World) :
  signConfigs w !! l1 = Some c1 ->
  (let* _ := update_SignConfig (Some l1) f in
   update_SignConfig (Some l2) g) w
  = update_SignConfig (Some l2) g
      (with_signConfigs (<[l1 := f c1]> (signConfigs w)) w).
Proof.
  intros E. unfold bind at 1.
  now rewrite (update_SignConfig_allocated l1 c1 f w E).
Qed.

Lemma two_updates_VerifyConfig l1 c1 f l2 g (w : World) :
  verifyConfigs w !! l1 = Some c1 ->
  (let* _ := update_VerifyConfig (Some l1) f in
   update_VerifyConfig (Some l2) g) w
  = update_VerifyConfig (Some l2) g
      (with_verifyConfigs (<[l1 := f c1]> (verifyConfigs w)) w).
Proof.
  intros E. unfold bind at 1.
  now rewrite (update_VerifyConfig_allocated l1 c1 f w E).
Qed.

Lemma run_writes_commute l1 wr1 l2 wr2 (w : World) :
  match wr1, wr2 with
  | WriteSign f, WriteSign g =>
      exists c1 c2, signConfigs w !! l1 = Some c1 /\
                    signConfigs w !! l2 = Some c2 /\
                    (l1 <> l2 \/ forall x, f (g x) = g (f x))
  | WriteVerify f, WriteVerify g =>
      exists c1 c2, verifyConfigs w !! l1 = Some c1 /\
                    verifyConfigs w !! l2 = Some c2 /\
                    (l1 <> l2 \/ forall x, f (g x) = g (f x))
  | WriteSign _, WriteVerify _ =>
      is_Some (signConfigs w !! l1) /\ is_Some (verifyConfigs w !! l2)
  | WriteVerify _, WriteSign _ =>
      is_Some (verifyConfigs w !! l1) /\ is_Some (signConfigs w !! l2)
  end ->
  (let* _ := run_write (Some l1) wr1 in run_write (Some l2) wr2) w
  = (let* _ := run_write (Some l2) wr2 in run_write (Some l1) wr1) w.
Proof.
  destruct wr1 as [f|f], wr2 as [g|g]; simpl.
  - intros (c1 & c2 & E1 & E2 & Hc).
    rewrite (two_updates_SignConfig l1 c1 f l2 g w E1),
      (two_updates_SignConfig l2 c2 g l1 f w E2).
    destruct (decide (l1 = l2)) as [->|Hne].
    + assert (c2 = c1) as -> by congruence.
      destruct Hc as [Hc|Hc]; [contradiction|].
      rewrite (update_SignConfig_allocated l2 (f c1) g),
        (update_SignConfig_allocated l2 (g c1) f)
        by (simpl; apply lookup_insert_eq).
      simpl. rewrite !insert_insert_eq, Hc. reflexivity.
    + rewrite (update_SignConfig_allocated l2 c2 g),
        (update_SignConfig_allocated l1 c1 f)
        by (simpl; rewrite lookup_insert_ne; auto).
      simpl. rewrite (insert_insert_ne _ l1 l2) by exact Hne. reflexivity.
  - intros [[c1 E1] [c2 E2]]. unfold bind.
    rewrite (update_SignConfig_allocated l1 c1 f w E1),
      (update_VerifyConfig_allocated l2 c2 g w E2).
    rewrite (update_VerifyConfig_allocated l2 c2 g),
      (update_SignConfig_allocated l1 c1 f) by exact E1 || exact E2.
    reflexivity.
  - intros [[c1 E1] [c2 E2]]. unfold bind.
    rewrite (update_VerifyConfig_allocated l1 c1 f w E1),
      (update_SignConfig_allocated l2 c2 g w E2).
    rewrite (update_SignConfig_allocated l2 c2 g),
      (update_VerifyConfig_allocated l1 c1 f) by exact E1 || exact E2.
    reflexivity.
  - intros (c1 & c2 & E1 & E2 & Hc).
    rewrite (two_updates_VerifyConfig l1 c1 f l2 g w E1),
      (two_updates_VerifyConfig l2 c2 g l1 f w E2).
    destruct (decide (l1 = l2)) as [->|Hne].
    + assert (c2 = c1) as -> by congruence.
      destruct Hc as [Hc|Hc]; [contradiction|].
      rewrite (update_VerifyConfig_allocated l2 (f c1) g),
        (update_VerifyConfig_allocated l2 (g c1) f)
        by (simpl; apply lookup_insert_eq).
      simpl. rewrite !insert_insert_eq, Hc. reflexivity.
    + rewrite (update_VerifyConfig_allocated l2 c2 g),
        (update_VerifyConfig_allocated l1 c1 f)
        by (simpl; rewrite lookup_insert_ne; auto).
      simpl. rewrite (insert_insert_ne _ l1 l2) by exact Hne. reflexivity.
Qed.

Lemma bind_exec_setters (op1 op2 : CoreOp) wr1 wr2 (w : World) :
  setter_write op1 = Some wr1 -> setter_write op2 = Some wr2 ->
  (let* _ := exec op1 in exec op2) w
  = (let* _ := run_write (setter_ptr op1) wr1 in
     run_write (setter_ptr op2) wr2) w.
Proof.
  intros W1 W2. unfold bind. rewrite (exec_setter op1 wr1 w W1).
  destruct (run_write (setter_ptr op1) wr1 w) as [[[]|msg] w'];
    [apply (exec_setter op2 wr2 w' W2)|reflexivity].
Qed.

Lemma exec_setters_commute (op1 op2 : CoreOp) (w : World) :
  receiver_allocated w op1 -> receiver_allocated w op2 ->
  setter_field op1 <> setter_field op2 \/ setter_ptr op1 <> setter_ptr op2 ->
  (let* _ := exec op1 in exec op2) w = (let* _ := exec op2 in exec op1) w.
Proof.
  intros H1 H2 Hd.
  destruct (receiver_allocated_inv w op1 H1) as (l1 & P1 & A1).
  destruct (receiver_allocated_inv w op2 H2) as (l2 & P2 & A2).
  assert (Hl : setter_field op1 <> setter_field op2 \/ l1 <> l2)
    by (destruct Hd; [auto|right; congruence]).
  pose proof (writes_commute op1 op2) as Hc.
  destruct A1 as [(f & c1 & W1 & K1 & E1)|(f & c1 & W1 & K1 & E1)],
    A2 as [(g & c2 & W2 & K2 & E2)|(g & c2 & W2 & K2 & E2)];
    rewrite (bind_exec_setters op1 op2 _ _ w W1 W2),
      (bind_exec_setters op2 op1 _ _ w W2 W1), P1, P2;
    rewrite W1, W2 in Hc; apply run_writes_commute; simpl; eauto.
  - exists c1, c2. destruct Hl; auto.
  - exists c1, c2. destruct Hl; auto.
Qed.

Lemma exec_setters_overwrite (op1 op2 : CoreOp) (w : World) :
  receiver_allocated w op1 ->
  setter_field op1 = setter_field op2 -> setter_ptr op1 = setter_ptr op2 ->
  (let* _ := exec op1 in exec op2) w = exec op2 w.
Proof.
  intros H1 Hf Hp.
  destruct (receiver_allocated_inv w op1 H1) as (l & P1 & A1).
  pose proof (writes_overwrite op1 op2 Hf) as Ho.
  pose proof (setter_write_field op1) as F1.
  pose proof (setter_write_field op2) as F2.
  rewrite <- Hf in F2.
  destruct A1 as [(f & c & W1 & K1 & E1)|(f & c & W1 & K1 & E1)];
    rewrite W1 in F1, Ho;
    (destruct (setter_field op1) as [n|]; [|contradiction]);
    (destruct (setter_write op2) as [[g|g]|] eqn:W2;
       try contradiction; try congruence);
    rewrite (bind_exec_setters op1 op2 _ _ w W1 W2),
      (exec_setter op2 _ w W2), <- Hp, P1; simpl.
  - rewrite (two_updates_SignConfig l c f l g w E1).
    rewrite (update_SignConfig_allocated l (f c) g),
      (update_SignConfig_allocated l c g w E1)
      by (simpl; apply lookup_insert_eq).
    simpl. now rewrite insert_insert_eq, Ho.
  - rewrite (two_updates_VerifyConfig l c f l g w E1).
    rewrite (update_VerifyConfig_allocated l (f c) g),
      (update_VerifyConfig_allocated l c g w E1)
      by (simpl; apply lookup_insert_eq).
    simpl. now rewrite insert_insert_eq, Ho.
Qed.

Lemma exec_setter_nil (op : CoreOp) (w : World) :
  is_config_setter op = true -> setter_ptr op = None ->
  exec op w = (Panic nil_dereference, w).
Proof.
  intros Hs Hp. pose proof (setter_write_field op) as F.
  destruct (setter_write op) as [wr|] eqn:W.
  - rewrite (exec_setter op wr w W), Hp. now destruct wr.
  - destruct op; simpl in *; discriminate.
Qed.

(** ** Who sees a write through a configuration pointer *)

Lemma Signer_view_update_other l0 x (w : World) l s cfg :
  Signer_view w l = Some (s, cfg) -> s_config s <> Some l0 ->
  Signer_view (with_signConfigs (<[l0 := x]> (signConfigs w)) w) l
  = Some (s, cfg).
Proof.
  unfold Signer_view. simpl.
  destruct (signers w !! l) as [s'|]; [|discriminate].
  destruct (s_config s') as [c|] eqn:Ec.
  - destruct (signConfigs w !! c) as [cfg'|] eqn:E; [|discriminate].
    intros [= <- <-] Hne.
    rewrite lookup_insert_ne by congruence. now rewrite E.
  - now intros [= <- <-] _.
Qed.

Lemma Signer_view_update_same l0 x (w : World) l s cfg :
  Signer_view w l = Some (s, cfg) -> s_config s = Some l0 ->
  Signer_view (with_signConfigs (<[l0 := x]> (signConfigs w)) w) l
  = Some (s, Some x).
Proof.
  unfold Signer_view. simpl.
  destruct (signers w !! l) as [s'|]; [|discriminate].
  destruct (s_config s') as [c|] eqn:Ec.
  - destruct (signConfigs w !! c) as [cfg'|] eqn:E; [|discriminate].
    intros [= <- <-] Hc. assert (c = l0) as -> by congruence.
    now rewrite lookup_insert_eq.
  - intros [= <- <-]. congruence.
Qed.

Lemma Verifier_view_update_other l0 x (w : World) l v cfg :
  Verifier_view w l = Some (v, cfg) -> v_c v <> Some l0 ->
  Verifier_view (with_verifyConfigs (<[l0 := x]> (verifyConfigs w)) w) l
  = Some (v, cfg).
Proof.
  unfold Verifier_view. simpl.
  destruct (verifiers w !! l) as [v'|]; [|discriminate].
  destruct (v_c v') as [c|] eqn:Ec.
  - destruct (verifyConfigs w !! c) as [cfg'|] eqn:E; [|discriminate].
    intros [= <- <-] Hne.
    rewrite lookup_insert_ne by congruence. now rewrite E.
  - now intros [= <- <-] _.
Qed.

Lemma Verifier_view_update_same l0 x (w : World) l v cfg :
  Verifier_view w l = Some (v, cfg) -> v_c v = Some l0 ->
  Verifier_view (with_verifyConfigs (<[l0 := x]> (verifyConfigs w)) w) l
  = Some (v, Some x).
Proof.
  unfold Verifier_view. simpl.
  destruct (verifiers w !! l) as [v'|]; [|discriminate].
  destruct (v_c v') as [c|] eqn:Ec.
  - destruct (verifyConfigs w !! c) as [cfg'|] eqn:E; [|discriminate].
    intros [= <- <-] Hc. assert (c = l0) as -> by congruence.
    now rewrite lookup_insert_eq.
  - intros [= <- <-]. congruence.
Qed.

(** The store after a write: as before, or with one configuration
    replaced. *)
Lemma update_SignConfig_world p f (w : World) :
  snd (update_SignConfig p f w) = w \/
  exists l c, p = Some l /\ signConfigs w !! l = Some c /\
    snd (update_SignConfig p f w)
    = with_signConfigs (<[l := f c]> (signConfigs w)) w.
Proof.
  destruct p as [l|]; [|now left].
  destruct (signConfigs w !! l) as [c|] eqn:E.
  - right. exists l, c. now rewrite (update_SignConfig_allocated l c f w E).
  - left. unfold update_SignConfig, bind, load_SignConfig. now rewrite E.
Qed.

Lemma update_VerifyConfig_world p f (w : World) :
  snd (update_VerifyConfig p f w) = w \/
  exists l c, p = Some l /\ verifyConfigs w !! l = Some c /\
    snd (update_VerifyConfig p f w)
    = with_verifyConfigs (<[l := f c]> (verifyConfigs w)) w.
Proof.
  destruct p as [l|]; [|now left].
  destruct (verifyConfigs w !! l) as [c|] eqn:E.
  - right. exists l, c. now rewrite (update_VerifyConfig_allocated l c f w E).
  - left. unfold update_VerifyConfig, bind, load_VerifyConfig. now rewrite E.
Qed.

Lemma setter_has_write (op : @CoreOp Fields _) :
  is_config_setter op = true ->
  exists wr, setter_write op = Some wr /\
    match wr with
    | WriteSign _ => is_SignConfig_setter op = true
    | WriteVerify _ => is_SignConfig_setter op = false
    end.
Proof.
  destruct op; simpl; try discriminate; intros _;
    eexists; (split; [reflexivity|reflexivity]).
Qed.

Lemma setter_other_Signer (op : CoreOp) (w : World) l s cfg :
  is_config_setter op = true ->
  Signer_view w l = Some (s, cfg) ->
  is_SignConfig_setter op = false \/ s_config s <> setter_ptr op ->
  Signer_view (snd (exec op w)) l = Some (s, cfg).
Proof.
  intros Hs Hv Hd. destruct (setter_has_write op Hs) as (wr & W & K).
  rewrite (exec_setter op wr w W). destruct wr as [f|f]; simpl.
  - destruct Hd as [Hd|Hd]; [congruence|].
    destruct (update_SignConfig_world (setter_ptr op) f w)
      as [->|(l0 & c & P & E & ->)]; [exact Hv|].
    apply Signer_view_update_other; congruence.
  - destruct (update_VerifyConfig_world (setter_ptr op) f w)
      as [->|(l0 & c & P & E & ->)]; exact Hv.
Qed.

Lemma setter_other_Verifier (op : CoreOp) (w : World) l v cfg :
  is_config_setter op = true ->
  Verifier_view w l = Some (v, cfg) ->
  is_SignConfig_setter op = true \/ v_c v <> setter_ptr op ->
  Verifier_view (snd (exec op w)) l = Some (v, cfg).
Proof.
  intros Hs Hv Hd. destruct (setter_has_write op Hs) as (wr & W & K).
  rewrite (exec_setter op wr w W). destruct wr as [f|f]; simpl.
  - destruct (update_SignConfig_world (setter_ptr op) f w)
      as [->|(l0 & c & P & E & ->)]; exact Hv.
  - destruct Hd as [Hd|Hd]; [congruence|].
    destruct (update_VerifyConfig_world (setter_ptr op) f w)
      as [->|(l0 & c & P & E & ->)]; [exact Hv|].
    apply Verifier_view_update_other; congruence.
Qed.

(** A setter on an allocated configuration: the receiver comes back and
    the struct is replaced by the written one. *)
Lemma setter_form_SignConfig l c f (w : World) :
  signConfigs w !! l = Some c ->
  (let* _ := update_SignConfig (Some l) f in ret (Some l)) w
  = (Ok (Some l), with_signConfigs (<[l := f c]> (signConfigs w)) w).
Proof.
  intros E. unfold bind.
  now rewrite (update_SignConfig_allocated l c f w E).
Qed.

Lemma setter_form_VerifyConfig l c f (w : World) :
  verifyConfigs w !! l = Some c ->
  (let* _ := update_VerifyConfig (Some l) f in ret (Some l)) w
  = (Ok (Some l), with_verifyConfigs (<[l := f c]> (verifyConfigs w)) w).
Proof.
  intros E. unfold bind.
  now rewrite (update_VerifyConfig_allocated l c f w E).
Qed.

(** ** Chains of setters *)

Ltac chain_step lem :=
  unfold bind at 1;
  erewrite lem by (simpl; apply lookup_insert_eq);
  simpl; rewrite ?insert_insert_eq.

Lemma SignConfig_chain_world (a b : bool) (ts e : Z) (n name sg : string)
  (w : World) :
  exists l,
    signConfigs w !! l = None /\
    SignConfig_chain a b ts e n name sg w
    = (Ok (Some l),
       with_signConfigs
         (<[l := {| signAlg := a; signCreated := b; fakeCreated := ts;
                    expires := e; nonce := n;
                    sc_requestResponse :=
                      Some {| rr_name := name; rr_signature := sg |} |}]>
            (signConfigs w)) w).
Proof.
  exists (fresh (dom (signConfigs w))). split; [apply fresh_lookup_None|].
  unfold SignConfig_chain, NewSignConfig, SignConfig_SignAlg,
    SignConfig_SignCreated, SignConfig_setFakeCreated, SignConfig_SetExpires,
    SignConfig_SetNonce, SignConfig_SetRequestResponse.
  unfold bind at 1, new_SignConfig. cbv zeta.
  do 5 chain_step setter_form_SignConfig.
  erewrite setter_form_SignConfig by (simpl; apply lookup_insert_eq).
  simpl. rewrite insert_insert_eq. reflexivity.
Qed.

Lemma VerifyConfig_chain_world (vc : bool) (newer older : Duration)
  (re : bool) (algs : slice string) (name sg : string) (kid : bool)
  (dw : Duration) (w : World) :
  exists l,
    verifyConfigs w !! l = None /\
    VerifyConfig_chain vc newer older re algs name sg kid dw w
    = (Ok (Some l),
       with_verifyConfigs
         (<[l := {| verifyCreated := vc; notNewerThan := newer;
                    notOlderThan := older; allowedAlgs := algs;
                    rejectExpired := re;
                    vc_requestResponse :=
                      Some {| rr_name := name; rr_signature := sg |};
                    verifyKeyID := kid; dateWithin := dw |}]>
            (verifyConfigs w)) w).
Proof.
  exists (fresh (dom (verifyConfigs w))). split; [apply fresh_lookup_None|].
  unfold VerifyConfig_chain, NewVerifyConfig, VerifyConfig_SetNotNewerThan,
    VerifyConfig_SetNotOlderThan, VerifyConfig_SetVerifyCreated,
    VerifyConfig_SetRejectExpired, VerifyConfig_SetAllowedAlgs,
    VerifyConfig_SetRequestResponse, VerifyConfig_SetVerifyKeyID,
    VerifyConfig_SetVerifyDateWithin.
  unfold bind at 1, new_VerifyConfig. cbv zeta.
  do 7 chain_step setter_form_VerifyConfig.
  erewrite setter_form_VerifyConfig by (simpl; apply lookup_insert_eq).
  simpl. rewrite insert_insert_eq. reflexivity.
Qed.

(** ** A configuration shared with a Signer or a Verifier *)

Lemma Signer_view_of_fields (w : World) l s c cfg :
  signers w !! l = Some s -> s_config s = Some c ->
  signConfigs w !! c = Some cfg ->
  Signer_view w l = Some (s, Some cfg).
Proof. intros Hs Hc Hcfg. unfold Signer_view. now rewrite Hs, Hc, Hcfg. Qed.

Lemma Verifier_view_of_fields (w : World) l v c cfg :
  verifiers w !! l = Some v -> v_c v = Some c ->
  verifyConfigs w !! c = Some cfg ->
  Verifier_view w l = Some (v, Some cfg).
Proof. intros Hs Hc Hcfg. unfold Verifier_view. now rewrite Hs, Hc, Hcfg. Qed.

Lemma config_of_Signer_after_write (w : World) l s c cfg f :
  signers w !! l = Some s -> s_config s = Some c ->
  signConfigs w !! c = Some cfg ->
  config_of_Signer
    (snd ((let* _ := update_SignConfig (Some c) f in ret (Some c)) w)) l
  = Some (f cfg).
Proof.
  intros Hs Hc Hcfg. rewrite (setter_form_SignConfig c cfg f w Hcfg).
  unfold config_of_Signer. simpl snd.
  now rewrite (Signer_view_update_same c (f cfg) w l s (Some cfg)
                 (Signer_view_of_fields w l s c cfg Hs Hc Hcfg) Hc).
Qed.

Lemma config_of_Verifier_after_write (w : World) l v c cfg f :
  verifiers w !! l = Some v -> v_c v = Some c ->
  verifyConfigs w !! c = Some cfg ->
  config_of_Verifier
    (snd ((let* _ := update_VerifyConfig (Some c) f in ret (Some c)) w)) l
  = Some (f cfg).
Proof.
  intros Hs Hc Hcfg. rewrite (setter_form_VerifyConfig c cfg f w Hcfg).
  unfold config_of_Verifier. simpl snd.
  now rewrite (Verifier_view_update_same c (f cfg) w l v (Some cfg)
                 (Verifier_view_of_fields w l v c cfg Hs Hc Hcfg) Hc).
Qed.

Lemma Signer_constructed_private r (w : World) (mk : ptr -> Signer) :
  Signer_constructed r w None mk -> World_wf w ->
  (forall p, s_config (mk p) = p) ->
  Signer_with_private_default r.
Proof.
  intros (l & p & w' & -> & Hfresh & Hs & (c & -> & Hc & Hsc) & _) [Hws _]
    Hcfg.
  exists l, (mk (Some c)), c, w'. split; [reflexivity|].
  split; [rewrite Hs; apply lookup_insert_eq|].
  split; [apply Hcfg|].
  split; [rewrite Hsc; apply lookup_insert_eq|].
  intros l' s' Hne Hl'. rewrite Hs, lookup_insert_ne in Hl' by congruence.
  destruct (Hws l' s' Hl') as (_ & c' & Hc' & [x Hx]).
  rewrite Hc'. intros [= ->]. congruence.
Qed.

(** ** The older Config type *)

Lemma Config_calls_requestResponse (ms : list ConfigCall) (c : Config) :
  forallb (fun m => negb (sets_requestResponse m)) ms = true ->
  c_requestResponse (fold_left Config_call ms c) = c_requestResponse c.
Proof.
  revert c. induction ms as [|m ms IH]; intros c; simpl; [reflexivity|].
  intros [Hm Hms]%andb_true_iff. rewrite (IH _ Hms).
  now destruct m.
Qed.

Lemma Config_calls_fold (ms : list ConfigCall) (c : Config) :
  fold_left Config_call ms c
  = {| c_signAlg := last_written writes_signAlg ms (c_signAlg c);
       c_signCreated := last_written writes_signCreated ms (c_signCreated c);
       c_fakeCreated := last_written writes_fakeCreated ms (c_fakeCreated c);
       c_requestResponse :=
         last_written writes_requestResponse ms (c_requestResponse c) |}.
Proof.
  revert c. induction ms as [|m ms IH]; intros c; simpl.
  - now destruct c.
  - rewrite IH. unfold last_written. now destruct m.
Qed.

(** ** The handler configuration *)

Lemma fetch_calls_keep {Request Response : Type}
  (ms : list (@FetchCall Request Response)) l
  (h : gmap positive (@HandlerConfig Request Response)) c :
  h !! l = Some c ->
  (exists c', fetch_calls (Some l) ms h !! l = Some c' /\
              reqNotVerified c' = reqNotVerified c) /\
  (forall l', l' <> l -> fetch_calls (Some l) ms h !! l' = h !! l').
Proof.
  revert h c. induction ms as [|m ms IH]; intros h c Hl; simpl.
  - split; [eauto|auto].
  - assert (Hstep : exists c1,
              snd (fetch_call (Some l) m h) = <[l := c1]> h /\
              reqNotVerified c1 = reqNotVerified c).
    { destruct m; simpl; unfold SetFetchVerifier, SetFetchSigner,
        update_HandlerConfig; rewrite Hl; simpl; eauto. }
    destruct Hstep as (c1 & -> & Hr).
    destruct (IH (<[l := c1]> h) c1 (lookup_insert_eq _ _ _))
      as [(c' & Hc' & Hr') Hother].
    split.
    + exists c'. split; [exact Hc'|congruence].
    + intros l' Hne. rewrite (Hother l' Hne).
      now rewrite lookup_insert_ne by congruence.
Qed.

(** * The code beyond the claims *)

(** X1: [NewHMACSHA256Signer] gives "key must be at least 64 bytes long"
    for a nil or short key, whatever the keyID; with a good key it gives
    "keyID must not be empty" for an empty keyID; both leave the store
    untouched.  Otherwise it allocates the Signer and, when the
    configuration passed is nil, a default configuration, and changes
    nothing else. *)
Theorem NewHMACSHA256Signer_cases (keyID : string) (key : slice byte)
  (config : ptr) (fields : Fields) (w : World) :
  if is_nil key || (len key <? 64)%Z then
    returns_error (NewHMACSHA256Signer keyID key config fields w) w
      "key must be at least 64 bytes long"
  else if keyID =? EmptyString then
    returns_error (NewHMACSHA256Signer keyID key config fields w) w
      "keyID must not be empty"
  else
    Signer_constructed (NewHMACSHA256Signer keyID key config fields w) w
      config
      (fun p => {| s_keyID := keyID; s_key := KeyBytes key;
                   s_alg := "hmac-sha256"; s_config := p;
                   s_fields := fields |}).
Proof. apply NewHMACSHA256Signer_outcome. Qed.

(** X2: [NewRSASigner], [NewRSAPSSSigner] and [NewP256Signer] check the
    key first ("key must not be nil"), then the keyID ("keyID must not be
    empty"), leaving the store untouched on either error; otherwise they
    allocate a Signer with the algorithm of the constructor. *)
Theorem pointer_key_Signer_constructors :
  pointer_key_Signer_spec (Fields := Fields) NewRSASigner KeyRSAPrivate
    "rsa-v1_5-sha256" /\
  pointer_key_Signer_spec (Fields := Fields) NewRSAPSSSigner KeyRSAPrivate
    "rsa-pss-sha512" /\
  pointer_key_Signer_spec (Fields := Fields) NewP256Signer KeyECDSAPrivate
    "ecdsa-p256-sha256".
Proof. apply pointer_key_Signer_outcome. Qed.

(** X3: [NewHMACSHA256Verifier] gives "key must not be nil" for a nil key
    and "key must be at least 64 bytes long" for a shorter non-nil key,
    leaving the store untouched; otherwise it allocates the Verifier,
    whatever the keyID. *)
Theorem NewHMACSHA256Verifier_cases (keyID : string) (key : slice byte)
  (config : ptr) (fields : Fields) (w : World) :
  match key with
  | None =>
      returns_error (NewHMACSHA256Verifier keyID key config fields w) w
        "key must not be nil"
  | Some b =>
      if (len key <? 64)%Z then
        returns_error (NewHMACSHA256Verifier keyID key config fields w) w
          "key must be at least 64 bytes long"
      else
        Verifier_constructed
          (NewHMACSHA256Verifier keyID key config fields w) w config
          (fun p => {| v_keyID := keyID; v_key := KeyBytes key;
                       v_alg := "hmac-sha256"; v_c := p; v_f := fields |})
  end.
Proof. apply NewHMACSHA256Verifier_outcome. Qed.

(** X4: [NewRSAVerifier], [NewRSAPSSVerifier] and [NewP256Verifier] have
    one error, "key must not be nil"; with a key they allocate a Verifier
    with the algorithm of the constructor and the keyID as given. *)
Theorem pointer_key_Verifier_constructors :
  pointer_key_Verifier_spec (Fields := Fields) NewRSAVerifier KeyRSAPublic
    "rsa-v1_5-sha256" /\
  pointer_key_Verifier_spec (Fields := Fields) NewRSAPSSVerifier KeyRSAPublic
    "rsa-pss-sha512" /\
  pointer_key_Verifier_spec (Fields := Fields) NewP256Verifier
    KeyECDSAPublic "ecdsa-p256-sha256".
Proof. apply pointer_key_Verifier_outcome. Qed.

(** X5: in every store reached from an empty heap by the functions of
    the package, each Signer and Verifier has the key type of its
    algorithm behind a non-nil pointer (an HMAC key of at least 64 bytes),
    each Signer has a non-empty keyID, and each points to a configuration
    that exists. *)
Theorem reachable_World_wf (w : World) : reachable w -> World_wf w.
Proof. apply reachable_wf. Qed.

(** X6: for a Signer or Verifier of a reachable store whose algorithm is
    not the ECDSA one, [sign] and [verify] return: no type assertion fails
    and no nil key is dereferenced. *)
Theorem stored_Signer_Verifier_never_panic (w w0 : World)
  (buff sig : slice byte) :
  reachable w ->
  (forall l s, signers w !! l = Some s ->
     s_alg s <> "ecdsa-p256-sha256" ->
     exists r w', sign s buff w0 = (Ok r, w')) /\
  (forall l v, verifiers w !! l = Some v ->
     v_alg v <> "ecdsa-p256-sha256" ->
     exists r, verify v buff sig w0 = (Ok r, w0)).
Proof.
  intros [Hs Hv]%reachable_wf. split.
  - intros l s Hl Hne. destruct (Hs l s Hl) as [Hwf _].
    now apply sign_returns.
  - intros l v Hl Hne. destruct (Hv l v Hl) as [Hwf _].
    now apply verify_returns.
Qed.

(** X7: when the key of a Signer does not have the dynamic type that the
    branch of its algorithm asserts, [sign] panics on the type assertion
    and leaves the store as it was. *)
Theorem sign_type_assertion_panics (s : Signer) (buff : slice byte)
  (w : World) :
  (s_alg s = "hmac-sha256" -> (forall b, s_key s <> KeyBytes b) ->
   sign s buff w = (Panic interface_conversion, w)) /\
  (s_alg s = "rsa-v1_5-sha256" \/ s_alg s = "rsa-pss-sha512" ->
   (forall k, s_key s <> KeyRSAPrivate k) ->
   sign s buff w = (Panic interface_conversion, w)) /\
  (s_alg s = "ecdsa-p256-sha256" ->
   (forall k, s_key s <> KeyECDSAPrivate k) ->
   sign s buff w = (Panic interface_conversion, w)).
Proof. apply sign_wrong_key. Qed.

(** X8: when the key of a Verifier does not have the dynamic type that
    the branch of its algorithm asserts, [verify] panics on the type
    assertion and leaves the store as it was. *)
Theorem verify_type_assertion_panics (v : Verifier) (buff sig : slice byte)
  (w : World) :
  (v_alg v = "hmac-sha256" -> (forall b, v_key v <> KeyBytes b) ->
   verify v buff sig w = (Panic interface_conversion, w)) /\
  (v_alg v = "rsa-v1_5-sha256" \/ v_alg v = "rsa-pss-sha512" ->
   (forall k, v_key v <> KeyRSAPublic k) ->
   verify v buff sig w = (Panic interface_conversion, w)) /\
  (v_alg v = "ecdsa-p256-sha256" ->
   (forall k, v_key v <> KeyECDSAPublic k) ->
   verify v buff sig w = (Panic interface_conversion, w)).
Proof. apply verify_wrong_key. Qed.

(** X9: with an RSA private key, [sign] returns the library's signature
    with a nil error, or no signature and the fixed error "RSA signature
    failed" (for rsa-v1_5-sha256) or "RSA-PSS signature failed" (for
    rsa-pss-sha512): the library's own error is dropped.  The first leaves
    the store untouched; the second leaves [rand.Reader] where the library
    left it. *)
Theorem sign_rsa_fixed_errors (s : Signer) (k : rsa_PrivateKey)
  (buff : slice byte) (w : World) :
  s_key s = KeyRSAPrivate (Some k) ->
  (s_alg s = "rsa-v1_5-sha256" ->
   sign s buff w =
     (Ok match rsa_SignPKCS1v15 k crypto_SHA256
                 (sha256_Sum256 (elems buff)) with
         | inl sig => (Some sig, nil_error)
         | inr _ => (None, Some "RSA signature failed")
         end, w)) /\
  (s_alg s = "rsa-pss-sha512" ->
   sign s buff w =
     (Ok match fst (rsa_SignPSS (rand_Reader w) k crypto_SHA512
                      (sha512_Sum512 (elems buff))) with
         | inl sig => (Some sig, nil_error)
         | inr _ => (None, Some "RSA-PSS signature failed")
         end,
      with_rand_Reader
        (snd (rsa_SignPSS (rand_Reader w) k crypto_SHA512
                (sha512_Sum512 (elems buff)))) w)).
Proof.
  intros Hk. split; intros Ha;
    [now apply sign_rsa|now apply sign_rsa_pss].
Qed.

(** X10: whenever [sign] returns, for any algorithm string but the ECDSA
    one, it returns either a signature and a nil error or no signature and
    an error, never both and never neither. *)
Theorem sign_signature_xor_error (s : Signer) (buff : slice byte)
  (w w' : World) (sig : slice byte) (err : error) :
  s_alg s <> "ecdsa-p256-sha256" ->
  sign s buff w = (Ok (sig, err), w') ->
  (err = None <-> sig <> None).
Proof. apply sign_result_shape. Qed.

(** X11: whenever [verify] returns, for any algorithm string but the ECDSA
    one, a true result comes with a nil error, and an error comes with
    false. *)
Theorem verify_true_without_error (v : Verifier) (buff sig : slice byte)
  (w w' : World) (ok : bool) (err : error) :
  v_alg v <> "ecdsa-p256-sha256" ->
  verify v buff sig w = (Ok (ok, err), w') ->
  (ok = true -> err = None) /\ (err <> None -> ok = false).
Proof. apply verify_result_shape. Qed.

(** X12: with hmac-sha256 and a byte-slice key, [verify] returns
    (true, nil) exactly when the bytes of the signature are the MAC of the
    buffer under the Verifier's key. *)
Theorem verify_hmac_accepts_only_the_mac (v : Verifier)
  (k buff sig : slice byte) (w : World) :
  v_alg v = "hmac-sha256" -> v_key v = KeyBytes k ->
  (verify v buff sig w = (Ok (true, nil_error), w) <->
   elems sig = hmac_sha256 (elems k) (elems buff)).
Proof. apply verify_hmac_accepts_iff. Qed.

(** X13: [sign] with hmac-sha256 or rsa-v1_5-sha256 leaves the whole
    store, [rand.Reader] included, as it was, whether it returns or
    panics; so does [verify] with every algorithm string but the ECDSA
    one. *)
Theorem sign_verify_leave_store (s : Signer) (v : Verifier)
  (buff sig : slice byte) (w : World) :
  (s_alg s = "hmac-sha256" \/ s_alg s = "rsa-v1_5-sha256" ->
   snd (sign s buff w) = w) /\
  (v_alg v <> "ecdsa-p256-sha256" -> snd (verify v buff sig w) = w).
Proof.
  split; [apply sign_store_unchanged|intros _; apply verify_store].
Qed.

(** X14: [NewSignConfig] followed by the six setters in a chain returns
    the pointer of the new configuration, which holds exactly the six
    values given; nothing else in the store changes. *)
Theorem SignConfig_chain_result (a b : bool) (ts e : Z)
  (n name sg : string) (w : World) :
  exists l,
    signConfigs w !! l = None /\
    SignConfig_chain a b ts e n name sg w
    = (Ok (Some l),
       with_signConfigs
         (<[l := {| signAlg := a; signCreated := b; fakeCreated := ts;
                    expires := e; nonce := n;
                    sc_requestResponse :=
                      Some {| rr_name := name; rr_signature := sg |} |}]>
            (signConfigs w)) w).
Proof. apply SignConfig_chain_world. Qed.

(** X15: [NewVerifyConfig] followed by the eight setters in a chain
    returns the pointer of the new configuration, which holds exactly the
    eight values given; nothing else in the store changes. *)
Theorem VerifyConfig_chain_result (vc : bool) (newer older : Duration)
  (re : bool) (algs : slice string) (name sg : string) (kid : bool)
  (dw : Duration) (w : World) :
  exists l,
    verifyConfigs w !! l = None /\
    VerifyConfig_chain vc newer older re algs name sg kid dw w
    = (Ok (Some l),
       with_verifyConfigs
         (<[l := {| verifyCreated := vc; notNewerThan := newer;
                    notOlderThan := older; allowedAlgs := algs;
                    rejectExpired := re;
                    vc_requestResponse :=
                      Some {| rr_name := name; rr_signature := sg |};
                    verifyKeyID := kid; dateWithin := dw |}]>
            (verifyConfigs w)) w).
Proof. apply VerifyConfig_chain_world. Qed.

(** X16: two setter calls whose receivers point to configurations commute
    when they write different fields or go through different pointers:
    both orders give the same result and the same store. *)
Theorem setters_commute (op1 op2 : CoreOp) (w : World) :
  receiver_allocated w op1 -> receiver_allocated w op2 ->
  setter_field op1 <> setter_field op2 \/ setter_ptr op1 <> setter_ptr op2 ->
  (let* _ := exec op1 in exec op2) w = (let* _ := exec op2 in exec op1) w.
Proof. apply exec_setters_commute. Qed.

(** X17: of two calls of the same setter through the same pointer the
    second wins: the pair leaves what the second call alone leaves. *)
Theorem setter_last_write_wins (op1 op2 : CoreOp) (w : World) :
  receiver_allocated w op1 ->
  setter_field op1 = setter_field op2 -> setter_ptr op1 = setter_ptr op2 ->
  (let* _ := exec op1 in exec op2) w = exec op2 w.
Proof. apply exec_setters_overwrite. Qed.

(** X18: a setter of SignConfig or VerifyConfig called on a nil receiver
    panics with a nil dereference and changes nothing. *)
Theorem setter_on_nil_receiver_panics (op : CoreOp) (w : World) :
  is_config_setter op = true -> setter_ptr op = None ->
  exec op w = (Panic nil_dereference, w).
Proof. apply exec_setter_nil. Qed.

(** X19: a setter changes what a Signer or a Verifier holds only if it
    writes through the very configuration pointer that object stores: a
    Signer is untouched by every VerifyConfig setter and by a SignConfig
    setter on another pointer, and likewise for a Verifier. *)
Theorem setter_leaves_unrelated_objects (op : CoreOp) (w : World) (l : loc) :
  is_config_setter op = true ->
  (forall s cfg, Signer_view w l = Some (s, cfg) ->
     is_SignConfig_setter op = false \/ s_config s <> setter_ptr op ->
     Signer_view (snd (exec op w)) l = Some (s, cfg)) /\
  (forall v cfg, Verifier_view w l = Some (v, cfg) ->
     is_SignConfig_setter op = true \/ v_c v <> setter_ptr op ->
     Verifier_view (snd (exec op w)) l = Some (v, cfg)).
Proof.
  intros Hs. split; intros x cfg Hv Hd;
    [now apply setter_other_Signer|now apply setter_other_Verifier].
Qed.

(** X20: every SignConfig setter called through the pointer a Signer
    stores changes the configuration that Signer signs with: afterwards
    the Signer's configuration has the written field and the other fields
    as before. *)
Theorem SignConfig_setters_reach_Signer (w : World) (l c : loc)
  (s : Signer) (cfg : SignConfig) :
  signers w !! l = Some s -> s_config s = Some c ->
  signConfigs w !! c = Some cfg ->
  (forall b : bool,
     config_of_Signer (snd (SignConfig_SignAlg (Some c) b w)) l
     = Some {| signAlg := b;
              signCreated := signCreated cfg;
              fakeCreated := fakeCreated cfg;
              expires := expires cfg;
              nonce := nonce cfg;
              sc_requestResponse := sc_requestResponse cfg |}) /\
  (forall b : bool,
     config_of_Signer (snd (SignConfig_SignCreated (Some c) b w)) l
     = Some {| signAlg := signAlg cfg;
              signCreated := b;
              fakeCreated := fakeCreated cfg;
              expires := expires cfg;
              nonce := nonce cfg;
              sc_requestResponse := sc_requestResponse cfg |}) /\
  (forall ts : Z,
     config_of_Signer (snd (SignConfig_setFakeCreated (Some c) ts w)) l
     = Some {| signAlg := signAlg cfg;
              signCreated := signCreated cfg;
              fakeCreated := ts;
              expires := expires cfg;
              nonce := nonce cfg;
              sc_requestResponse := sc_requestResponse cfg |}) /\
  (forall e : Z,
     config_of_Signer (snd (SignConfig_SetExpires (Some c) e w)) l
     = Some {| signAlg := signAlg cfg;
              signCreated := signCreated cfg;
              fakeCreated := fakeCreated cfg;
              expires := e;
              nonce := nonce cfg;
              sc_requestResponse := sc_requestResponse cfg |}) /\
  (forall n : string,
     config_of_Signer (snd (SignConfig_SetNonce (Some c) n w)) l
     = Some {| signAlg := signAlg cfg;
              signCreated := signCreated cfg;
              fakeCreated := fakeCreated cfg;
              expires := expires cfg;
              nonce := n;
              sc_requestResponse := sc_requestResponse cfg |}) /\
  (forall name sg : string,
     config_of_Signer (snd (SignConfig_SetRequestResponse (Some c) name sg w)) l
     = Some {| signAlg := signAlg cfg;
              signCreated := signCreated cfg;
              fakeCreated := fakeCreated cfg;
              expires := expires cfg;
              nonce := nonce cfg;
              sc_requestResponse := Some {| rr_name := name; rr_signature := sg |} |}).
Proof.
  intros Hs Hc Hcfg.
  repeat split; intros;
    exact (config_of_Signer_after_write w l s c cfg _ Hs Hc Hcfg).
Qed.

(** X21: every VerifyConfig setter called through the pointer a Verifier
    stores changes the configuration that Verifier verifies with:
    afterwards the Verifier's configuration has the written field and the
    other fields as before. *)
Theorem VerifyConfig_setters_reach_Verifier (w : World) (l c : loc)
  (v : Verifier) (cfg : VerifyConfig) :
  verifiers w !! l = Some v -> v_c v = Some c ->
  verifyConfigs w !! c = Some cfg ->
  (forall d : Duration,
     config_of_Verifier (snd (VerifyConfig_SetNotNewerThan (Some c) d w)) l
     = Some {| verifyCreated := verifyCreated cfg;
              notNewerThan := d;
              notOlderThan := notOlderThan cfg;
              allowedAlgs := allowedAlgs cfg;
              rejectExpired := rejectExpired cfg;
              vc_requestResponse := vc_requestResponse cfg;
              verifyKeyID := verifyKeyID cfg;
              dateWithin := dateWithin cfg |}) /\
  (forall d : Duration,
     config_of_Verifier (snd (VerifyConfig_SetNotOlderThan (Some c) d w)) l
     = Some {| verifyCreated := verifyCreated cfg;
              notNewerThan := notNewerThan cfg;
              notOlderThan := d;
              allowedAlgs := allowedAlgs cfg;
              rejectExpired := rejectExpired cfg;
              vc_requestResponse := vc_requestResponse cfg;
              verifyKeyID := verifyKeyID cfg;
              dateWithin := dateWithin cfg |}) /\
  (forall b : bool,
     config_of_Verifier (snd (VerifyConfig_SetVerifyCreated (Some c) b w)) l
     = Some {| verifyCreated := b;
              notNewerThan := notNewerThan cfg;
              notOlderThan := notOlderThan cfg;
              allowedAlgs := allowedAlgs cfg;
              rejectExpired := rejectExpired cfg;
              vc_requestResponse := vc_requestResponse cfg;
              verifyKeyID := verifyKeyID cfg;
              dateWithin := dateWithin cfg |}) /\
  (forall b : bool,
     config_of_Verifier (snd (VerifyConfig_SetRejectExpired (Some c) b w)) l
     = Some {| verifyCreated := verifyCreated cfg;
              notNewerThan := notNewerThan cfg;
              notOlderThan := notOlderThan cfg;
              allowedAlgs := allowedAlgs cfg;
              rejectExpired := b;
              vc_requestResponse := vc_requestResponse cfg;
              verifyKeyID := verifyKeyID cfg;
              dateWithin := dateWithin cfg |}) /\
  (forall a : slice string,
     config_of_Verifier (snd (VerifyConfig_SetAllowedAlgs (Some c) a w)) l
     = Some {| verifyCreated := verifyCreated cfg;
              notNewerThan := notNewerThan cfg;
              notOlderThan := notOlderThan cfg;
              allowedAlgs := a;
              rejectExpired := rejectExpired cfg;
              vc_requestResponse := vc_requestResponse cfg;
              verifyKeyID := verifyKeyID cfg;
              dateWithin := dateWithin cfg |}) /\
  (forall name sg : string,
     config_of_Verifier (snd (VerifyConfig_SetRequestResponse (Some c) name sg w)) l
     = Some {| verifyCreated := verifyCreated cfg;
              notNewerThan := notNewerThan cfg;
              notOlderThan := notOlderThan cfg;
              allowedAlgs := allowedAlgs cfg;
              rejectExpired := rejectExpired cfg;
              vc_requestResponse := Some {| rr_name := name; rr_signature := sg |};
              verifyKeyID := verifyKeyID cfg;
              dateWithin := dateWithin cfg |}) /\
  (forall b : bool,
     config_of_Verifier (snd (VerifyConfig_SetVerifyKeyID (Some c) b w)) l
     = Some {| verifyCreated := verifyCreated cfg;
              notNewerThan := notNewerThan cfg;
              notOlderThan := notOlderThan cfg;
              allowedAlgs := allowedAlgs cfg;
              rejectExpired := rejectExpired cfg;
              vc_requestResponse := vc_requestResponse cfg;
              verifyKeyID := b;
              dateWithin := dateWithin cfg |}) /\
  (forall d : Duration,
     config_of_Verifier (snd (VerifyConfig_SetVerifyDateWithin (Some c) d w)) l
     = Some {| verifyCreated := verifyCreated cfg;
              notNewerThan := notNewerThan cfg;
              notOlderThan := notOlderThan cfg;
              allowedAlgs := allowedAlgs cfg;
              rejectExpired := rejectExpired cfg;
              vc_requestResponse := vc_requestResponse cfg;
              verifyKeyID := verifyKeyID cfg;
              dateWithin := d |}).
Proof.
  intros Hs Hc Hcfg.
  repeat split; intros;
    exact (config_of_Verifier_after_write w l v c cfg _ Hs Hc Hcfg).
Qed.

(** X22: in a reachable store, a Signer constructor called with a nil
    configuration and arguments that pass its checks gives the new Signer
    a new default configuration that no other Signer points to. *)
Theorem nil_config_is_private_default (keyID : string) (kb : list byte)
  (kr : rsa_PrivateKey) (ke : ecdsa_PrivateKey) (fields : Fields)
  (w : World) :
  reachable w -> 64 <= len (Some kb) -> keyID <> EmptyString ->
  Signer_with_private_default
    (NewHMACSHA256Signer keyID (Some kb) None fields w) /\
  Signer_with_private_default
    (NewRSASigner keyID (Some kr) None fields w) /\
  Signer_with_private_default
    (NewRSAPSSSigner keyID (Some kr) None fields w) /\
  Signer_with_private_default
    (NewP256Signer keyID (Some ke) None fields w).
Proof.
  intros Hwf%reachable_wf Hlen%Z.ltb_ge Hid%String.eqb_neq.
  destruct pointer_key_Signer_outcome as (H1 & H2 & H3).
  pose proof (NewHMACSHA256Signer_outcome keyID (Some kb) None fields w)
    as H0.
  specialize (H1 keyID (Some kr) None fields w).
  specialize (H2 keyID (Some kr) None fields w).
  specialize (H3 keyID (Some ke) None fields w).
  unfold is_nil in H0. rewrite Hlen in H0. simpl orb in H0. cbv iota in H0.
  rewrite Hid in H0, H1, H2, H3.
  repeat split;
    eapply Signer_constructed_private; eauto.
Qed.

(** X23: a sequence of calls of the methods of the older [Config] type
    composes field by field: each field of the result has the value of the
    last call that writes it, or its first value when no call does.  In
    particular, without a call of [SetRequestResponse] the requestResponse
    stays what it was. *)
Theorem Config_calls_compose (ms : list ConfigCall) (c : Config) :
  fold_left Config_call ms c
  = {| c_signAlg := last_written writes_signAlg ms (c_signAlg c);
       c_signCreated := last_written writes_signCreated ms (c_signCreated c);
       c_fakeCreated := last_written writes_fakeCreated ms (c_fakeCreated c);
       c_requestResponse :=
         last_written writes_requestResponse ms (c_requestResponse c) |} /\
  (forallb (fun m => negb (sets_requestResponse m)) ms = true ->
   c_requestResponse (fold_left Config_call ms c) = c_requestResponse c).
Proof.
  split; [apply Config_calls_fold|apply Config_calls_requestResponse].
Qed.

(** X24: [defaultReqNotVerified] first sets the status 401 and then writes
    one body.  What the client receives does not depend on the error: it
    is the same for all non-nil errors, whose text goes to the log only;
    with a nil error the body is "Unknown error" and nothing is logged. *)
Theorem defaultReqNotVerified_hides_error {Request : Type}
  (r r' : Request) (e e' : string) :
  to_client (defaultReqNotVerified r (Some e))
    = to_client (defaultReqNotVerified r' (Some e')) /\
  to_client (defaultReqNotVerified r (Some e))
    = EvWriteHeader 401
        :: EvWrite (Fprintln_text "Could not verify request signature")
        :: nil /\
  to_log (defaultReqNotVerified r (Some e))
    = EvLog ("Could not verify request signature: " ++ e) :: nil /\
  defaultReqNotVerified r None
    = EvWriteHeader 401 :: EvWrite "Unknown error" :: nil.
Proof. repeat split; reflexivity. Qed.

(** X25: the handler that [NewHandlerConfig] installs stays installed
    through any sequence of [SetFetchVerifier] and [SetFetchSigner] calls
    on the new configuration, and these calls change no other handler
    configuration. *)
Theorem default_handler_persists {Request Response : Type}
  (ms : list (@FetchCall Request Response))
  (h : gmap positive (@HandlerConfig Request Response)) :
  exists l c,
    fst (NewHandlerConfig h) = Ok (Some l) /\ h !! l = None /\
    fetch_calls (Some l) ms (snd (NewHandlerConfig h)) !! l = Some c /\
    reqNotVerified c = Some defaultReqNotVerified /\
    forall l', l' <> l ->
      fetch_calls (Some l) ms (snd (NewHandlerConfig h)) !! l' = h !! l'.
Proof.
  exists (fresh (dom h)).
  destruct (fetch_calls_keep ms (fresh (dom h)) (snd (NewHandlerConfig h))
              _ (lookup_insert_eq _ _ _)) as [(c & Hc & Hr) Hother].
  exists c. split; [reflexivity|]. split; [apply fresh_lookup_None|].
  split; [exact Hc|]. split; [exact Hr|].
  intros l' Hne. rewrite (Hother l' Hne). simpl.
  now rewrite lookup_insert_ne by congruence.
Qed.

(** X26: a handler set by [SetReqNotVerified] on an existing
    configuration, a nil function included, is the one installed
    afterwards, and it stays through any sequence of [SetFetchVerifier]
    and [SetFetchSigner] calls; no other handler configuration changes. *)
Theorem custom_handler_persists {Request Response : Type}
  (f : option (Request -> error -> list http_event))
  (ms : list (@FetchCall Request Response)) (l : loc)
  (h : gmap positive (@HandlerConfig Request Response))
  (c : HandlerConfig) :
  h !! l = Some c ->
  fst (SetReqNotVerified (Some l) f h) = Ok (Some l) /\
  (exists c',
     fetch_calls (Some l) ms (snd (SetReqNotVerified (Some l) f h)) !! l
     = Some c' /\
     reqNotVerified c' = f) /\
  (forall l', l' <> l ->
     fetch_calls (Some l) ms (snd (SetReqNotVerified (Some l) f h)) !! l'
     = h !! l').
Proof.
  intros Hl. unfold SetReqNotVerified, update_HandlerConfig. rewrite Hl.
  simpl fst. simpl snd. split; [reflexivity|].
  destruct (fetch_calls_keep ms l
              (<[l := {| reqNotVerified := f;
                         fetchVerifier := fetchVerifier c;
                         fetchSigner := fetchSigner c |}]> h)
              _ (lookup_insert_eq _ _ _)) as [(c' & Hc' & Hr) Hother].
  split; [exists c'; split; [exact Hc'|exact Hr]|].
  intros l' Hne. rewrite (Hother l' Hne).
  now rewrite lookup_insert_ne by congruence.
Qed.

End Properties.

(** * The properties on concrete inputs *)

(** The hash functions of the instance on the test vector "abc", and the
    MAC of scenario S1 (key: 64 bytes 0x01). *)
Example sha256_abc :
  SHA2.sha256 (list_byte_of_string "abc")
  = be_bytes 32
      0xba7816bf8f01cfea414140de5dae2223b00361a396177a9cb410ff61f20015ad.
Proof. vm_compute. reflexivity. Qed.

Example sha512_abc :
  SHA2.sha512 (list_byte_of_string "abc")
  = (be_bytes 32
       0xddaf35a193617abacc417349ae20413112e6fa4e89a97ea20a9eeee64b55d39a
     ++ be_bytes 32
       0x2192992a274fc1a836ba3c23a3feebbd454d4423643ce80e2a9ac94fa54ca49f)%list.
Proof. vm_compute. reflexivity. Qed.

Example sign_S1 :
  fst (sign signer_A (Some S1_base) empty_World)
  = Ok (Some (be_bytes 32
          0xca668fcbf6a5f035d0f5a3a50a1e47650832234ae893f352a86c0dccc1c08f20),
        nil_error).
Proof. vm_compute. reflexivity. Qed.

(** C7 and C3 on the empty store: the first address, with the defaults. *)
Example NewSignConfig_empty_World :
  fst (NewSignConfig empty_World) = Ok (Some 1%positive) /\
  signConfigs (snd (NewSignConfig empty_World)) !! 1%positive
  = Some {| signAlg := true; signCreated := true; fakeCreated := 0;
            expires := 0; nonce := EmptyString;
            sc_requestResponse := None |}.
Proof. split; reflexivity. Qed.

Example NewVerifyConfig_empty_World :
  fst (NewVerifyConfig empty_World) = Ok (Some 1%positive) /\
  verifyConfigs (snd (NewVerifyConfig empty_World)) !! 1%positive
  = Some {| verifyCreated := true; notNewerThan := 2000000000;
            notOlderThan := 10000000000; allowedAlgs := Some nil;
            rejectExpired := true; vc_requestResponse := None;
            verifyKeyID := true; dateWithin := 0 |}.
Proof. split; reflexivity. Qed.

(** C2 on its three error cases and on the 64-byte key of the tests. *)
Example NewHMACSHA256Signer_nil_key :
  NewHMACSHA256Signer "key1" None None fields_method empty_World
  = (Ok (None, Some "key must be at least 64 bytes long"), empty_World).
Proof. reflexivity. Qed.

Example NewHMACSHA256Signer_short_key :
  NewHMACSHA256Signer "key1" (Some (repeat Byte.x01 63)) None fields_method
    empty_World
  = (Ok (None, Some "key must be at least 64 bytes long"), empty_World).
Proof. reflexivity. Qed.

Example NewHMACSHA256Signer_empty_keyID :
  NewHMACSHA256Signer EmptyString (Some key_A) None fields_method empty_World
  = (Ok (None, Some "keyID must not be empty"), empty_World).
Proof. reflexivity. Qed.

Example NewHMACSHA256Signer_key1 :
  fst (NewHMACSHA256Signer "key1" (Some key_A) None fields_method empty_World)
  = Ok (Some 1%positive, nil_error) /\
  Signer_view
    (snd (NewHMACSHA256Signer "key1" (Some key_A) None fields_method
            empty_World)) 1
  = Some ({| s_keyID := "key1"; s_key := KeyBytes (Some key_A);
             s_alg := "hmac-sha256"; s_config := Some 1%positive;
             s_fields := fields_method |}, Some default_SignConfig).
Proof. split; reflexivity. Qed.

(** C1 on the key of 64 bytes 0x01. *)
Lemma hmac_sign_verify_round_trip_witness :
  exists sig,
    sign signer_A (Some message) empty_World
      = (Ok (sig, nil_error), empty_World) /\
    verify verifier_A (Some message) sig empty_World
      = (Ok (true, nil_error), empty_World).
Proof.
  apply (hmac_sign_verify_round_trip signer_A verifier_A (Some key_A)
           (Some message) empty_World);
    [vm_compute; discriminate|reflexivity..].
Defined.

(** C4: signed with the key of 0x01 bytes, verified with the key of 0x02
    bytes. *)
Lemma hmac_wrong_key_is_mismatch_witness :
  exists sig,
    sign signer_A (Some message) empty_World
      = (Ok (sig, nil_error), empty_World) /\
    verify verifier_B (Some message) sig empty_World
      = (Ok (false, nil_error), empty_World).
Proof.
  apply (hmac_wrong_key_is_mismatch signer_A verifier_B (Some key_A)
           (Some key_B) (Some message) empty_World);
    [reflexivity..|vm_compute; discriminate].
Defined.

(** C5 on the algorithm string ed25519. *)
Lemma algorithm_identifiers_spec_witness :
  ((exists x,
      returns_Signer
        (NewHMACSHA256Signer "key1" (Some key_A) None fields_method
           empty_World) empty_World x /\
      s_alg x = "hmac-sha256") /\
   (exists x,
      returns_Signer
        (NewRSASigner "key1" (Some rsa_key) None fields_method empty_World)
        empty_World x /\
      s_alg x = "rsa-v1_5-sha256") /\
   (exists x,
      returns_Signer
        (NewRSAPSSSigner "key1" (Some rsa_key) None fields_method empty_World)
        empty_World x /\
      s_alg x = "rsa-pss-sha512") /\
   (exists x,
      returns_Signer
        (NewP256Signer "key1" (Some dsa_key) None fields_method empty_World)
        empty_World x /\
      s_alg x = "ecdsa-p256-sha256")) /\
  sign signer_ed25519 (Some message) empty_World =
    (Ok (None, Some ("sign: unknown algorithm " ++ dquote ++ "ed25519"
                       ++ dquote)), empty_World) /\
  verify verifier_ed25519 (Some message) (Some message) empty_World =
    (Ok (false, Some ("verify: unknown algorithm " ++ dquote ++ "ed25519"
                        ++ dquote)), empty_World).
Proof.
  destruct (algorithm_identifiers_spec (H := small_crypto) "key1" key_A
              rsa_key dsa_key None fields_method signer_ed25519
              verifier_ed25519 (Some message) (Some message) empty_World)
    as (Hc & Hs & Hv).
  split; [apply Hc; [vm_compute; discriminate|discriminate]|].
  split; [apply Hs|apply Hv]; simpl; intuition discriminate.
Defined.

(** C9 on the empty keyID. *)
Lemma Verifier_constructors_accept_empty_keyID_witness :
  exists v,
    returns_Verifier
      (NewHMACSHA256Verifier EmptyString (Some key_A) None fields_method
         empty_World) empty_World v /\
    v_keyID v = EmptyString.
Proof.
  apply (Verifier_constructors_accept_empty_keyID (H := small_crypto) key_A
           rsa_public_key dsa_public rsa_key dsa_key None None
           fields_method empty_World).
  vm_compute; discriminate.
Defined.

(** C10: an RSA signature made for another digest. *)
Lemma rsa_verify_false_has_error_witness :
  verify verifier_rsa (Some message)
    (Some (Small.rsa_sign rsa_key (SHA2.sha512 message))) empty_World
    = (Ok (false,
           Some "RSA verification failed: crypto/rsa: verification error"),
       empty_World).
Proof.
  destruct (rsa_verify_false_has_error verifier_rsa (Some message)
              (Some (Small.rsa_sign rsa_key (SHA2.sha512 message)))
              empty_World (or_introl eq_refl)) as (_ & _ & Hv & _).
  apply (Hv rsa_public_key); [reflexivity..|vm_compute; reflexivity].
Defined.

(** C8 on the small group: r = 49 and s = 56, each in 32 bytes, and the
    signature is accepted. *)
Lemma ecdsa_signature_is_raw_r_s_witness :
  let sig := (be_bytes 32 49 ++ be_bytes 32 56)%list in
  sign signer_p256 (Some message) empty_World
    = (Ok (Some sig, nil_error),
       with_rand_Reader (131874305 : @Entropy small_crypto) empty_World) /\
  length sig = 64%nat /\
  be_decode (take 32 sig) = 49 /\ be_decode (drop 32 sig) = 56 /\
  verify verifier_p256 (Some message) (Some sig) empty_World
    = (Ok (true, nil_error), empty_World).
Proof.
  assert (Hacc : Small.dsa_verify dsa_public (SHA2.sha256 message) 49 56
                 = true) by (vm_compute; reflexivity).
  rewrite <- Hacc.
  apply (ecdsa_signature_is_raw_r_s signer_p256 verifier_p256 dsa_key
           dsa_public (Some message) 49 56 (131874305 : @Entropy small_crypto)
           empty_World empty_World);
    [reflexivity..|vm_compute; reflexivity|lia|lia].
Defined.

(** C6 (amended) on a call of [sign]: the Signer built before is as it was,
    with its configuration. *)
Lemma operations_frame_witness :
  Signer_view
    (snd (exec (Op_sign signer_A (Some message)) world_with_signer)) 1
  = Signer_view world_with_signer 1.
Proof.
  destruct (operations_frame (Op_sign signer_A (Some message))
              world_with_signer 1) as (_ & _ & Hheap & _).
  destruct (Hheap eq_refl) as (Hsc & _ & Hs & _).
  unfold Signer_view. rewrite Hs, Hsc. reflexivity.
Defined.

(** C6 as stated fails.  The caller keeps the pointer to the configuration
    it built the Signer with; after [c.SignAlg(false)] the same Signer
    signs without the alg parameter, although no field of the Signer
    struct was written. *)
Lemma Signer_config_shared_with_caller :
  signAlg <$> config_of_Signer world_with_signer 1 = Some true /\
  signAlg <$>
    config_of_Signer
      (snd (exec (OpSignConfig_SignAlg (Some 1%positive) false)
              world_with_signer)) 1
    = Some false /\
  ~ @immutable_after_construction (list string) small_crypto.
Proof.
  split; [reflexivity|]. split; [reflexivity|].
  intros Himm.
  destruct (Himm (OpSignConfig_SignAlg (Some 1%positive) false)
              world_with_signer 1%positive) as [Hs _].
  assert (Hbefore : config_of_Signer world_with_signer 1
                    = Some default_SignConfig) by reflexivity.
  destruct (config_of_Signer_Some _ _ _ Hbefore) as [s Hview].
  apply Hs in Hview.
  assert (Hafter :
    signAlg <$>
      config_of_Signer
        (snd (exec (OpSignConfig_SignAlg (Some 1%positive) false)
                world_with_signer)) 1
    = Some true)
    by (unfold config_of_Signer; rewrite Hview; reflexivity).
  discriminate Hafter.
Qed.

(** * The further properties on concrete inputs *)

Lemma reached_world_reachable : reachable reached_world.
Proof.
  apply reachable_step; [apply reachable_step|].
  - apply reachable_init. repeat split; reflexivity.
  - exact I.
  - simpl. eexists. reflexivity.
Defined.

Lemma reached_world_signer : signers reached_world !! 1%positive
                             = Some signer_built.
Proof. reflexivity. Defined.

Lemma reached_world_config : signConfigs reached_world !! 1%positive
                             = Some default_SignConfig.
Proof. reflexivity. Defined.

Lemma reached_world_v_verifier : verifiers reached_world_v !! 1%positive
                                 = Some verifier_built.
Proof. reflexivity. Defined.

Lemma reached_world_v_config : verifyConfigs reached_world_v !! 1%positive
                               = Some default_VerifyConfig.
Proof. reflexivity. Defined.

(** X5 on the store after the two calls. *)
Lemma reachable_World_wf_witness : World_wf reached_world.
Proof. apply reachable_World_wf, reached_world_reachable. Defined.

(** X6 on the Signer of that store. *)
Lemma stored_Signer_Verifier_never_panic_witness :
  exists r w', sign signer_built (Some message) empty_World = (Ok r, w').
Proof.
  destruct (stored_Signer_Verifier_never_panic reached_world empty_World
              (Some message) (Some message) reached_world_reachable)
    as [Hs _].
  apply (Hs 1%positive signer_built reached_world_signer). discriminate.
Defined.

(** X7: an HMAC Signer holding an RSA key. *)
Lemma sign_type_assertion_panics_witness :
  sign signer_mismatched (Some message) empty_World
  = (Panic interface_conversion, empty_World).
Proof.
  destruct (sign_type_assertion_panics signer_mismatched (Some message)
              empty_World) as [Hh _].
  apply Hh; [reflexivity|intros b; discriminate].
Defined.

(** X8: an RSA-PSS Verifier holding a byte-slice key. *)
Lemma verify_type_assertion_panics_witness :
  verify verifier_mismatched (Some message) (Some message) empty_World
  = (Panic interface_conversion, empty_World).
Proof.
  destruct (verify_type_assertion_panics verifier_mismatched (Some message)
              (Some message) empty_World) as (_ & Hr & _).
  apply Hr; [right; reflexivity|intros k; discriminate].
Defined.

(** X9 on the small RSA key. *)
Lemma sign_rsa_fixed_errors_witness :
  exists sig,
    sign signer_rsa (Some message) empty_World
    = (Ok (Some sig, nil_error), empty_World).
Proof.
  destruct (sign_rsa_fixed_errors signer_rsa rsa_key (Some message)
              empty_World eq_refl) as [Hv _].
  eexists. rewrite (Hv eq_refl). reflexivity.
Defined.

(** X10 on the HMAC Signer. *)
Lemma sign_signature_xor_error_witness :
  nil_error = None <-> Some (SHA2.hmac_sha256 key_A message) <> None.
Proof.
  apply (sign_signature_xor_error signer_A (Some message) empty_World
           empty_World (Some (SHA2.hmac_sha256 key_A message)) nil_error);
    [discriminate|reflexivity].
Defined.

(** X12: the MAC itself is accepted. *)
Lemma verify_hmac_accepts_only_the_mac_witness :
  verify verifier_A (Some message)
    (Some (SHA2.hmac_sha256 key_A message)) empty_World
  = (Ok (true, nil_error), empty_World).
Proof.
  apply (verify_hmac_accepts_only_the_mac verifier_A (Some key_A)
           (Some message) (Some (SHA2.hmac_sha256 key_A message))
           empty_World); [reflexivity..|].
  unfold elems, hmac_sha256, small_crypto. reflexivity.
Defined.

(** X11 on the HMAC Verifier and the MAC. *)
Lemma verify_true_without_error_witness :
  (true = true -> nil_error = None) /\ (nil_error <> None -> true = false).
Proof.
  apply (verify_true_without_error verifier_A (Some message)
           (Some (SHA2.hmac_sha256 key_A message))
           empty_World empty_World);
    [discriminate|].
  apply (verify_hmac_accepts_iff verifier_A (Some key_A)
           (Some message) (Some (SHA2.hmac_sha256 key_A message))
           empty_World); [reflexivity..|].
  unfold elems, hmac_sha256, small_crypto. reflexivity.
Defined.

(** X13 on the HMAC Signer and Verifier. *)
Lemma sign_verify_leave_store_witness :
  snd (sign signer_A (Some message) empty_World) = empty_World /\
  snd (verify verifier_A (Some message) (Some message) empty_World)
  = empty_World.
Proof.
  destruct (sign_verify_leave_store signer_A verifier_A (Some message)
              (Some message) empty_World) as [Hs Hv].
  split; [apply Hs; left; reflexivity|apply Hv; discriminate].
Defined.

(** X16: [SignAlg] and [SetNonce] on the configuration of the store. *)
Lemma setters_commute_witness :
  (let* _ := exec (OpSignConfig_SignAlg (Some 1%positive) false) in
   exec (OpSignConfig_SetNonce (Some 1%positive) "n1")) reached_world
  = (let* _ := exec (OpSignConfig_SetNonce (Some 1%positive) "n1") in
     exec (OpSignConfig_SignAlg (Some 1%positive) false)) reached_world.
Proof.
  apply setters_commute.
  - exists default_SignConfig. exact reached_world_config.
  - exists default_SignConfig. exact reached_world_config.
  - left. discriminate.
Defined.

(** X17: [SetNonce] twice. *)
Lemma setter_last_write_wins_witness :
  (let* _ := exec (OpSignConfig_SetNonce (Some 1%positive) "n1") in
   exec (OpSignConfig_SetNonce (Some 1%positive) "n2")) reached_world
  = exec (OpSignConfig_SetNonce (Some 1%positive) "n2") reached_world.
Proof.
  apply setter_last_write_wins; [|reflexivity..].
  exists default_SignConfig. exact reached_world_config.
Defined.

(** X18: [SignAlg] on a nil pointer. *)
Lemma setter_on_nil_receiver_panics_witness :
  exec (OpSignConfig_SignAlg None true) reached_world
  = (Panic nil_dereference, reached_world).
Proof. apply setter_on_nil_receiver_panics; reflexivity. Defined.

(** X19: a setter of VerifyConfig does not reach the Signer. *)
Lemma setter_leaves_unrelated_objects_witness :
  Signer_view
    (snd (exec (OpVerifyConfig_SetVerifyKeyID (Some 1%positive) false)
            reached_world)) 1
  = Some (signer_built, Some default_SignConfig).
Proof.
  destruct (setter_leaves_unrelated_objects
              (OpVerifyConfig_SetVerifyKeyID (Some 1%positive) false)
              reached_world 1%positive eq_refl) as [Hs _].
  apply Hs; [|left; reflexivity].
  apply (Signer_view_of_fields reached_world 1%positive signer_built
           1%positive default_SignConfig);
    [exact reached_world_signer|reflexivity|exact reached_world_config].
Defined.

(** X20: [SetExpires] through the pointer the Signer stores. *)
Lemma SignConfig_setters_reach_Signer_witness :
  expires <$>
    config_of_Signer
      (snd (SignConfig_SetExpires (Some 1%positive) 1700000000
              reached_world)) 1
  = Some 1700000000.
Proof.
  destruct (SignConfig_setters_reach_Signer reached_world 1%positive
              1%positive signer_built default_SignConfig
              reached_world_signer eq_refl reached_world_config)
    as (_ & _ & _ & He & _).
  rewrite He. reflexivity.
Defined.

(** X21: [SetVerifyCreated] through the pointer the Verifier stores. *)
Lemma VerifyConfig_setters_reach_Verifier_witness :
  verifyCreated <$>
    config_of_Verifier
      (snd (VerifyConfig_SetVerifyCreated (Some 1%positive) false
              reached_world_v)) 1
  = Some false.
Proof.
  destruct (VerifyConfig_setters_reach_Verifier reached_world_v 1%positive
              1%positive verifier_built default_VerifyConfig
              reached_world_v_verifier eq_refl reached_world_v_config)
    as (_ & _ & Hc & _).
  rewrite Hc. reflexivity.
Defined.

(** X22 on the store that already has a Signer. *)
Lemma nil_config_is_private_default_witness :
  Signer_with_private_default
    (NewHMACSHA256Signer "key2" (Some key_B) None fields_method
       reached_world).
Proof.
  apply (nil_config_is_private_default "key2" key_B rsa_key dsa_key
           fields_method reached_world reached_world_reachable);
    [vm_compute|]; discriminate.
Defined.

(** X23: two calls that do not set the requestResponse. *)
Lemma Config_calls_compose_witness :
  c_requestResponse
    (fold_left Config_call (CallSignAlg false :: CallsetFakeCreated 5 :: nil)
       NewConfig)
  = c_requestResponse NewConfig.
Proof.
  apply (Config_calls_compose
           (CallSignAlg false :: CallsetFakeCreated 5 :: nil) NewConfig).
  reflexivity.
Defined.

(** X26: the handler is removed (set to nil), then a fetch function is
    set. *)
Lemma custom_handler_persists_witness :
  exists c',
    fetch_calls (Some 1%positive) (CallSetFetchVerifier None :: nil)
      (snd (SetReqNotVerified (Some 1%positive) None handler_store))
      !! 1%positive = Some c' /\
    reqNotVerified c' = None.
Proof.
  destruct (custom_handler_persists None (CallSetFetchVerifier None :: nil)
              1%positive handler_store
              {| reqNotVerified := Some defaultReqNotVerified;
                 fetchVerifier := None; fetchSigner := None |} eq_refl)
    as (_ & Hc & _).
  exact Hc.
Defined.
